(** * train-delay-notifier: status classification and notification pipeline

    A shallow embedding of the three TypeScript programs of the repository

    - [src/index.ts]            (nodemailer version)       -> [Module Index]
    - [check-delay.ts]          (Resend / cheerio version) -> [Module CheckDelay]
    - the Cloudflare Workers version                        -> [Module Worker]

    JavaScript strings are sequences of UTF-16 code units; [String.length],
    [includes] and [substring] all count code units, so a string is modelled
    as a list of code units.  Effects (console output, the mail transport,
    the HTTP POST to the mail API) are recorded in an event trace; the
    outcomes of the network collaborators are inputs of a run. *)

From Stdlib Require Import List NArith ZArith Bool Lia String Ascii.
From Stdlib Require Import DecimalString.
Import ListNotations.

Set Implicit Arguments.

(* ================================================================= *)
(** ** JavaScript strings *)

Definition char16 := N.
Definition jsstring := list char16.

(** *** Literals

    Rocq string literals are byte strings; the source files are UTF-8.
    [js] decodes the UTF-8 bytes of a literal into code points and encodes
    them as UTF-16 code units, so that [js "遅延"] is the two-unit string
    the TypeScript literal ['遅延'] denotes. *)

Definition cont_bits (a : ascii) : N := N.land (N_of_ascii a) 63.

Fixpoint utf8_points (fuel : nat) (bs : list ascii) : list N :=
  match fuel with
  | O => []
  | S fuel' =>
      match bs with
      | [] => []
      | b :: rest =>
          let n := N_of_ascii b in
          if (n <? 128)%N then n :: utf8_points fuel' rest
          else if (n <? 224)%N then
            match rest with
            | c1 :: r => ((n - 192) * 64 + cont_bits c1)%N :: utf8_points fuel' r
            | _ => []
            end
          else if (n <? 240)%N then
            match rest with
            | c1 :: c2 :: r =>
                ((n - 224) * 4096 + cont_bits c1 * 64 + cont_bits c2)%N
                  :: utf8_points fuel' r
            | _ => []
            end
          else
            match rest with
            | c1 :: c2 :: c3 :: r =>
                ((n - 240) * 262144 + cont_bits c1 * 4096
                 + cont_bits c2 * 64 + cont_bits c3)%N
                  :: utf8_points fuel' r
            | _ => []
            end
      end
  end.

Definition utf16_units (cp : N) : list char16 :=
  if (cp <? 65536)%N then [cp]
  else let v := (cp - 65536)%N in
       [(55296 + v / 1024)%N; (56320 + v mod 1024)%N].

Definition js (s : string) : jsstring :=
  let bs := list_ascii_of_string s in
  flat_map utf16_units (utf8_points (List.length bs) bs).


(** The templates of the source contain the double-quote character; in a
    template literal written with [jsq] the character [~] (which occurs in
    none of the source's templates) stands for it. *)
Definition dquote : char16 := 34%N.
Definition tilde : char16 := 126%N.

Definition jsq (s : string) : jsstring :=
  map (fun c => if (c =? tilde)%N then dquote else c) (js s).

Definition nl : jsstring := [10%N].

(** *** String operations *)

Fixpoint is_prefix (p s : jsstring) : bool :=
  match p, s with
  | [], _ => true
  | _ :: _, [] => false
  | c :: p', d :: s' => (c =? d)%N && is_prefix p' s'
  end.

(** [s.includes(kw)] *)
Fixpoint includes (s kw : jsstring) : bool :=
  is_prefix kw s ||
  match s with
  | [] => false
  | _ :: s' => includes s' kw
  end.

(** [s.substring(0, n)] *)
Definition substring0 (n : nat) (s : jsstring) : jsstring := firstn n s.

(** [xs.join(sep)] *)
Fixpoint join (sep : jsstring) (xs : list jsstring) : jsstring :=
  match xs with
  | [] => []
  | [x] => x
  | x :: rest => x ++ sep ++ join sep rest
  end.

(** White space and line terminators of ECMAScript: the class [\s] of
    regular expressions and the characters removed by [trim]. *)
Definition is_line_terminator (c : char16) : bool :=
  (c =? 10)%N || (c =? 13)%N || (c =? 8232)%N || (c =? 8233)%N.

Definition is_space (c : char16) : bool :=
  ((9 <=? c) && (c <=? 13))%N || (c =? 32)%N || (c =? 160)%N || (c =? 5760)%N
  || ((8192 <=? c) && (c <=? 8202))%N || (c =? 8232)%N || (c =? 8233)%N
  || (c =? 8239)%N || (c =? 8287)%N || (c =? 12288)%N || (c =? 65279)%N.

Definition is_digit (c : char16) : bool := ((48 <=? c) && (c <=? 57))%N.

Fixpoint trimStart (s : jsstring) : jsstring :=
  match s with
  | [] => []
  | c :: s' => if is_space c then trimStart s' else s
  end.

Definition trimEnd (s : jsstring) : jsstring := rev (trimStart (rev s)).

(** [s.trim()] *)
Definition trim (s : jsstring) : jsstring := trimEnd (trimStart s).

(** Decimal rendering of a non-negative integer, as in a template literal. *)
Definition decimal (n : N) : jsstring :=
  map N_of_ascii (list_ascii_of_string (NilEmpty.string_of_uint (N.to_uint n))).

(** [a || b] on strings: the empty string is falsy. *)
Definition or_else (a b : jsstring) : jsstring :=
  match a with
  | [] => b
  | _ :: _ => a
  end.

(** [!s] for a value that is a string or [undefined]. *)
Definition falsy (v : option jsstring) : bool :=
  match v with
  | None | Some [] => true
  | Some (_ :: _) => false
  end.

(** [v || d] for a value that is a string or [undefined]. *)
Definition or_default (v : option jsstring) (d : jsstring) : jsstring :=
  match v with
  | Some (c :: s) => c :: s
  | _ => d
  end.

(* ================================================================= *)
(** ** Thrown values, completions and the effect monad *)

(** What a [catch] clause can receive: an [Error] object, or any other
    value (of which only its string conversion is observed). *)
Inductive JsThrown : Type :=
| ErrorObj (name message : jsstring)
| NonError (shown : jsstring).

Definition mkError (message : jsstring) : JsThrown := ErrorObj (js "Error") message.

(** [error instanceof Error ? error.message : 'Unknown error'] *)
Definition error_message_or_unknown (error : JsThrown) : jsstring :=
  match error with
  | ErrorObj _ message => message
  | NonError _ => js "Unknown error"
  end.

(** String conversion of a thrown value in a template literal
    ([Error.prototype.toString] for error objects). *)
Definition to_display (error : JsThrown) : jsstring :=
  match error with
  | ErrorObj [] message => message
  | ErrorObj name [] => name
  | ErrorObj name message => name ++ js ": " ++ message
  | NonError shown => shown
  end.

(** The result of awaiting a promise: a value, or a thrown value. *)
Inductive Completion (A : Type) : Type :=
| Returned (a : A)
| Thrown (e : JsThrown).
Arguments Returned {A} a.
Arguments Thrown {A} e.

Definition cbind {A B} (c : Completion A) (k : A -> Completion B) : Completion B :=
  match c with
  | Returned a => k a
  | Thrown e => Thrown e
  end.

(** [try { body } catch (error) { handler }] *)
Definition try_catch {A} (body : Completion A) (handler : JsThrown -> Completion A)
  : Completion A :=
  match body with
  | Returned a => Returned a
  | Thrown e => handler e
  end.

(** [if (c) throw e;] *)
Definition throw_if (c : bool) (e : JsThrown) : Completion unit :=
  if c then Thrown e else Returned tt.

(** [Promise.all] of two promises.  When both reject, which rejection wins
    depends on timing; the checkers passed to it below never reject. *)
Definition promise_all2 {A} (p q : Completion A) : Completion (list A) :=
  match p, q with
  | Returned a, Returned b => Returned [a; b]
  | Thrown e, _ => Thrown e
  | _, Thrown e => Thrown e
  end.

(** Effectful code: a computation extends the trace of events performed so
    far and completes with a value or a thrown value. *)
Section Effects.
Variable E : Type.

Definition Eff (A : Type) : Type := list E -> list E * Completion A.

Definition ret {A} (a : A) : Eff A := fun tr => (tr, Returned a).

Definition bind {A B} (m : Eff A) (k : A -> Eff B) : Eff B :=
  fun tr =>
    match m tr with
    | (tr', Returned a) => k a tr'
    | (tr', Thrown e) => (tr', Thrown e)
    end.

Definition emit (e : E) : Eff unit := fun tr => (tr ++ [e], Returned tt).

Definition lift {A} (c : Completion A) : Eff A := fun tr => (tr, c).

Definition catch {A} (body : Eff A) (handler : JsThrown -> Eff A) : Eff A :=
  fun tr =>
    match body tr with
    | (tr', Returned a) => (tr', Returned a)
    | (tr', Thrown e) => handler e tr'
    end.

(** [for (const x of xs) { body x }] *)
Fixpoint for_of {A} (xs : list A) (body : A -> Eff unit) : Eff unit :=
  match xs with
  | [] => ret tt
  | x :: rest => bind (body x) (fun _ => for_of rest body)
  end.

Definition run {A} (m : Eff A) : list E * Completion A := m [].
End Effects.

Arguments ret {E A} a.
Arguments emit {E} e.
Arguments lift {E A} c.
Arguments run {E A} m.

Declare Scope eff_scope.
Delimit Scope eff_scope with eff.
Notation "x <- m ;; k" := (bind m (fun x => k))
  (at level 61, m at next level, right associativity) : eff_scope.
Notation "m ;; k" := (bind m (fun _ => k))
  (at level 61, right associativity) : eff_scope.

(** External functions of the platform: the cheerio queries on a loaded
    document and [parseInt].  They are parameters of the model. *)
Class Host : Type := {
  (** [cheerio.load(html)(selector).text()] *)
  select_text : jsstring -> jsstring -> jsstring;
  (** [cheerio.load(html)(selector).first().text()] *)
  select_first_text : jsstring -> jsstring -> jsstring;
  (** [parseInt(s)]; [None] is NaN *)
  parseInt : jsstring -> option Z
}.

(** A response of [fetch]: [ok], [status] and the outcome of [text()]. *)
Record Response : Type := {
  ok : bool;
  http_status : N;
  text : Completion jsstring
}.

(** What a call of [fetch] does: it rejects (network error, timeout, abort)
    or resolves with a response. *)
Definition FetchOutcome : Type := Completion Response.


(** The status of a line: the union type
    ['normal' | 'delayed' | 'suspended' | 'unknown'] that all three programs
    declare. *)
Inductive Status : Type := normal | delayed | suspended | unknown.

(** [a === b] on statuses *)
Definition status_eqb (a b : Status) : bool :=
  match a, b with
  | normal, normal | delayed, delayed
  | suspended, suspended | unknown, unknown => true
  | _, _ => false
  end.

(* ================================================================= *)
(** ** Regular expressions

    The regular expressions of the source are built from literals,
    alternatives of literals, and lazy or greedy repetitions of a character
    class.  Each construct is a backtracking matcher in continuation-passing
    style: it consumes a prefix of the input and hands the rest to its
    continuation, trying its choices in the order of the ECMAScript
    semantics until the continuation succeeds.  All patterns below have one
    capture group that opens at the start of the match; a successful match
    returns the input at the point where that group closes. *)

Definition Matcher : Type := jsstring -> option jsstring.

Definition re_lit (kw : jsstring) (k : Matcher) : Matcher :=
  fun s => if is_prefix kw s then k (skipn (List.length kw) s) else None.

(** [(?:kw1|kw2|...)] *)
Fixpoint re_alt (kws : list jsstring) (k : Matcher) (s : jsstring) : option jsstring :=
  match kws with
  | [] => None
  | kw :: rest =>
      match re_lit kw k s with
      | Some r => Some r
      | None => re_alt rest k s
      end
  end.

(** [c*?]: as few characters of the class as possible *)
Fixpoint re_lazy_star (p : char16 -> bool) (k : Matcher) (s : jsstring) : option jsstring :=
  match k s with
  | Some r => Some r
  | None =>
      match s with
      | [] => None
      | c :: s' => if p c then re_lazy_star p k s' else None
      end
  end.

(** [c*]: as many characters of the class as possible *)
Fixpoint re_star (p : char16 -> bool) (k : Matcher) (s : jsstring) : option jsstring :=
  match s with
  | [] => k s
  | c :: s' =>
      if p c then
        match re_star p k s' with
        | Some r => Some r
        | None => k s
        end
      else k s
  end.

(** [c+] *)
Definition re_plus (p : char16 -> bool) (k : Matcher) : Matcher :=
  fun s =>
    match s with
    | [] => None
    | c :: s' => if p c then re_star p k s' else None
    end.

(** [.] (without the [s] flag): any code unit but a line terminator *)
Definition re_dot (c : char16) : bool := negb (is_line_terminator c).

(** An unanchored match: the pattern is tried at each position from the
    left.  The result is the input at the start of the match and at the
    close of the capture group. *)
Fixpoint re_search (m : Matcher) (s : jsstring) : option (jsstring * jsstring) :=
  match m s with
  | Some r => Some (s, r)
  | None =>
      match s with
      | [] => None
      | _ :: s' => re_search m s'
      end
  end.

(** The text of capture group 1 of a match. *)
Definition group1 (found : jsstring * jsstring) : jsstring :=
  firstn (List.length (fst found) - List.length (snd found)) (fst found).

(** [/kw1|kw2|.../.test(s)] *)
Definition re_test_any (kws : list jsstring) (s : jsstring) : bool :=
  match re_search (re_alt kws (fun r => Some r)) s with
  | Some _ => true
  | None => false
  end.

(** [(?:\n|。)] after the capture group *)
Definition close_newline_or_period : Matcher :=
  fun s =>
    match s with
    | c :: _ => if (c =? 10)%N || (c =? 12290)%N then Some s else None
    | [] => None
    end.

(** [(?:\s{2,}|$)] after the capture group *)
Definition close_spaces_or_end : Matcher :=
  fun s =>
    match s with
    | [] => Some s
    | a :: b :: _ => if is_space a && is_space b then Some s else None
    | [_] => None
    end.

(* ================================================================= *)
(** ** src/index.ts *)

Module Index.

Definition Date := Z.

Record LineConfig : Type := {
  name : jsstring;
  nameEn : jsstring;
  url : jsstring;
  cfg_operator : jsstring
}.

(** [CONFIG.lines] *)
Definition keiyo : LineConfig := {|
  name := js "京葉線";
  nameEn := js "Keiyo Line";
  url := js "https://traininfo.jreast.co.jp/train_info/line.aspx?gid=1&lineid=keiyoline";
  cfg_operator := js "JR東日本"
|}.

Definition hibiya : LineConfig := {|
  name := js "日比谷線";
  nameEn := js "Hibiya Line";
  url := js "https://www.tokyometro.jp/unkou/history/hibiya.html";
  cfg_operator := js "東京メトロ"
|}.

(** [process.env]: each variable is a string or undefined. *)
Record ProcessEnv : Type := {
  NOTIFY_EMAIL : option jsstring;
  SMTP_USER : option jsstring;
  SMTP_HOST : option jsstring;
  SMTP_PORT : option jsstring;
  SMTP_PASS : option jsstring
}.

Record EmailConfig : Type := {
  to : jsstring;
  from : jsstring;
  smtpHost : jsstring;
  smtpPort : option Z;
  smtpUser : jsstring;
  smtpPass : jsstring
}.

(** [CONFIG.email] *)
Definition CONFIG_email `{Host} (env : ProcessEnv) : EmailConfig := {|
  to := or_default (NOTIFY_EMAIL env) [];
  from := or_default (SMTP_USER env) [];
  smtpHost := or_default (SMTP_HOST env) (js "smtp.gmail.com");
  smtpPort := parseInt (or_default (SMTP_PORT env) (js "587"));
  smtpUser := or_default (SMTP_USER env) [];
  smtpPass := or_default (SMTP_PASS env) []
|}.

Record LineStatus : Type := {
  lineName : jsstring;
  operator : jsstring;
  status : Status;
  message : jsstring;
  timestamp : Date
}.

Record CheckResult : Type := {
  hasDelay : bool;
  lines : list LineStatus
}.

(** *** The keyword rules of the two checkers *)

Definition keiyo_delayKeywords : list jsstring :=
  [js "遅延"; js "遅れ"; js "運転見合"; js "運休"; js "運転取りやめ"; js "折返し運転"].
Definition keiyo_normalKeywords : list jsstring :=
  [js "平常運転"; js "平常どおり"].

Definition hibiya_delayKeywords : list jsstring :=
  [js "遅延"; js "遅れ"; js "運転見合"; js "運休"; js "折返し運転"; js "直通運転中止"].
Definition hibiya_normalKeywords : list jsstring :=
  [js "平常運転"; js "平常どおり"; js "通常運行"].

(** [keyword.includes('運休') || keyword.includes('見合') ? 'suspended' : 'delayed'] *)
Definition severity (keyword : jsstring) : Status :=
  if includes keyword (js "運休") || includes keyword (js "見合")
  then suspended else delayed.

(** The first loop of a checker: [for (const keyword of delayKeywords)]
    with its [break].  [on_match keyword] is the message assigned. *)
Fixpoint delay_loop (statusText : jsstring) (on_match : jsstring -> jsstring)
         (keywords : list jsstring) (st : Status * jsstring) : Status * jsstring :=
  match keywords with
  | [] => st
  | keyword :: rest =>
      if includes statusText keyword
      then (severity keyword, on_match keyword)
      else delay_loop statusText on_match rest st
  end.

(** The second loop: [for (const keyword of normalKeywords)]. *)
Fixpoint normal_loop (statusText : jsstring) (keywords : list jsstring)
         (st : Status * jsstring) : Status * jsstring :=
  match keywords with
  | [] => st
  | keyword :: rest =>
      if includes statusText keyword
      then (normal, js "平常運転")
      else normal_loop statusText rest st
  end.

(** Lines 76-108 of [checkKeiyoLine]: from the body text and the text of
    the first [.info, .delay-info, .status] element to status and
    message. *)
Definition keiyo_classify (statusText infoText : jsstring) : Status * jsstring :=
  let st := (unknown, []) in
  let st := delay_loop statusText
              (fun keyword => or_else (trim infoText) (keyword ++ js "が発生しています"))
              keiyo_delayKeywords st in
  let st := if status_eqb (fst st) unknown
            then normal_loop statusText keiyo_normalKeywords st else st in
  if status_eqb (fst st) unknown
  then (fst st, js "ステータス不明（ページ構造が変更された可能性）")
  else st.

(** Lines 152-182 of [checkHibiyaLine]. *)
Definition hibiya_classify (statusText : jsstring) : Status * jsstring :=
  let st := (unknown, []) in
  let st := delay_loop statusText
              (fun keyword => keyword ++ js "が発生しています")
              hibiya_delayKeywords st in
  let st := if status_eqb (fst st) unknown
            then normal_loop statusText hibiya_normalKeywords st else st in
  if status_eqb (fst st) unknown
  then (normal, js "運行情報なし（15分以上の遅延なし）")
  else st.

(** The [catch] clause shared by both checkers. *)
Definition check_failed (line : LineConfig) (now : Date) (error : JsThrown)
  : LineStatus := {|
  lineName := name line;
  operator := cfg_operator line;
  status := unknown;
  message := js "チェック失敗: " ++ error_message_or_unknown error;
  timestamp := now
|}.

Section Checkers.
Context `{Host}.

Definition checkKeiyoLine (now : Date) (fetched : FetchOutcome)
  : Completion LineStatus :=
  try_catch
    (cbind fetched (fun response =>
     cbind (throw_if (negb (ok response))
              (mkError (js "HTTP " ++ decimal (http_status response)))) (fun _ =>
     cbind (text response) (fun html =>
     let statusText := select_text (js "body") html in
     let infoText := select_first_text (js ".info, .delay-info, .status") html in
     let '(status, message) := keiyo_classify statusText infoText in
     Returned {| lineName := name keiyo;
                 operator := cfg_operator keiyo;
                 status := status;
                 message := message;
                 timestamp := now |}))))
    (fun error => Returned (check_failed keiyo now error)).

Definition checkHibiyaLine (now : Date) (fetched : FetchOutcome)
  : Completion LineStatus :=
  try_catch
    (cbind fetched (fun response =>
     cbind (throw_if (negb (ok response))
              (mkError (js "HTTP " ++ decimal (http_status response)))) (fun _ =>
     cbind (text response) (fun html =>
     let statusText := select_text (js "body") html in
     let '(status, message) := hibiya_classify statusText in
     Returned {| lineName := name hibiya;
                 operator := cfg_operator hibiya;
                 status := status;
                 message := message;
                 timestamp := now |}))))
    (fun error => Returned (check_failed hibiya now error)).
End Checkers.


(** *** Aggregation *)

(** The options given to [nodemailer.createTransport]. *)
Record Transport : Type := {
  host : jsstring;
  port : option Z;
  secure : bool;
  auth_user : jsstring;
  auth_pass : jsstring
}.

(** The message given to [transporter.sendMail]. *)
Record MailOptions : Type := {
  mail_from : jsstring;
  mail_to : jsstring;
  mail_subject : jsstring;
  mail_text : jsstring;
  mail_html : jsstring
}.

Inductive Event : Type :=
| ConsoleLog (line : jsstring)
| ConsoleError (error : JsThrown)
| SendMail (transport : Transport) (mail : MailOptions).

(** Number of calls of [transporter.sendMail] in a trace. *)
Fixpoint sends (tr : list Event) : nat :=
  match tr with
  | [] => 0
  | SendMail _ _ :: rest => S (sends rest)
  | _ :: rest => sends rest
  end.

(** The inputs of one run: the environment, what the two page retrievals
    do, the instants read by [new Date()], and what the mail transport
    does at its n-th call. *)
Record World : Type := {
  env : ProcessEnv;
  keiyo_fetch : FetchOutcome;
  keiyo_time : Date;
  hibiya_fetch : FetchOutcome;
  hibiya_time : Date;
  start_time_text : jsstring;
  mail_time_text : jsstring;
  sendMail_outcome : nat -> MailOptions -> Completion unit
}.

Definition notifiable (line : LineStatus) : bool :=
  status_eqb (status line) delayed || status_eqb (status line) suspended.

Section Program.
Context `{Host}.
Variable w : World.

Definition console_log (line : jsstring) : Eff Event unit := emit (ConsoleLog line).

Definition checkAllLines : Eff Event CheckResult :=
  (console_log (js "🚃 運行情報をチェック中...") ;;
   checked <- lift (promise_all2 (checkKeiyoLine (keiyo_time w) (keiyo_fetch w))
                                 (checkHibiyaLine (hibiya_time w) (hibiya_fetch w))) ;;
   let lines := checked in
   let hasDelay := existsb notifiable lines in
   ret {| hasDelay := hasDelay; lines := lines |})%eff.

(** *** Mail *)

Definition statusEmoji (status : Status) : jsstring :=
  match status with
  | normal => js "✅"
  | delayed => js "⚠️"
  | suspended => js "🚫"
  | unknown => js "❓"
  end.

Definition delayedLines (result : CheckResult) : list LineStatus :=
  filter notifiable (lines result).

Definition subject_of (result : CheckResult) : jsstring :=
  js "🚃 電車遅延アラート: " ++ join (js ", ") (map lineName (delayedLines result)).

Definition html_row (line : LineStatus) : jsstring :=
  jsq "
      <div class=~line-status "
  ++ (if status_eqb (status line) normal then js "normal" else [])
  ++ jsq "~>
        <div class=~line-name~>"
  ++ statusEmoji (status line)
  ++ jsq " "
  ++ lineName line
  ++ jsq "（"
  ++ operator line
  ++ jsq "）</div>
        <div class=~line-message~>"
  ++ message line
  ++ jsq "</div>
      </div>
    ".

Definition htmlBody (result : CheckResult) : jsstring :=
  trim (jsq "
<!DOCTYPE html>
<html>
<head>
  <meta charset=~utf-8~>
  <style>
    body { font-family: -apple-system, BlinkMacSystemFont, 'Segoe UI', sans-serif; max-width: 600px; margin: 0 auto; padding: 20px; }
    .header { background: #e74c3c; color: white; padding: 15px; border-radius: 8px 8px 0 0; }
    .content { background: #f9f9f9; padding: 20px; border-radius: 0 0 8px 8px; }
    .line-status { background: white; padding: 15px; margin: 10px 0; border-radius: 8px; border-left: 4px solid #e74c3c; }
    .line-status.normal { border-left-color: #27ae60; }
    .line-name { font-size: 18px; font-weight: bold; margin-bottom: 8px; }
    .line-message { color: #666; }
    .timestamp { color: #999; font-size: 12px; margin-top: 20px; }
  </style>
</head>
<body>
  <div class=~header~>
    <h2 style=~margin: 0;~>🚃 電車遅延アラート</h2>
    <p style=~margin: 5px 0 0 0;~>帰宅ルートに遅延が発生しています</p>
  </div>
  <div class=~content~>
    "
        ++ join [] (map html_row (lines result))
        ++ jsq "
    <p class=~timestamp~>
      チェック時刻: "
        ++ mail_time_text w
        ++ jsq "
    </p>
  </div>
</body>
</html>
  ").

Definition text_row (line : LineStatus) : jsstring :=
  statusEmoji (status line) ++ js " " ++ lineName line ++ js "（"
    ++ operator line ++ js "）: " ++ message line.

Definition textBody (result : CheckResult) : jsstring :=
  join nl (map text_row (lines result)).

Definition transporter (email : EmailConfig) : Transport := {|
  host := smtpHost email;
  port := smtpPort email;
  secure := match smtpPort email with Some 465%Z => true | _ => false end;
  auth_user := smtpUser email;
  auth_pass := smtpPass email
|}.

Definition mail_of (email : EmailConfig) (result : CheckResult) : MailOptions := {|
  mail_from := from email;
  mail_to := to email;
  mail_subject := subject_of result;
  mail_text := textBody result;
  mail_html := htmlBody result
|}.

(** [await transporter.sendMail(mail)]: the call is recorded, and it
    resolves or rejects as the transport does at this call. *)
Definition sendMail (t : Transport) (mail : MailOptions) : Eff Event unit :=
  fun tr => (tr ++ [SendMail t mail], sendMail_outcome w (sends tr) mail).

Definition is_empty (s : jsstring) : bool :=
  match s with [] => true | _ :: _ => false end.

Definition sendEmail (result : CheckResult) : Eff Event unit :=
  let email := CONFIG_email (env w) in
  if is_empty (to email) || is_empty (smtpUser email) || is_empty (smtpPass email)
  then console_log (js "⚠️ メール設定が不完全です。環境変数を確認してください。")
  else
    (sendMail (transporter email) (mail_of email result) ;;
     console_log (js "📧 メール送信完了: " ++ to email))%eff.

(** *** Main *)

Definition banner : jsstring := js "========================================".

Definition print_line (line : LineStatus) : Eff Event unit :=
  let emoji := if status_eqb (status line) normal then js "✅"
               else if status_eqb (status line) delayed then js "⚠️"
               else if status_eqb (status line) suspended then js "🚫"
               else js "❓" in
  (console_log (emoji ++ js " " ++ lineName line ++ js "（" ++ operator line ++ js "）") ;;
   console_log (js "   " ++ message line ++ nl))%eff.

Definition main : Eff Event unit :=
  (console_log banner ;;
   console_log (js "🚃 電車遅延チェッカー") ;;
   console_log (js "📅 " ++ start_time_text w) ;;
   console_log (banner ++ nl) ;;
   result <- checkAllLines ;;
   for_of (lines result) print_line ;;
   (if hasDelay result
    then (console_log (js "🔔 遅延を検出！メールを送信します...") ;;
          sendEmail result)
    else console_log (js "✨ 遅延なし。メールは送信しません。")) ;;
   console_log (nl ++ banner) ;;
   console_log (js "完了") ;;
   console_log banner)%eff.

(** [main().catch(console.error)] *)
Definition program : Eff Event unit :=
  catch main (fun error => emit (ConsoleError error)).
End Program.

End Index.
(* ================================================================= *)
(** ** check-delay.ts (cheerio and the Resend API) *)

Module CheckDelay.

Record LineConfig : Type := {
  name : jsstring;
  nameEn : jsstring;
  cfg_operator : jsstring;
  url : jsstring;
  type : jsstring
}.

(** [CONFIG.lines[0]] and [CONFIG.lines[1]] *)
Definition metro_line : LineConfig := {|
  name := js "日比谷線";
  nameEn := js "Hibiya Line";
  cfg_operator := js "東京メトロ";
  url := js "https://www.tokyometro.jp/unkou/history/hibiya.html";
  type := js "metro"
|}.

Definition jr_line : LineConfig := {|
  name := js "京葉線";
  nameEn := js "Keiyo Line";
  cfg_operator := js "JR東日本";
  url := js "https://traininfo.jreast.co.jp/train_info/line.aspx?gid=1&lineid=keiyoline";
  type := js "jr"
|}.

Record DelayInfo : Type := {
  line : jsstring;
  operator : jsstring;
  status : Status;
  message : jsstring;
  timestamp : jsstring
}.

Inductive LineKey : Type := key_hibiya | key_keiyo.

(** The body of the POST to the mail API, before [JSON.stringify]. *)
Record MailBody : Type := {
  mail_from : jsstring;
  mail_to : jsstring;
  mail_subject : jsstring;
  mail_html : jsstring
}.

Record Request : Type := {
  req_url : jsstring;
  req_method : jsstring;
  req_authorization : jsstring;
  req_content_type : jsstring;
  req_body : MailBody
}.

Inductive LogArg : Type :=
| ArgText (s : jsstring)
| ArgThrown (error : JsThrown).

Inductive Event : Type :=
| ConsoleLog (text : jsstring)
| ConsoleError (text : jsstring) (arg : option LogArg)
| HttpPost (request : Request).

(** Number of POST requests to the mail API in a trace. *)
Fixpoint sends (tr : list Event) : nat :=
  match tr with
  | [] => 0
  | HttpPost _ :: rest => S (sends rest)
  | _ :: rest => sends rest
  end.

Definition console_log (text : jsstring) : Eff Event unit := emit (ConsoleLog text).
Definition console_error (text : jsstring) (arg : option LogArg) : Eff Event unit :=
  emit (ConsoleError text arg).

Definition is_delayed (d : DelayInfo) : bool := status_eqb (status d) delayed.

Definition yahoo_lineName (lineKey : LineKey) : jsstring :=
  match lineKey with key_hibiya => js "日比谷線" | key_keiyo => js "京葉線" end.
Definition yahoo_operator (lineKey : LineKey) : jsstring :=
  match lineKey with key_hibiya => js "東京メトロ" | key_keiyo => js "JR東日本" end.

(** [/遅延|遅れ|運転見合|運休|ダイヤ乱れ/] *)
Definition yahoo_delay_words : list jsstring :=
  [js "遅延"; js "遅れ"; js "運転見合"; js "運休"; js "ダイヤ乱れ"].

Definition yahoo_isNormal (text : jsstring) : bool :=
  includes text (js "平常運転")
  || includes text (js "現在､事故･遅延に関する情報はありません").

(** *** checkMetroHibiya *)

Definition metro_delay_words : list jsstring :=
  [js "遅延"; js "遅れ"; js "運転見合"; js "折返し運転"; js "運休"].
Definition metro_normal_words : list jsstring :=
  [js "平常運転"; js "通常運転"; js "平常どおり"].

(** [/(\d+時\d+分頃.*?(?:遅延|運転見合|折返し|運休).*?)(?:\n|。)/] *)
Definition metro_delay_re : Matcher :=
  re_plus is_digit (re_lit (js "時") (re_plus is_digit (re_lit (js "分頃")
    (re_lazy_star re_dot
      (re_alt [js "遅延"; js "運転見合"; js "折返し"; js "運休"]
        (re_lazy_star re_dot close_newline_or_period)))))).

(** The [try] block of [checkMetroHibiya] after the page is loaded. *)
Definition metro_classify (statusText : jsstring) : Status * jsstring :=
  let hasDelay := re_test_any metro_delay_words statusText in
  let isNormal := re_test_any metro_normal_words statusText
                  || includes statusText (js "15分以上の遅れが発生") && negb hasDelay in
  if hasDelay then
    let delayMatch := re_search metro_delay_re statusText in
    (delayed,
     match delayMatch with
     | Some found => group1 found
     | None => js "延误详情请查看官网"
     end)
  else (normal, js "平常運転").

(** *** checkJRKeiyo *)

Definition jr_delay_words : list jsstring :=
  [js "遅延"; js "遅れ"; js "運転見合"; js "運休"; js "ダイヤ乱れ"].
Definition jr_normal_words : list jsstring :=
  [js "平常運転"; js "平常通り"; js "通常どおり"].

(** [/(.*?(?:遅延|遅れ|運転見合|運休|ダイヤ乱れ).*?)(?:\n|。)/] *)
Definition jr_delay_re : Matcher :=
  re_lazy_star re_dot (re_alt jr_delay_words
    (re_lazy_star re_dot close_newline_or_period)).

Definition jr_classify (statusText : jsstring) : Status * jsstring :=
  let hasDelay := re_test_any jr_delay_words statusText in
  let isNormal := re_test_any jr_normal_words statusText in
  if hasDelay && negb isNormal then
    let delayMatch := re_search jr_delay_re statusText in
    (delayed,
     match delayMatch with
     | Some found => substring0 200 (group1 found)
     | None => js "延误详情请查看官网"
     end)
  else (normal, js "平常運転").

(** *** checkYahooTransit *)

Definition yahoo_classify (statusArea : jsstring) : Status * jsstring :=
  let hasDelay := re_test_any yahoo_delay_words statusArea in
  let isNormal := yahoo_isNormal statusArea in
  if hasDelay && negb isNormal
  then (delayed, substring0 300 statusArea)
  else (normal, js "平常運転").

Section Checkers.
Context `{Host}.

Definition check_failed (name operator nowIso : jsstring) (error : JsThrown)
  : DelayInfo := {|
  line := name;
  operator := operator;
  status := unknown;
  message := js "检查失败: " ++ to_display error;
  timestamp := nowIso
|}.

Definition checkMetroHibiya (nowIso : jsstring) (fetched : FetchOutcome)
  : Eff Event DelayInfo :=
  let line_ := metro_line in
  catch
    (response <- lift fetched ;;
     html <- lift (text response) ;;
     let statusText := select_text (js "body") html in
     let '(status, message) := metro_classify statusText in
     ret {| line := name line_;
            operator := cfg_operator line_;
            status := status;
            message := message;
            timestamp := nowIso |})%eff
    (fun error =>
       (console_error (js "Error checking " ++ name line_ ++ js ":")
                      (Some (ArgThrown error)) ;;
        ret (check_failed (name line_) (cfg_operator line_) nowIso error))%eff).

Definition checkJRKeiyo (nowIso : jsstring) (fetched : FetchOutcome)
  : Eff Event DelayInfo :=
  let line_ := jr_line in
  catch
    (response <- lift fetched ;;
     html <- lift (text response) ;;
     let statusText := select_text (js "body") html in
     let '(status, message) := jr_classify statusText in
     ret {| line := name line_;
            operator := cfg_operator line_;
            status := status;
            message := message;
            timestamp := nowIso |})%eff
    (fun error =>
       (console_error (js "Error checking " ++ name line_ ++ js ":")
                      (Some (ArgThrown error)) ;;
        ret (check_failed (name line_) (cfg_operator line_) nowIso error))%eff).

Definition checkYahooTransit (lineKey : LineKey) (nowIso : jsstring)
           (fetched : FetchOutcome) : Completion DelayInfo :=
  let lineName := yahoo_lineName lineKey in
  let operator := yahoo_operator lineKey in
  try_catch
    (cbind fetched (fun response =>
     cbind (text response) (fun html =>
     let statusArea := or_else (select_text (js ".trouble") html)
                               (select_text (js "body") html) in
     let '(status, message) := yahoo_classify statusArea in
     Returned {| line := lineName;
                 operator := operator;
                 status := status;
                 message := message;
                 timestamp := nowIso |})))
    (fun error => Returned (check_failed lineName operator nowIso error)).
End Checkers.

(** *** sendEmail and main *)

Record ProcessEnv : Type := {
  RESEND_API_KEY : option jsstring;
  TO_EMAIL : option jsstring;
  FROM_EMAIL : option jsstring
}.

(** The inputs of one run. *)
Record World : Type := {
  env : ProcessEnv;
  hibiya_fetch : FetchOutcome;
  hibiya_time : jsstring;
  keiyo_fetch : FetchOutcome;
  keiyo_time : jsstring;
  start_time_text : jsstring;
  mail_time_text : jsstring;
  post_outcome : nat -> Request -> FetchOutcome
}.

Section Program.
Context `{Host}.
Variable w : World.

(** [await fetch('https://api.resend.com/emails', ...)]: the request is
    recorded, and the call rejects or resolves as the mail API does at
    this call. *)
Definition post (request : Request) : Eff Event Response :=
  fun tr => (tr ++ [HttpPost request], post_outcome w (sends tr) request).

Definition subject_of (delayedLines : list DelayInfo) : jsstring :=
  js "🚃 電車遅延通知: " ++ join (js ", ") (map line delayedLines).

Definition html_row (d : DelayInfo) : jsstring :=
  jsq "
        <div style=~border-left: 4px solid #e74c3c; padding-left: 16px; margin: 16px 0;~>
          <h3 style=~margin: 0;~>"
  ++ operator d
  ++ jsq " "
  ++ line d
  ++ jsq "</h3>
          <p style=~color: #333;~>"
  ++ message d
  ++ jsq "</p>
        </div>
      ".

Definition html_of (jstTime : jsstring) (delayedLines : list DelayInfo) : jsstring :=
  jsq "
    <div style=~font-family: sans-serif; max-width: 600px; margin: 0 auto;~>
      <h2 style=~color: #e74c3c;~>⚠️ 電車遅延情報</h2>
      <p style=~color: #666;~>確認時刻: "
  ++ jstTime
  ++ jsq " (JST)</p>
      
      "
  ++ join [] (map html_row delayedLines)
  ++ jsq "
      
      <hr style=~border: none; border-top: 1px solid #eee; margin: 24px 0;~>
      
      <p style=~font-size: 12px; color: #999;~>
        詳細は公式サイトをご確認ください：<br>
        <a href=~https://www.tokyometro.jp/unkou/~>東京メトロ運行情報</a> | 
        <a href=~https://traininfo.jreast.co.jp/train_info/~>JR東日本運行情報</a>
      </p>
    </div>
  ".

Definition request_of (delays : list DelayInfo) : Request :=
  let delayedLines := filter is_delayed delays in
  {| req_url := js "https://api.resend.com/emails";
     req_method := js "POST";
     req_authorization := js "Bearer " ++ or_default (RESEND_API_KEY (env w)) [];
     req_content_type := js "application/json";
     req_body := {| mail_from := or_default (FROM_EMAIL (env w)) (js "onboarding@resend.dev");
                    mail_to := or_default (TO_EMAIL (env w)) [];
                    mail_subject := subject_of delayedLines;
                    mail_html := html_of (mail_time_text w) delayedLines |} |}.

Definition sendEmail (delays : list DelayInfo) : Eff Event unit :=
  if falsy (RESEND_API_KEY (env w)) || falsy (TO_EMAIL (env w))
  then console_error (js "Missing RESEND_API_KEY or TO_EMAIL") None
  else
    let delayedLines := filter is_delayed delays in
    if (List.length delayedLines =? 0)%nat
    then console_log (js "No delays detected, skipping email")
    else
      catch
        (response <- post (request_of delays) ;;
         if ok response
         then console_log (js "Email sent successfully!")
         else (error <- lift (text response) ;;
               console_error (js "Failed to send email:") (Some (ArgText error))))%eff
        (fun error =>
           console_error (js "Error sending email:") (Some (ArgThrown error))).

Definition print_result (result : DelayInfo) : Eff Event unit :=
  let statusIcon := if status_eqb (status result) normal then js "✅"
                    else if status_eqb (status result) delayed then js "⚠️"
                    else js "❓" in
  console_log (statusIcon ++ js " " ++ operator result ++ js " " ++ line result
               ++ js ": " ++ message result).

Definition hasDelays (results : list DelayInfo) : bool := existsb is_delayed results.

(** The two checks that [main] runs under [Promise.all]. *)
Definition check_all : Completion (list DelayInfo) :=
  promise_all2 (checkYahooTransit key_hibiya (hibiya_time w) (hibiya_fetch w))
               (checkYahooTransit key_keiyo (keiyo_time w) (keiyo_fetch w)).

Definition main : Eff Event unit :=
  (console_log (js "🚃 Checking train delays...") ;;
   console_log (js "Time: " ++ start_time_text w ++ js " JST") ;;
   results <- lift check_all ;;
   console_log (nl ++ js "--- Results ---") ;;
   for_of results print_result ;;
   if hasDelays results
   then (console_log (nl ++ js "📧 Sending notification email...") ;;
         sendEmail results)
   else console_log (nl ++ js "✅ All lines running normally. No email sent."))%eff.

(** [main().catch(console.error)] *)
Definition program : Eff Event unit :=
  catch main (fun error => console_error [] (Some (ArgThrown error))).
End Program.

End CheckDelay.

(* ================================================================= *)
(** ** The Cloudflare Workers version *)

Module Worker.

(** [Env] *)
Record Env : Type := {
  RESEND_API_KEY : option jsstring;
  TO_EMAIL : option jsstring;
  FROM_EMAIL : option jsstring
}.

Record DelayInfo : Type := {
  line : jsstring;
  operator : jsstring;
  status : Status;
  message : jsstring;
  timestamp : jsstring
}.

Inductive LineKey : Type := key_hibiya | key_keiyo.

(** The body of the POST to the mail API, before [JSON.stringify]. *)
Record MailBody : Type := {
  mail_from : jsstring;
  mail_to : jsstring;
  mail_subject : jsstring;
  mail_html : jsstring
}.

Record Request : Type := {
  req_url : jsstring;
  req_method : jsstring;
  req_authorization : jsstring;
  req_content_type : jsstring;
  req_body : MailBody
}.

Inductive LogArg : Type :=
| ArgText (s : jsstring)
| ArgThrown (error : JsThrown).

Inductive Event : Type :=
| ConsoleLog (text : jsstring)
| ConsoleError (text : jsstring) (arg : option LogArg)
| HttpPost (request : Request).

(** Number of POST requests to the mail API in a trace. *)
Fixpoint sends (tr : list Event) : nat :=
  match tr with
  | [] => 0
  | HttpPost _ :: rest => S (sends rest)
  | _ :: rest => sends rest
  end.

Definition console_log (text : jsstring) : Eff Event unit := emit (ConsoleLog text).
Definition console_error (text : jsstring) (arg : option LogArg) : Eff Event unit :=
  emit (ConsoleError text arg).

Definition is_delayed (d : DelayInfo) : bool := status_eqb (status d) delayed.

Definition yahoo_lineName (lineKey : LineKey) : jsstring :=
  match lineKey with key_hibiya => js "日比谷線" | key_keiyo => js "京葉線" end.
Definition yahoo_operator (lineKey : LineKey) : jsstring :=
  match lineKey with key_hibiya => js "東京メトロ" | key_keiyo => js "JR東日本" end.

(** [/遅延|遅れ|運転見合|運休|ダイヤ乱れ/] *)
Definition yahoo_delay_words : list jsstring :=
  [js "遅延"; js "遅れ"; js "運転見合"; js "運休"; js "ダイヤ乱れ"].

Definition yahoo_isNormal (text : jsstring) : bool :=
  includes text (js "平常運転")
  || includes text (js "現在､事故･遅延に関する情報はありません").

(** *** Text extraction without cheerio *)

Definition lt_sign : char16 := 60%N.
Definition gt_sign : char16 := 62%N.
Definition space : char16 := 32%N.

(** [html.replace(/<[^>]*>/g, ' ')]: a [<] that is followed somewhere by a
    [>] opens a match that runs to the first such [>]; the scan resumes
    after it.  [in_tag] tells that a match is open. *)
Fixpoint strip_tags (in_tag : bool) (html : jsstring) : jsstring :=
  match html with
  | [] => []
  | c :: rest =>
      if in_tag then
        if (c =? gt_sign)%N then space :: strip_tags false rest
        else strip_tags true rest
      else if (c =? lt_sign)%N && existsb (N.eqb gt_sign) rest
           then strip_tags true rest
           else c :: strip_tags false rest
  end.

(** [s.replace(/\s+/g, ' ')]; [in_run] tells that the previous character
    was white space. *)
Fixpoint collapse_spaces (in_run : bool) (s : jsstring) : jsstring :=
  match s with
  | [] => []
  | c :: rest =>
      if is_space c then
        if in_run then collapse_spaces true rest
        else space :: collapse_spaces true rest
      else c :: collapse_spaces false rest
  end.

Definition textContent_of (html : jsstring) : jsstring :=
  collapse_spaces false (strip_tags false html).

(** [/(.*?(?:遅延|遅れ|運転見合|運休|ダイヤ乱れ).*?)(?:\s{2,}|$)/] *)
Definition yahoo_delay_re : Matcher :=
  re_lazy_star re_dot (re_alt yahoo_delay_words
    (re_lazy_star re_dot close_spaces_or_end)).

Definition yahoo_classify (textContent : jsstring) : Status * jsstring :=
  let hasDelay := re_test_any yahoo_delay_words textContent in
  let isNormal := yahoo_isNormal textContent in
  if hasDelay && negb isNormal then
    let delayMatch := re_search yahoo_delay_re textContent in
    (delayed,
     match delayMatch with
     | Some found => substring0 300 (group1 found)
     | None => js "延误详情请查看官网"
     end)
  else (normal, js "平常運転").

Definition check_failed (name operator nowIso : jsstring) (error : JsThrown)
  : DelayInfo := {|
  line := name;
  operator := operator;
  status := unknown;
  message := js "检查失败: " ++ to_display error;
  timestamp := nowIso
|}.

Definition checkYahooTransit (lineKey : LineKey) (nowIso : jsstring)
           (fetched : FetchOutcome) : Completion DelayInfo :=
  let lineName := yahoo_lineName lineKey in
  let operator := yahoo_operator lineKey in
  try_catch
    (cbind fetched (fun response =>
     cbind (text response) (fun html =>
     let textContent := textContent_of html in
     let '(status, message) := yahoo_classify textContent in
     Returned {| line := lineName;
                 operator := operator;
                 status := status;
                 message := message;
                 timestamp := nowIso |})))
    (fun error => Returned (check_failed lineName operator nowIso error)).

(** The inputs of one run. *)
Record World : Type := {
  hibiya_fetch : FetchOutcome;
  hibiya_time : jsstring;
  keiyo_fetch : FetchOutcome;
  keiyo_time : jsstring;
  start_time_text : jsstring;
  mail_time_text : jsstring;
  post_outcome : nat -> Request -> FetchOutcome
}.

Section Program.
Variable w : World.

(** [await fetch('https://api.resend.com/emails', ...)]: the request is
    recorded, and the call rejects or resolves as the mail API does at
    this call. *)
Definition post (request : Request) : Eff Event Response :=
  fun tr => (tr ++ [HttpPost request], post_outcome w (sends tr) request).

Definition subject_of (delayedLines : list DelayInfo) : jsstring :=
  js "🚃 電車遅延通知: " ++ join (js ", ") (map line delayedLines).

Definition html_row (d : DelayInfo) : jsstring :=
  jsq "
        <div style=~border-left: 4px solid #e74c3c; padding-left: 16px; margin: 16px 0;~>
          <h3 style=~margin: 0;~>"
  ++ operator d
  ++ jsq " "
  ++ line d
  ++ jsq "</h3>
          <p style=~color: #333;~>"
  ++ message d
  ++ jsq "</p>
        </div>
      ".

Definition html_of (jstTime : jsstring) (delayedLines : list DelayInfo) : jsstring :=
  jsq "
    <div style=~font-family: sans-serif; max-width: 600px; margin: 0 auto;~>
      <h2 style=~color: #e74c3c;~>⚠️ 電車遅延情報</h2>
      <p style=~color: #666;~>確認時刻: "
  ++ jstTime
  ++ jsq " (JST)</p>

      "
  ++ join [] (map html_row delayedLines)
  ++ jsq "

      <hr style=~border: none; border-top: 1px solid #eee; margin: 24px 0;~>

      <p style=~font-size: 12px; color: #999;~>
        詳細は公式サイトをご確認ください：<br>
        <a href=~https://www.tokyometro.jp/unkou/~>東京メトロ運行情報</a> |
        <a href=~https://traininfo.jreast.co.jp/train_info/~>JR東日本運行情報</a>
      </p>
    </div>
  ".

Definition request_of (env : Env) (delays : list DelayInfo) : Request :=
  let delayedLines := filter is_delayed delays in
  {| req_url := js "https://api.resend.com/emails";
     req_method := js "POST";
     req_authorization := js "Bearer " ++ or_default (RESEND_API_KEY env) [];
     req_content_type := js "application/json";
     req_body := {| mail_from := or_default (FROM_EMAIL env) (js "onboarding@resend.dev");
                    mail_to := or_default (TO_EMAIL env) [];
                    mail_subject := subject_of delayedLines;
                    mail_html := html_of (mail_time_text w) delayedLines |} |}.

Definition sendEmail (env : Env) (delays : list DelayInfo) : Eff Event unit :=
  if falsy (RESEND_API_KEY env) || falsy (TO_EMAIL env)
  then console_error (js "Missing RESEND_API_KEY or TO_EMAIL") None
  else
    let delayedLines := filter is_delayed delays in
    if (List.length delayedLines =? 0)%nat
    then console_log (js "No delays detected, skipping email")
    else
      catch
        (response <- post (request_of env delays) ;;
         if ok response
         then console_log (js "Email sent successfully!")
         else (error <- lift (text response) ;;
               console_error (js "Failed to send email:") (Some (ArgText error))))%eff
        (fun error =>
           console_error (js "Error sending email:") (Some (ArgThrown error))).

Definition print_result (result : DelayInfo) : Eff Event unit :=
  let statusIcon := if status_eqb (status result) normal then js "✅"
                    else if status_eqb (status result) delayed then js "⚠️"
                    else js "❓" in
  console_log (statusIcon ++ js " " ++ operator result ++ js " " ++ line result
               ++ js ": " ++ message result).

Definition hasDelays (results : list DelayInfo) : bool := existsb is_delayed results.

(** The two checks that [checkTrainDelays] runs under [Promise.all]. *)
Definition check_all : Completion (list DelayInfo) :=
  promise_all2 (checkYahooTransit key_hibiya (hibiya_time w) (hibiya_fetch w))
               (checkYahooTransit key_keiyo (keiyo_time w) (keiyo_fetch w)).

(** The [scheduled] and [fetch] handlers of the worker only call
    [checkTrainDelays]; the latter answers with the string it returns. *)
Definition checkTrainDelays (env : Env) : Eff Event jsstring :=
  (console_log (js "🚃 Checking train delays...") ;;
   console_log (js "Time: " ++ start_time_text w ++ js " JST") ;;
   results <- lift check_all ;;
   console_log (js "--- Results ---") ;;
   for_of results print_result ;;
   if hasDelays results
   then (console_log (js "📧 Sending notification email...") ;;
         sendEmail env results ;;
         ret (js "Delays detected: "
              ++ join (js ", ") (map line (filter is_delayed results))))
   else (console_log (js "✅ All lines running normally. No email sent.") ;;
         ret (js "All lines running normally")))%eff.
End Program.

End Worker.

(* ================================================================= *)
(** ** Shapes of normalized text *)

(** No two white-space characters are adjacent. *)
Fixpoint single_spaced (s : jsstring) : bool :=
  match s with
  | a :: (b :: _) as rest => negb (is_space a && is_space b) && single_spaced rest
  | _ => true
  end.

(** Every white-space character is the plain space. *)
Definition plain_spaces (s : jsstring) : bool :=
  forallb (fun c => negb (is_space c) || (c =? Worker.space)%N) s.

(** No [<] is followed, anywhere later, by a [>]. *)
Fixpoint tag_free (s : jsstring) : bool :=
  match s with
  | [] => true
  | c :: rest =>
      negb ((c =? Worker.lt_sign)%N && existsb (N.eqb Worker.gt_sign) rest)
      && tag_free rest
  end.

(** A matcher fails at every position of a text, its end included. *)
Definition FailsOn (k : Matcher) (s : jsstring) : Prop :=
  forall pre t, s = pre ++ t -> k t = None.

(** A retrieval that rejects: [fetch] rejects, or reading the body of the
    response rejects.  (The checkers of check-delay.ts and of the worker do
    not look at [response.ok].) *)
Inductive Rejects : FetchOutcome -> JsThrown -> Prop :=
| rejects_fetch (e : JsThrown) : Rejects (Thrown e) e
| rejects_body (r : Response) (e : JsThrown) :
    text r = Thrown e -> Rejects (Returned r) e.

(** A delayed line whose message is markup, as a page could supply it. *)
Definition script_delay : CheckDelay.DelayInfo := {|
  CheckDelay.line := js "京葉線";
  CheckDelay.operator := js "JR東日本";
  CheckDelay.status := delayed;
  CheckDelay.message := js "<script>alert(1)</script>";
  CheckDelay.timestamp := []
|}.

(** Results as [sendEmail] of check-delay.ts can be handed them: a
    suspended Hibiya line and a delayed Keiyo line. *)
Definition hibiya_suspended : CheckDelay.DelayInfo := {|
  CheckDelay.line := js "日比谷線";
  CheckDelay.operator := js "東京メトロ";
  CheckDelay.status := suspended;
  CheckDelay.message := js "運転を見合わせています";
  CheckDelay.timestamp := []
|}.

Definition keiyo_delayed : CheckDelay.DelayInfo := {|
  CheckDelay.line := js "京葉線";
  CheckDelay.operator := js "JR東日本";
  CheckDelay.status := delayed;
  CheckDelay.message := js "遅れ";
  CheckDelay.timestamp := []
|}.

(** The two console lines by which [main] of check-delay.ts tells which
    branch it took on [hasDelays]. *)
Definition cd_sending_line : CheckDelay.Event :=
  CheckDelay.ConsoleLog (nl ++ js "📧 Sending notification email...").

Definition cd_all_normal_line : CheckDelay.Event :=
  CheckDelay.ConsoleLog (nl ++ js "✅ All lines running normally. No email sent.").

(* ================================================================= *)
(** ** Notions used by the statements *)

Arguments js : simpl never.
Arguments jsq : simpl never.
Arguments trim : simpl never.
Arguments decimal : simpl never.

(** A string occurs in another one. *)
Definition Occurs (kw s : jsstring) : Prop :=
  exists pre post, s = pre ++ kw ++ post.

(** A retrieval that fails, with the value its checker's [catch] receives:
    [fetch] rejects (network error, timeout), the response is not a success,
    or reading its body rejects. *)
Inductive RetrievalFails : FetchOutcome -> JsThrown -> Prop :=
| fails_fetch (e : JsThrown) :
    RetrievalFails (Thrown e) e
| fails_http (r : Response) :
    ok r = false ->
    RetrievalFails (Returned r) (mkError (js "HTTP " ++ decimal (http_status r)))
| fails_body (r : Response) (e : JsThrown) :
    ok r = true -> text r = Thrown e ->
    RetrievalFails (Returned r) e.

(** [names] are the names of the lines of [ls] that satisfy [keep], in the
    order of [ls]. *)
Inductive Selected {A : Type} (keep : A -> Prop) (name : A -> jsstring)
  : list A -> list jsstring -> Prop :=
| selected_nil : Selected keep name [] []
| selected_keep (l : A) (ls : list A) (names : list jsstring) :
    keep l -> Selected keep name ls names ->
    Selected keep name (l :: ls) (name l :: names)
| selected_skip (l : A) (ls : list A) (names : list jsstring) :
    ~ keep l -> Selected keep name ls names ->
    Selected keep name (l :: ls) names.

(** A plain-text host, used to run the model on concrete pages: the body
    text of a page is the page, no element matches a class selector, and
    [parseInt] reads the default port. *)
Definition plain_host : Host := {|
  select_text := fun selector html =>
                   if is_prefix (js "body") selector then html else [];
  select_first_text := fun _ _ => [];
  parseInt := fun _ => Some 587%Z
|}.

(** A host for pages whose first [.info, .delay-info, .status] element has
    the text [info]. *)
Definition info_host (info : jsstring) : Host := {|
  select_text := fun selector html =>
                   if is_prefix (js "body") selector then html else [];
  select_first_text := fun _ _ => info;
  parseInt := fun _ => Some 587%Z
|}.

Definition page (body : jsstring) : FetchOutcome :=
  Returned {| ok := true; http_status := 200; text := Returned body |}.

(** The mails handed to the transport in a trace of index.ts, and the
    requests posted to the mail API in a trace of the other two programs. *)
Fixpoint sent_mails (tr : list Index.Event)
  : list (Index.Transport * Index.MailOptions) :=
  match tr with
  | [] => []
  | Index.SendMail t m :: rest => (t, m) :: sent_mails rest
  | _ :: rest => sent_mails rest
  end.

Fixpoint posted (tr : list CheckDelay.Event) : list CheckDelay.Request :=
  match tr with
  | [] => []
  | CheckDelay.HttpPost r :: rest => r :: posted rest
  | _ :: rest => posted rest
  end.

Fixpoint worker_posted (tr : list Worker.Event) : list Worker.Request :=
  match tr with
  | [] => []
  | Worker.HttpPost r :: rest => r :: worker_posted rest
  | _ :: rest => worker_posted rest
  end.

(** The environment of index.ts is complete when the three variables that
    [sendEmail] tests are set and not empty. *)
Definition incomplete (env : Index.ProcessEnv) : bool :=
  falsy (Index.NOTIFY_EMAIL env) || falsy (Index.SMTP_USER env)
  || falsy (Index.SMTP_PASS env).

(** The three lines that [main] of index.ts prints last. *)
Definition closing : list Index.Event :=
  [Index.ConsoleLog (nl ++ Index.banner); Index.ConsoleLog (js "完了");
   Index.ConsoleLog Index.banner].

(** What [sendEmail] of check-delay.ts and of the worker prints after its
    POST, by the outcome of the POST. *)
Definition post_report (o : FetchOutcome) : CheckDelay.Event :=
  match o with
  | Thrown e =>
      CheckDelay.ConsoleError (js "Error sending email:") (Some (CheckDelay.ArgThrown e))
  | Returned r =>
      if ok r then CheckDelay.ConsoleLog (js "Email sent successfully!")
      else match text r with
           | Returned body =>
               CheckDelay.ConsoleError (js "Failed to send email:")
                                       (Some (CheckDelay.ArgText body))
           | Thrown e =>
               CheckDelay.ConsoleError (js "Error sending email:")
                                       (Some (CheckDelay.ArgThrown e))
           end
  end.

Definition worker_post_report (o : FetchOutcome) : Worker.Event :=
  match o with
  | Thrown e =>
      Worker.ConsoleError (js "Error sending email:") (Some (Worker.ArgThrown e))
  | Returned r =>
      if ok r then Worker.ConsoleLog (js "Email sent successfully!")
      else match text r with
           | Returned body =>
               Worker.ConsoleError (js "Failed to send email:") (Some (Worker.ArgText body))
           | Thrown e =>
               Worker.ConsoleError (js "Error sending email:") (Some (Worker.ArgThrown e))
           end
  end.

(** A POST to the mail API that fails: the call rejects, or the response
    is not a success. *)
Definition post_fails (o : FetchOutcome) : Prop :=
  match o with
  | Thrown _ => True
  | Returned r => ok r = false
  end.

(** *** Concrete runs *)

Definition delay_page : FetchOutcome :=
  page (js "京葉線は強風の影響で、一部列車に遅れが出ています").
Definition normal_page : FetchOutcome := page (js "平常運転").

Definition complete_env : Index.ProcessEnv := {|
  Index.NOTIFY_EMAIL := Some (js "me@example.com");
  Index.SMTP_USER := Some (js "user@example.com");
  Index.SMTP_HOST := None;
  Index.SMTP_PORT := None;
  Index.SMTP_PASS := Some (js "secret")
|}.

Definition empty_env : Index.ProcessEnv := {|
  Index.NOTIFY_EMAIL := None;
  Index.SMTP_USER := None;
  Index.SMTP_HOST := None;
  Index.SMTP_PORT := None;
  Index.SMTP_PASS := None
|}.

Definition boom : JsThrown := mkError (js "connect ECONNREFUSED").

(** A run of index.ts with a delay on the Keiyo line: [env] is the
    environment and [outcome] what the mail transport does. *)
Definition delay_run (env : Index.ProcessEnv) (outcome : Completion unit)
  : Index.World := {|
  Index.env := env;
  Index.keiyo_fetch := delay_page;
  Index.keiyo_time := 0%Z;
  Index.hibiya_fetch := normal_page;
  Index.hibiya_time := 0%Z;
  Index.start_time_text := js "2024/1/15 18:20:00";
  Index.mail_time_text := js "2024/1/15 18:20:01";
  Index.sendMail_outcome := fun _ _ => outcome
|}.

Definition cd_env : CheckDelay.ProcessEnv := {|
  CheckDelay.RESEND_API_KEY := Some (js "re_123");
  CheckDelay.TO_EMAIL := Some (js "me@example.com");
  CheckDelay.FROM_EMAIL := None
|}.

Definition cd_no_env : CheckDelay.ProcessEnv := {|
  CheckDelay.RESEND_API_KEY := None;
  CheckDelay.TO_EMAIL := None;
  CheckDelay.FROM_EMAIL := None
|}.

(** A run of check-delay.ts with a delay on the Keiyo line. *)
Definition cd_delay_run (env : CheckDelay.ProcessEnv) (outcome : FetchOutcome)
  : CheckDelay.World := {|
  CheckDelay.env := env;
  CheckDelay.hibiya_fetch := normal_page;
  CheckDelay.hibiya_time := js "2024-01-15T09:20:00.000Z";
  CheckDelay.keiyo_fetch := delay_page;
  CheckDelay.keiyo_time := js "2024-01-15T09:20:00.000Z";
  CheckDelay.start_time_text := js "2024/1/15 18:20:00";
  CheckDelay.mail_time_text := js "2024/1/15 18:20:01";
  CheckDelay.post_outcome := fun _ _ => outcome
|}.

(* ================================================================= *)
(** ** Strings *)

Lemma is_prefix_spec (p s : jsstring) :
  is_prefix p s = true <-> exists post, s = p ++ post.
Proof.
  revert s; induction p as [|c p IH]; intros s; simpl.
  - split; [intros _; now exists s | reflexivity].
  - destruct s as [|d s].
    + split; [discriminate | intros [post E]; discriminate].
    + rewrite andb_true_iff, N.eqb_eq, IH. split.
      * intros [-> [post ->]]. now exists post.
      * intros [post E]. injection E as -> ->. split; [reflexivity | now exists post].
Qed.

Lemma includes_spec (s kw : jsstring) :
  includes s kw = true <-> Occurs kw s.
Proof.
  unfold Occurs. induction s as [|c s IH].
  - simpl. rewrite orb_false_r, is_prefix_spec. split.
    + intros [post E]. exists [], post. exact E.
    + intros [pre [post E]]. destruct pre; [now exists post | discriminate].
  - cbn [includes]. rewrite orb_true_iff, IH, is_prefix_spec. split.
    + intros [[post E] | [pre [post E]]].
      * exists [], post. exact E.
      * exists (c :: pre), post. simpl. now rewrite E.
    + intros [pre [post E]]. destruct pre as [|d pre].
      * left. now exists post.
      * right. injection E as _ E. now exists pre, post.
Qed.

Lemma includes_app_l (s a b : jsstring) :
  includes s (a ++ b) = true -> includes s a = true.
Proof.
  rewrite !includes_spec. intros [pre [post E]].
  exists pre, (b ++ post). now rewrite E, <- app_assoc.
Qed.

Lemma includes_self_app (pre kw post : jsstring) :
  includes (pre ++ kw ++ post) kw = true.
Proof. apply includes_spec. now exists pre, post. Qed.

Lemma existsb_includes_cons (c : char16) (s : jsstring) (kws : list jsstring) :
  existsb (includes (c :: s)) kws
  = existsb (fun kw => is_prefix kw (c :: s)) kws || existsb (includes s) kws.
Proof.
  induction kws as [|kw kws IH]; [reflexivity|].
  cbn [existsb]. rewrite IH. cbn [includes].
  destruct (is_prefix kw (c :: s)), (includes s kw),
    (existsb (fun kw0 => is_prefix kw0 (c :: s)) kws), (existsb (includes s) kws);
    reflexivity.
Qed.

Lemma re_alt_some (kws : list jsstring) (s : jsstring) :
  (if existsb (fun kw => is_prefix kw s) kws then
     exists r, re_alt kws (fun r => Some r) s = Some r
   else re_alt kws (fun r => Some r) s = None).
Proof.
  induction kws as [|kw kws IH]; [reflexivity|].
  cbn [existsb re_alt]. unfold re_lit.
  destruct (is_prefix kw s); cbn [orb].
  - eexists; reflexivity.
  - exact IH.
Qed.

(** A test against an alternative of literals is a search for one of them. *)
Lemma re_test_any_includes (kws : list jsstring) (s : jsstring) :
  re_test_any kws s = existsb (includes s) kws.
Proof.
  unfold re_test_any. induction s as [|c s IH].
  - cbn [re_search]. pose proof (re_alt_some kws []) as Ha.
    assert (E : existsb (includes []) kws = existsb (fun kw => is_prefix kw []) kws).
    { clear Ha. induction kws as [|kw kws IHk]; [reflexivity|].
      cbn [existsb]. rewrite IHk. cbn [includes]. now rewrite orb_false_r. }
    rewrite E. destruct (existsb (fun kw => is_prefix kw []) kws).
    + destruct Ha as [r ->]. reflexivity.
    + rewrite Ha. reflexivity.
  - cbn [re_search]. rewrite existsb_includes_cons.
    pose proof (re_alt_some kws (c :: s)) as Ha.
    destruct (existsb (fun kw => is_prefix kw (c :: s)) kws).
    + destruct Ha as [r ->]. reflexivity.
    + rewrite Ha. cbn [orb]. exact IH.
Qed.

Lemma substring0_length (n : nat) (s : jsstring) :
  List.length (substring0 n s) <= n.
Proof. unfold substring0. rewrite length_firstn. lia. Qed.

(* ================================================================= *)
(** ** The model on concrete inputs *)

Example js_literal : js "遅延" = [36933%N; 24310%N].
Proof. reflexivity. Qed.

Example js_surrogate_pair : js "🚃" = [55357%N; 56963%N].
Proof. reflexivity. Qed.

Example includes_example :
  includes (js "一部列車に遅れが出ています") (js "遅れ") = true
  /\ includes (js "一部列車に遅れが出ています") (js "遅延") = false.
Proof. split; reflexivity. Qed.

Example keiyo_delay_example :
  Index.keiyo_classify (js "京葉線 強風の影響で、一部列車に遅れが出ています") []
  = (delayed, js "遅れが発生しています").
Proof. vm_compute. reflexivity. Qed.

Example keiyo_info_example :
  Index.keiyo_classify (js "京葉線 運休") (js "  京葉線は運休しています  ")
  = (suspended, js "京葉線は運休しています").
Proof. vm_compute. reflexivity. Qed.

Example hibiya_silence_example :
  Index.hibiya_classify (js "日比谷線の運行情報") = (normal, js "運行情報なし（15分以上の遅延なし）").
Proof. vm_compute. reflexivity. Qed.

Example http_error_example :
  @Index.checkHibiyaLine plain_host 7%Z
    (Returned {| ok := false; http_status := 404; text := Returned (js "遅延") |})
  = Returned {| Index.lineName := js "日比谷線"; Index.operator := js "東京メトロ";
                Index.status := unknown; Index.message := js "チェック失敗: HTTP 404";
                Index.timestamp := 7%Z |}.
Proof. vm_compute. reflexivity. Qed.

(** The fragment that [checkJRKeiyo] extracts: a match cannot cross the
    line break, and ends before the first full stop after the keyword. *)
Example jr_fragment_example :
  CheckDelay.jr_classify (js "京葉線
強風の影響で、一部列車に遅れが出ています。詳細は駅係員まで。")
  = (delayed, js "強風の影響で、一部列車に遅れが出ています").
Proof. vm_compute. reflexivity. Qed.

(** [\d+] gives back digits: the time is matched although the greedy
    repetition first takes both digits of the minutes. *)
Example metro_fragment_example :
  CheckDelay.metro_classify (js "日比谷線 18時05分頃、人身事故のため運転見合わせ。")
  = (delayed, js "18時05分頃、人身事故のため運転見合わせ").
Proof. vm_compute. reflexivity. Qed.

Example metro_no_time_example :
  CheckDelay.metro_classify (js "人身事故のため遅延しています。")
  = (delayed, js "延误详情请查看官网").
Proof. vm_compute. reflexivity. Qed.

(** The Yahoo page for a line without trouble mentions 遅延 in its normal
    notice; the test on [isNormal] keeps it normal. *)
Example yahoo_normal_notice_example :
  existsb (includes (js "現在､事故･遅延に関する情報はありません")) CheckDelay.yahoo_delay_words
  = true
  /\ CheckDelay.yahoo_classify (js "現在､事故･遅延に関する情報はありません")
     = (normal, js "平常運転").
Proof. split; vm_compute; reflexivity. Qed.

(** Tags become spaces and runs of white space collapse; a [<] in the text
    opens a match that runs to the next [>]. *)
Example worker_text_example :
  Worker.textContent_of (jsq "<div class=~trouble~>京葉線
   <b>遅れ</b>  a < b</div> c > d < e")
  = js " 京葉線 遅れ a c > d < e".
Proof. vm_compute. reflexivity. Qed.

Example worker_classify_example :
  Worker.yahoo_classify (Worker.textContent_of (jsq "<p>強風の影響で、遅れが出ています。</p>"))
  = (delayed, js " 強風の影響で、遅れが出ています。 ").
Proof. vm_compute. reflexivity. Qed.

(** A whole run of index.ts: the Keiyo page reports a delay, the Hibiya
    page is normal; one mail, whose subject names the Keiyo line. *)
Example index_run_example :
  map (fun tm => Index.mail_subject (snd tm))
      (sent_mails (fst (run (@Index.program plain_host
                               (delay_run complete_env (Returned tt))))))
  = [js "🚃 電車遅延アラート: 京葉線"]
  /\ snd (run (@Index.program plain_host (delay_run complete_env (Returned tt))))
     = Returned tt.
Proof. split; vm_compute; reflexivity. Qed.

(** One retrieval throws, the other page is normal: unknown and normal,
    and no mail. *)
Example index_isolation_example :
  snd (run (@Index.checkAllLines plain_host
              {| Index.env := complete_env;
                 Index.keiyo_fetch := Thrown boom; Index.keiyo_time := 1%Z;
                 Index.hibiya_fetch := normal_page; Index.hibiya_time := 2%Z;
                 Index.start_time_text := []; Index.mail_time_text := [];
                 Index.sendMail_outcome := fun _ _ => Returned tt |}))
  = Returned
      {| Index.hasDelay := false;
         Index.lines :=
           [{| Index.lineName := js "京葉線"; Index.operator := js "JR東日本";
               Index.status := unknown;
               Index.message := js "チェック失敗: connect ECONNREFUSED";
               Index.timestamp := 1%Z |};
            {| Index.lineName := js "日比谷線"; Index.operator := js "東京メトロ";
               Index.status := normal; Index.message := js "平常運転";
               Index.timestamp := 2%Z |}] |}.
Proof. vm_compute. reflexivity. Qed.

Example check_delay_run_example :
  map (fun r => CheckDelay.mail_subject (CheckDelay.req_body r))
      (posted (fst (run (@CheckDelay.program plain_host
                          (cd_delay_run cd_env (page (js "{}")))))))
  = [js "🚃 電車遅延通知: 京葉線"].
Proof. vm_compute. reflexivity. Qed.

(* ================================================================= *)
(** ** The keyword loops of index.ts *)

Lemma severity_cases (kw : jsstring) :
  Index.severity kw = delayed \/ Index.severity kw = suspended.
Proof. unfold Index.severity. destruct (_ || _); auto. Qed.

Lemma severity_not_unknown (kw : jsstring) :
  status_eqb (Index.severity kw) unknown = false.
Proof. destruct (severity_cases kw) as [-> | ->]; reflexivity. Qed.

(** The delay loop stops at the first keyword, in list order, that occurs
    in the text. *)
Lemma delay_loop_find (text : jsstring) (f : jsstring -> jsstring)
      (kws : list jsstring) (st : Status * jsstring) :
  Index.delay_loop text f kws st
  = match find (includes text) kws with
    | Some kw => (Index.severity kw, f kw)
    | None => st
    end.
Proof.
  induction kws as [|kw kws IH]; [reflexivity|].
  cbn [Index.delay_loop find]. destruct (includes text kw); [reflexivity | exact IH].
Qed.

Lemma normal_loop_existsb (text : jsstring) (kws : list jsstring) (st : Status * jsstring) :
  Index.normal_loop text kws st
  = if existsb (includes text) kws then (normal, js "平常運転") else st.
Proof.
  induction kws as [|kw kws IH]; [reflexivity|].
  cbn [Index.normal_loop existsb]. destruct (includes text kw); [reflexivity | exact IH].
Qed.

Lemma find_of_existsb {A} (p : A -> bool) (l : list A) :
  existsb p l = true -> exists x, find p l = Some x /\ In x l /\ p x = true.
Proof.
  induction l as [|a l IH]; [discriminate|].
  cbn [existsb find]. destruct (p a) eqn:E.
  - intros _. exists a. repeat split; [now left | exact E].
  - intros Hl. destruct (IH Hl) as [x [F [I P]]]. exists x. repeat split; [exact F | now right | exact P].
Qed.

Lemma find_none_of_existsb {A} (p : A -> bool) (l : list A) :
  existsb p l = false -> find p l = None.
Proof.
  induction l as [|a l IH]; [reflexivity|].
  cbn [existsb find]. destruct (p a); [discriminate | exact IH].
Qed.

Lemma keiyo_classify_hit (text info kw : jsstring) :
  find (includes text) Index.keiyo_delayKeywords = Some kw ->
  Index.keiyo_classify text info
  = (Index.severity kw, or_else (trim info) (kw ++ js "が発生しています")).
Proof.
  intros F. unfold Index.keiyo_classify. rewrite delay_loop_find, F.
  cbn [fst]. rewrite severity_not_unknown.
  cbn [fst]. rewrite severity_not_unknown. reflexivity.
Qed.

Lemma keiyo_classify_miss (text info : jsstring) :
  existsb (includes text) Index.keiyo_delayKeywords = false ->
  Index.keiyo_classify text info
  = if existsb (includes text) Index.keiyo_normalKeywords
    then (normal, js "平常運転")
    else (unknown, js "ステータス不明（ページ構造が変更された可能性）").
Proof.
  intros F. unfold Index.keiyo_classify.
  rewrite delay_loop_find, (find_none_of_existsb _ _ F).
  cbn [fst status_eqb]. rewrite normal_loop_existsb.
  destruct (existsb _ Index.keiyo_normalKeywords); reflexivity.
Qed.

Lemma hibiya_classify_hit (text kw : jsstring) :
  find (includes text) Index.hibiya_delayKeywords = Some kw ->
  Index.hibiya_classify text = (Index.severity kw, kw ++ js "が発生しています").
Proof.
  intros F. unfold Index.hibiya_classify. rewrite delay_loop_find, F.
  cbn [fst]. rewrite severity_not_unknown.
  cbn [fst]. rewrite severity_not_unknown. reflexivity.
Qed.

Lemma hibiya_classify_miss (text : jsstring) :
  existsb (includes text) Index.hibiya_delayKeywords = false ->
  Index.hibiya_classify text
  = if existsb (includes text) Index.hibiya_normalKeywords
    then (normal, js "平常運転")
    else (normal, js "運行情報なし（15分以上の遅延なし）").
Proof.
  intros F. unfold Index.hibiya_classify.
  rewrite delay_loop_find, (find_none_of_existsb _ _ F).
  cbn [fst status_eqb]. rewrite normal_loop_existsb.
  destruct (existsb _ Index.hibiya_normalKeywords); reflexivity.
Qed.

(** ** The classifiers of check-delay.ts and of the worker *)

Lemma metro_classify_status (text : jsstring) :
  fst (CheckDelay.metro_classify text)
  = if existsb (includes text) CheckDelay.metro_delay_words then delayed else normal.
Proof.
  unfold CheckDelay.metro_classify. rewrite re_test_any_includes.
  destruct (existsb _ CheckDelay.metro_delay_words); reflexivity.
Qed.

Lemma jr_classify_status (text : jsstring) :
  fst (CheckDelay.jr_classify text)
  = if existsb (includes text) CheckDelay.jr_delay_words
       && negb (existsb (includes text) CheckDelay.jr_normal_words)
    then delayed else normal.
Proof.
  unfold CheckDelay.jr_classify. rewrite !re_test_any_includes.
  destruct (_ && _); reflexivity.
Qed.

Lemma yahoo_classify_status (area : jsstring) :
  fst (CheckDelay.yahoo_classify area)
  = if existsb (includes area) CheckDelay.yahoo_delay_words
       && negb (CheckDelay.yahoo_isNormal area)
    then delayed else normal.
Proof.
  unfold CheckDelay.yahoo_classify. rewrite re_test_any_includes.
  destruct (_ && _); reflexivity.
Qed.

Lemma worker_classify_status (content : jsstring) :
  fst (Worker.yahoo_classify content)
  = if existsb (includes content) Worker.yahoo_delay_words
       && negb (Worker.yahoo_isNormal content)
    then delayed else normal.
Proof.
  unfold Worker.yahoo_classify. rewrite re_test_any_includes.
  destruct (_ && _); reflexivity.
Qed.

(* ================================================================= *)
(** ** The line checkers *)

Lemma retrieval_cases (o : FetchOutcome) :
  (exists e, RetrievalFails o e)
  \/ (exists r html, o = Returned r /\ ok r = true /\ text r = Returned html).
Proof.
  destruct o as [r | e].
  - destruct (ok r) eqn:Hok.
    + destruct (text r) as [html | e] eqn:Ht.
      * right. now exists r, html.
      * left. exists e. now apply fails_body.
    + left. eexists. now apply fails_http.
  - left. exists e. constructor.
Qed.

Section IndexCheckers.
Context {H : Host}.

Lemma checkKeiyoLine_fails (now : Index.Date) (o : FetchOutcome) (e : JsThrown) :
  RetrievalFails o e ->
  Index.checkKeiyoLine now o = Returned (Index.check_failed Index.keiyo now e).
Proof.
  intros F. unfold Index.checkKeiyoLine.
  destruct F as [e | r Hok | r e Hok Ht]; cbn [cbind try_catch].
  - reflexivity.
  - rewrite Hok. reflexivity.
  - rewrite Hok, Ht. reflexivity.
Qed.

Lemma checkHibiyaLine_fails (now : Index.Date) (o : FetchOutcome) (e : JsThrown) :
  RetrievalFails o e ->
  Index.checkHibiyaLine now o = Returned (Index.check_failed Index.hibiya now e).
Proof.
  intros F. unfold Index.checkHibiyaLine.
  destruct F as [e | r Hok | r e Hok Ht]; cbn [cbind try_catch].
  - reflexivity.
  - rewrite Hok. reflexivity.
  - rewrite Hok, Ht. reflexivity.
Qed.

Lemma checkKeiyoLine_page (now : Index.Date) (r : Response) (html : jsstring) :
  ok r = true -> text r = Returned html ->
  Index.checkKeiyoLine now (Returned r)
  = Returned {|
        Index.lineName := js "京葉線";
        Index.operator := js "JR東日本";
        Index.status :=
          fst (Index.keiyo_classify (select_text (js "body") html)
                 (select_first_text (js ".info, .delay-info, .status") html));
        Index.message :=
          snd (Index.keiyo_classify (select_text (js "body") html)
                 (select_first_text (js ".info, .delay-info, .status") html));
        Index.timestamp := now |}.
Proof.
  intros Hok Ht. unfold Index.checkKeiyoLine. cbn [cbind try_catch].
  rewrite Hok, Ht. cbn [negb throw_if cbind].
  destruct (Index.keiyo_classify _ _). reflexivity.
Qed.

Lemma checkHibiyaLine_page (now : Index.Date) (r : Response) (html : jsstring) :
  ok r = true -> text r = Returned html ->
  Index.checkHibiyaLine now (Returned r)
  = Returned {|
        Index.lineName := js "日比谷線";
        Index.operator := js "東京メトロ";
        Index.status := fst (Index.hibiya_classify (select_text (js "body") html));
        Index.message := snd (Index.hibiya_classify (select_text (js "body") html));
        Index.timestamp := now |}.
Proof.
  intros Hok Ht. unfold Index.checkHibiyaLine. cbn [cbind try_catch].
  rewrite Hok, Ht. cbn [negb throw_if cbind].
  destruct (Index.hibiya_classify _). reflexivity.
Qed.

Lemma checkKeiyoLine_returns (now : Index.Date) (o : FetchOutcome) :
  exists ls, Index.checkKeiyoLine now o = Returned ls.
Proof.
  destruct (retrieval_cases o) as [[e F] | [r [html [-> [Hok Ht]]]]].
  - eexists. exact (checkKeiyoLine_fails now F).
  - eexists. exact (checkKeiyoLine_page now r Hok Ht).
Qed.

Lemma checkHibiyaLine_returns (now : Index.Date) (o : FetchOutcome) :
  exists ls, Index.checkHibiyaLine now o = Returned ls.
Proof.
  destruct (retrieval_cases o) as [[e F] | [r [html [-> [Hok Ht]]]]].
  - eexists. exact (checkHibiyaLine_fails now F).
  - eexists. exact (checkHibiyaLine_page now r Hok Ht).
Qed.

(** The aggregate holds the results of the two checkers, in the order of
    the configuration, and the flag computed from them. *)
Lemma checkAllLines_run (w : Index.World) (k h : Index.LineStatus) (tr : list Index.Event) :
  Index.checkKeiyoLine (Index.keiyo_time w) (Index.keiyo_fetch w) = Returned k ->
  Index.checkHibiyaLine (Index.hibiya_time w) (Index.hibiya_fetch w) = Returned h ->
  Index.checkAllLines w tr
  = (tr ++ [Index.ConsoleLog (js "🚃 運行情報をチェック中...")],
     Returned {| Index.hasDelay := existsb Index.notifiable [k; h];
                 Index.lines := [k; h] |}).
Proof.
  intros Hk Hh. unfold Index.checkAllLines, bind, Index.console_log, emit, lift, ret.
  rewrite Hk, Hh. reflexivity.
Qed.

End IndexCheckers.

Lemma notifiable_spec (l : Index.LineStatus) :
  Index.notifiable l = true
  <-> Index.status l = delayed \/ Index.status l = suspended.
Proof.
  unfold Index.notifiable. destruct (Index.status l); cbn; split;
    intros; try discriminate; auto; destruct H as [H | H]; discriminate.
Qed.

Lemma yahoo_status_not_suspended {H : Host} (key : CheckDelay.LineKey) (now : jsstring)
      (o : FetchOutcome) :
  exists d, CheckDelay.checkYahooTransit key now o = Returned d
            /\ CheckDelay.status d <> suspended.
Proof.
  unfold CheckDelay.checkYahooTransit.
  destruct o as [r | e]; cbn [cbind try_catch].
  - destruct (text r) as [html | e]; cbn [cbind try_catch].
    + destruct (CheckDelay.yahoo_classify _) as [st msg] eqn:E.
      eexists. split; [reflexivity|]. cbn.
      pose proof (yahoo_classify_status
                    (or_else (select_text (js ".trouble") html)
                             (select_text (js "body") html))) as S.
      rewrite E in S. cbn [fst] in S. rewrite S. destruct (_ && _); discriminate.
    + eexists. split; [reflexivity | discriminate].
  - eexists. split; [reflexivity | discriminate].
Qed.

Lemma worker_status_not_suspended (key : Worker.LineKey) (now : jsstring)
      (o : FetchOutcome) :
  exists d, Worker.checkYahooTransit key now o = Returned d
            /\ Worker.status d <> suspended.
Proof.
  unfold Worker.checkYahooTransit.
  destruct o as [r | e]; cbn [cbind try_catch].
  - destruct (text r) as [html | e]; cbn [cbind try_catch].
    + destruct (Worker.yahoo_classify _) as [st msg] eqn:E.
      eexists. split; [reflexivity|]. cbn.
      pose proof (worker_classify_status (Worker.textContent_of html)) as S.
      rewrite E in S. cbn [fst] in S. rewrite S. destruct (_ && _); discriminate.
    + eexists. split; [reflexivity | discriminate].
  - eexists. split; [reflexivity | discriminate].
Qed.

(* ================================================================= *)
(** ** Traces *)

Lemma sent_mails_app (a b : list Index.Event) :
  sent_mails (a ++ b) = sent_mails a ++ sent_mails b.
Proof.
  induction a as [|e a IH]; [reflexivity|].
  destruct e; cbn [app sent_mails]; rewrite IH; reflexivity.
Qed.

Lemma sends_sent_mails (tr : list Index.Event) :
  Index.sends tr = List.length (sent_mails tr).
Proof.
  induction tr as [|e tr IH]; [reflexivity|].
  destruct e; cbn [Index.sends sent_mails List.length]; now rewrite IH.
Qed.

Lemma posted_app (a b : list CheckDelay.Event) :
  posted (a ++ b) = posted a ++ posted b.
Proof.
  induction a as [|e a IH]; [reflexivity|].
  destruct e; cbn [app posted]; rewrite IH; reflexivity.
Qed.

Lemma sends_posted (tr : list CheckDelay.Event) :
  CheckDelay.sends tr = List.length (posted tr).
Proof.
  induction tr as [|e tr IH]; [reflexivity|].
  destruct e; cbn [CheckDelay.sends posted List.length]; now rewrite IH.
Qed.

Lemma worker_posted_app (a b : list Worker.Event) :
  worker_posted (a ++ b) = worker_posted a ++ worker_posted b.
Proof.
  induction a as [|e a IH]; [reflexivity|].
  destruct e; cbn [app worker_posted]; rewrite IH; reflexivity.
Qed.

Lemma worker_sends_posted (tr : list Worker.Event) :
  Worker.sends tr = List.length (worker_posted tr).
Proof.
  induction tr as [|e tr IH]; [reflexivity|].
  destruct e; cbn [Worker.sends worker_posted List.length]; now rewrite IH.
Qed.

Lemma is_empty_or_default (v : option jsstring) :
  Index.is_empty (or_default v []) = falsy v.
Proof. destruct v as [[|c s]|]; reflexivity. Qed.

Lemma filter_nonempty {A} (p : A -> bool) (l : list A) :
  existsb p l = true -> (List.length (filter p l) =? 0)%nat = false.
Proof.
  induction l as [|a l IH]; [discriminate|].
  cbn [existsb filter]. destruct (p a); [reflexivity | exact IH].
Qed.

Section IndexProgram.
Context {H : Host}.
Variable w : Index.World.

(** [sendEmail] with an incomplete environment: one log line, no call of
    the transport. *)
Lemma sendEmail_incomplete (result : Index.CheckResult) (tr : list Index.Event) :
  incomplete (Index.env w) = true ->
  Index.sendEmail w result tr
  = (tr ++ [Index.ConsoleLog (js "⚠️ メール設定が不完全です。環境変数を確認してください。")],
     Returned tt).
Proof.
  unfold incomplete. intros Hi. unfold Index.sendEmail.
  cbn [Index.CONFIG_email Index.to Index.smtpUser Index.smtpPass].
  rewrite !is_empty_or_default, Hi. reflexivity.
Qed.

(** [sendEmail] with a complete environment: one call of the transport
    with the formatted mail; its rejection is the completion of
    [sendEmail]. *)
Lemma sendEmail_complete (result : Index.CheckResult) (tr : list Index.Event) :
  incomplete (Index.env w) = false ->
  Index.sendEmail w result tr
  = let email := Index.CONFIG_email (Index.env w) in
    let mail := Index.mail_of w email result in
    match Index.sendMail_outcome w (Index.sends tr) mail with
    | Returned _ =>
        (tr ++ [Index.SendMail (Index.transporter email) mail;
                Index.ConsoleLog (js "📧 メール送信完了: " ++ Index.to email)],
         Returned tt)
    | Thrown e => (tr ++ [Index.SendMail (Index.transporter email) mail], Thrown e)
    end.
Proof.
  unfold incomplete. intros Hi. unfold Index.sendEmail.
  cbn [Index.CONFIG_email Index.to Index.smtpUser Index.smtpPass].
  rewrite !is_empty_or_default, Hi.
  unfold bind, Index.sendMail, Index.console_log, emit. cbv zeta.
  destruct (Index.sendMail_outcome w _ _) as [[] | e].
  - rewrite <- app_assoc. reflexivity.
  - reflexivity.
Qed.

Variables k h : Index.LineStatus.
Hypothesis Hk :
  Index.checkKeiyoLine (Index.keiyo_time w) (Index.keiyo_fetch w) = Returned k.
Hypothesis Hh :
  Index.checkHibiyaLine (Index.hibiya_time w) (Index.hibiya_fetch w) = Returned h.

Let result : Index.CheckResult :=
  {| Index.hasDelay := existsb Index.notifiable [k; h]; Index.lines := [k; h] |}.

Lemma checkAllLines_result :
  snd (run (Index.checkAllLines w)) = Returned result.
Proof. unfold run. now rewrite (checkAllLines_run w [] Hk Hh). Qed.

(** A run without delay: only console output. *)
Lemma main_quiet :
  Index.hasDelay result = false ->
  exists tr, run (Index.main w) = (tr, Returned tt) /\ sent_mails tr = [].
Proof.
  cbn [Index.hasDelay result]. intros Hq. unfold run, Index.main.
  unfold bind at 1 2 3 4 5. unfold Index.console_log at 1 2 3 4. unfold emit.
  rewrite (checkAllLines_run w _ Hk Hh).
  cbn [app Index.lines Index.hasDelay for_of]. rewrite Hq.
  unfold Index.print_line, bind, Index.console_log, emit, ret. cbn [app].
  eexists. split; reflexivity.
Qed.

(** A run with a delay: console output, then [sendEmail]; the closing
    lines are printed only if [sendEmail] returns. *)
Lemma main_alert :
  Index.hasDelay result = true ->
  exists pre,
    sent_mails pre = []
    /\ run (Index.main w)
       = match Index.sendEmail w result pre with
         | (tr, Returned _) => (tr ++ closing, Returned tt)
         | (tr, Thrown e) => (tr, Thrown e)
         end.
Proof.
  cbn [Index.hasDelay result]. intros Hq. unfold run, Index.main.
  unfold bind at 1 2 3 4 5. unfold Index.console_log at 1 2 3 4. unfold emit.
  rewrite (checkAllLines_run w _ Hk Hh).
  change {| Index.hasDelay := existsb Index.notifiable [k; h]; Index.lines := [k; h] |}
    with result.
  change (Index.lines result) with [k; h].
  change (Index.hasDelay result) with (existsb Index.notifiable [k; h]).
  rewrite Hq. cbn [app for_of].
  unfold Index.print_line. unfold bind at 1 2 3 4 5 6 7 8 9.
  unfold Index.console_log at 1 2 3 4 5 6 7 8. unfold emit, ret. cbn [app].
  match goal with
  | |- context [Index.sendEmail w _ ?p] => exists p
  end.
  split; [reflexivity|].
  destruct (Index.sendEmail w _ _) as [tr' [[] | e]].
  - unfold closing. rewrite <- !app_assoc. reflexivity.
  - reflexivity.
Qed.

End IndexProgram.

Section CheckDelayProgram.
Context {H : Host}.
Variable w : CheckDelay.World.

Lemma cd_sendEmail_missing (delays : list CheckDelay.DelayInfo) (tr : list CheckDelay.Event) :
  falsy (CheckDelay.RESEND_API_KEY (CheckDelay.env w))
  || falsy (CheckDelay.TO_EMAIL (CheckDelay.env w)) = true ->
  CheckDelay.sendEmail w delays tr
  = (tr ++ [CheckDelay.ConsoleError (js "Missing RESEND_API_KEY or TO_EMAIL") None],
     Returned tt).
Proof. intros Hm. unfold CheckDelay.sendEmail. rewrite Hm. reflexivity. Qed.

Lemma cd_sendEmail_posts (delays : list CheckDelay.DelayInfo) (tr : list CheckDelay.Event) :
  falsy (CheckDelay.RESEND_API_KEY (CheckDelay.env w))
  || falsy (CheckDelay.TO_EMAIL (CheckDelay.env w)) = false ->
  existsb CheckDelay.is_delayed delays = true ->
  CheckDelay.sendEmail w delays tr
  = (tr ++ [CheckDelay.HttpPost (CheckDelay.request_of w delays);
            post_report (CheckDelay.post_outcome w (CheckDelay.sends tr)
                           (CheckDelay.request_of w delays))],
     Returned tt).
Proof.
  intros Hm Hd. unfold CheckDelay.sendEmail. rewrite Hm. cbv zeta.
  rewrite (filter_nonempty _ _ Hd).
  unfold catch, bind, CheckDelay.post, lift, CheckDelay.console_log,
    CheckDelay.console_error, emit, post_report.
  destruct (CheckDelay.post_outcome w _ _) as [r | e].
  - destruct (ok r).
    + rewrite <- app_assoc. reflexivity.
    + destruct (text r) as [body | e]; rewrite <- app_assoc; reflexivity.
  - rewrite <- app_assoc. reflexivity.
Qed.

Variables a b : CheckDelay.DelayInfo.
Hypothesis Ha :
  CheckDelay.checkYahooTransit CheckDelay.key_hibiya (CheckDelay.hibiya_time w)
    (CheckDelay.hibiya_fetch w) = Returned a.
Hypothesis Hb :
  CheckDelay.checkYahooTransit CheckDelay.key_keiyo (CheckDelay.keiyo_time w)
    (CheckDelay.keiyo_fetch w) = Returned b.

Lemma cd_check_all : CheckDelay.check_all w = Returned [a; b].
Proof. unfold CheckDelay.check_all. now rewrite Ha, Hb. Qed.

Lemma cd_main_quiet :
  CheckDelay.hasDelays [a; b] = false ->
  exists tr, run (CheckDelay.main w) = (tr, Returned tt) /\ posted tr = [].
Proof.
  intros Hq. unfold run, CheckDelay.main.
  unfold bind at 1 2 3. unfold CheckDelay.console_log at 1 2. unfold emit, lift.
  rewrite cd_check_all.
  unfold bind at 1 2. unfold CheckDelay.console_log at 1. unfold emit.
  cbn [app for_of]. rewrite Hq.
  unfold CheckDelay.print_result, bind, CheckDelay.console_log, emit, ret. cbn [app].
  eexists. split; reflexivity.
Qed.

Lemma cd_main_alert :
  CheckDelay.hasDelays [a; b] = true ->
  exists pre,
    posted pre = []
    /\ run (CheckDelay.main w) = CheckDelay.sendEmail w [a; b] pre.
Proof.
  intros Hq. unfold run, CheckDelay.main.
  unfold bind at 1 2 3. unfold CheckDelay.console_log at 1 2. unfold emit, lift.
  rewrite cd_check_all.
  unfold bind at 1 2. unfold CheckDelay.console_log at 1. unfold emit.
  cbn [app for_of]. rewrite Hq.
  unfold CheckDelay.print_result, bind, CheckDelay.console_log, emit, ret. cbn [app].
  match goal with
  | |- context [CheckDelay.sendEmail w _ ?p] => exists p
  end.
  split; reflexivity.
Qed.

End CheckDelayProgram.

Section WorkerProgram.
Variable w : Worker.World.
Variable env : Worker.Env.

Lemma wk_sendEmail_missing (delays : list Worker.DelayInfo) (tr : list Worker.Event) :
  falsy (Worker.RESEND_API_KEY env)
  || falsy (Worker.TO_EMAIL env) = true ->
  Worker.sendEmail w env delays tr
  = (tr ++ [Worker.ConsoleError (js "Missing RESEND_API_KEY or TO_EMAIL") None],
     Returned tt).
Proof. intros Hm. unfold Worker.sendEmail. rewrite Hm. reflexivity. Qed.

Lemma wk_sendEmail_posts (delays : list Worker.DelayInfo) (tr : list Worker.Event) :
  falsy (Worker.RESEND_API_KEY env)
  || falsy (Worker.TO_EMAIL env) = false ->
  existsb Worker.is_delayed delays = true ->
  Worker.sendEmail w env delays tr
  = (tr ++ [Worker.HttpPost (Worker.request_of w env delays);
            worker_post_report (Worker.post_outcome w (Worker.sends tr)
                           (Worker.request_of w env delays))],
     Returned tt).
Proof.
  intros Hm Hd. unfold Worker.sendEmail. rewrite Hm. cbv zeta.
  rewrite (filter_nonempty _ _ Hd).
  unfold catch, bind, Worker.post, lift, Worker.console_log,
    Worker.console_error, emit, worker_post_report.
  destruct (Worker.post_outcome w _ _) as [r | e].
  - destruct (ok r).
    + rewrite <- app_assoc. reflexivity.
    + destruct (text r) as [body | e]; rewrite <- app_assoc; reflexivity.
  - rewrite <- app_assoc. reflexivity.
Qed.

Variables a b : Worker.DelayInfo.
Hypothesis Ha :
  Worker.checkYahooTransit Worker.key_hibiya (Worker.hibiya_time w)
    (Worker.hibiya_fetch w) = Returned a.
Hypothesis Hb :
  Worker.checkYahooTransit Worker.key_keiyo (Worker.keiyo_time w)
    (Worker.keiyo_fetch w) = Returned b.

Lemma wk_check_all : Worker.check_all w = Returned [a; b].
Proof. unfold Worker.check_all. now rewrite Ha, Hb. Qed.

Lemma wk_main_quiet :
  Worker.hasDelays [a; b] = false ->
  exists tr,
    run (Worker.checkTrainDelays w env) = (tr, Returned (js "All lines running normally"))
    /\ worker_posted tr = [].
Proof.
  intros Hq. unfold run, Worker.checkTrainDelays.
  unfold bind at 1 2 3. unfold Worker.console_log at 1 2. unfold emit, lift.
  rewrite wk_check_all.
  unfold bind at 1 2. unfold Worker.console_log at 1. unfold emit.
  cbn [app for_of]. rewrite Hq.
  unfold Worker.print_result, bind, Worker.console_log, emit, ret. cbn [app].
  eexists. split; reflexivity.
Qed.

Lemma wk_main_alert :
  Worker.hasDelays [a; b] = true ->
  exists pre,
    worker_posted pre = []
    /\ run (Worker.checkTrainDelays w env)
       = match Worker.sendEmail w env [a; b] pre with
         | (tr, Returned _) =>
             (tr, Returned (js "Delays detected: "
                            ++ join (js ", ")
                                 (map Worker.line (filter Worker.is_delayed [a; b]))))
         | (tr, Thrown e) => (tr, Thrown e)
         end.
Proof.
  intros Hq. unfold run, Worker.checkTrainDelays.
  unfold bind at 1 2 3. unfold Worker.console_log at 1 2. unfold emit, lift.
  rewrite wk_check_all.
  unfold bind at 1 2. unfold Worker.console_log at 1. unfold emit.
  cbn [app for_of]. rewrite Hq.
  unfold Worker.print_result, bind, Worker.console_log, emit, ret. cbn [app].
  match goal with
  | |- context [Worker.sendEmail w env _ ?p] => exists p
  end.
  split; [reflexivity|].
  destruct (Worker.sendEmail w env _ _) as [tr [[] | e]]; reflexivity.
Qed.

End WorkerProgram.

(** ** Whole runs *)

(** The top-level handler of index.ts: a rejection of [main] is printed,
    and the program ends normally. *)
Lemma program_run {H : Host} (w : Index.World) :
  run (Index.program w)
  = match run (Index.main w) with
    | (tr, Returned a) => (tr, Returned a)
    | (tr, Thrown e) => (tr ++ [Index.ConsoleError e], Returned tt)
    end.
Proof. reflexivity. Qed.

Lemma checkAllLines_inv {H : Host} (w : Index.World) (result : Index.CheckResult) :
  snd (run (Index.checkAllLines w)) = Returned result ->
  exists k h,
    Index.checkKeiyoLine (Index.keiyo_time w) (Index.keiyo_fetch w) = Returned k
    /\ Index.checkHibiyaLine (Index.hibiya_time w) (Index.hibiya_fetch w) = Returned h
    /\ result = {| Index.hasDelay := existsb Index.notifiable [k; h];
                   Index.lines := [k; h] |}.
Proof.
  intros Hr.
  destruct (checkKeiyoLine_returns (Index.keiyo_time w) (Index.keiyo_fetch w)) as [k Hk].
  destruct (checkHibiyaLine_returns (Index.hibiya_time w) (Index.hibiya_fetch w)) as [h Hh].
  exists k, h. repeat split; try assumption.
  rewrite (checkAllLines_result w Hk Hh) in Hr. now injection Hr as <-.
Qed.

(** What a run of index.ts with a delay hands to the transport. *)
Lemma index_alert_run {H : Host} (w : Index.World) (result : Index.CheckResult) :
  snd (run (Index.checkAllLines w)) = Returned result ->
  Index.hasDelay result = true ->
  exists pre,
    sent_mails pre = []
    /\ run (Index.main w)
       = match Index.sendEmail w result pre with
         | (tr, Returned _) => (tr ++ closing, Returned tt)
         | (tr, Thrown e) => (tr, Thrown e)
         end.
Proof.
  intros Hr Hd. destruct (checkAllLines_inv w Hr) as [k [h [Hk [Hh ->]]]].
  exact (main_alert w Hk Hh Hd).
Qed.

Lemma index_quiet_run {H : Host} (w : Index.World) (result : Index.CheckResult) :
  snd (run (Index.checkAllLines w)) = Returned result ->
  Index.hasDelay result = false ->
  exists tr, run (Index.main w) = (tr, Returned tt) /\ sent_mails tr = [].
Proof.
  intros Hr Hd. destruct (checkAllLines_inv w Hr) as [k [h [Hk [Hh ->]]]].
  exact (main_quiet w Hk Hh Hd).
Qed.

Lemma index_unconfigured_run {H : Host} (w : Index.World) (result : Index.CheckResult) :
  snd (run (Index.checkAllLines w)) = Returned result ->
  Index.hasDelay result = true ->
  incomplete (Index.env w) = true ->
  sent_mails (fst (run (Index.program w))) = []
  /\ snd (run (Index.program w)) = Returned tt.
Proof.
  intros Hr Hd Hi. destruct (index_alert_run w Hr Hd) as [pre [Hpre Hrun]].
  rewrite program_run, Hrun, (sendEmail_incomplete w result pre Hi).
  cbn [fst snd]. rewrite !sent_mails_app, Hpre. split; reflexivity.
Qed.

Lemma cd_check_all_inv {H : Host} (w : CheckDelay.World) (results : list CheckDelay.DelayInfo) :
  CheckDelay.check_all w = Returned results ->
  exists a b,
    CheckDelay.checkYahooTransit CheckDelay.key_hibiya (CheckDelay.hibiya_time w)
      (CheckDelay.hibiya_fetch w) = Returned a
    /\ CheckDelay.checkYahooTransit CheckDelay.key_keiyo (CheckDelay.keiyo_time w)
         (CheckDelay.keiyo_fetch w) = Returned b
    /\ results = [a; b].
Proof.
  intros Hr.
  destruct (yahoo_status_not_suspended CheckDelay.key_hibiya
              (CheckDelay.hibiya_time w) (CheckDelay.hibiya_fetch w)) as [a [Ha _]].
  destruct (yahoo_status_not_suspended CheckDelay.key_keiyo
              (CheckDelay.keiyo_time w) (CheckDelay.keiyo_fetch w)) as [b [Hb _]].
  exists a, b. repeat split; try assumption.
  rewrite (cd_check_all w Ha Hb) in Hr. now injection Hr as <-.
Qed.

Lemma wk_check_all_inv (w : Worker.World) (results : list Worker.DelayInfo) :
  Worker.check_all w = Returned results ->
  exists a b,
    Worker.checkYahooTransit Worker.key_hibiya (Worker.hibiya_time w)
      (Worker.hibiya_fetch w) = Returned a
    /\ Worker.checkYahooTransit Worker.key_keiyo (Worker.keiyo_time w)
         (Worker.keiyo_fetch w) = Returned b
    /\ results = [a; b].
Proof.
  intros Hr.
  destruct (worker_status_not_suspended Worker.key_hibiya
              (Worker.hibiya_time w) (Worker.hibiya_fetch w)) as [a [Ha _]].
  destruct (worker_status_not_suspended Worker.key_keiyo
              (Worker.keiyo_time w) (Worker.keiyo_fetch w)) as [b [Hb _]].
  exists a, b. repeat split; try assumption.
  rewrite (wk_check_all w Ha Hb) in Hr. now injection Hr as <-.
Qed.

(** [main] of check-delay.ts never rejects, so its top-level handler is
    not entered. *)
Lemma cd_program_alert {H : Host} (w : CheckDelay.World) (results : list CheckDelay.DelayInfo) :
  CheckDelay.check_all w = Returned results ->
  CheckDelay.hasDelays results = true ->
  exists pre,
    posted pre = []
    /\ run (CheckDelay.main w) = CheckDelay.sendEmail w results pre
    /\ (forall tr, CheckDelay.sendEmail w results pre = (tr, Returned tt) ->
                   run (CheckDelay.program w) = (tr, Returned tt)).
Proof.
  intros Hr Hd. destruct (cd_check_all_inv w Hr) as [a [b [Ha [Hb ->]]]].
  destruct (cd_main_alert w Ha Hb Hd) as [pre [Hp Hrun]].
  exists pre. repeat split; try assumption.
  intros tr Hs. unfold run, CheckDelay.program, catch.
  unfold run in Hrun. now rewrite Hrun, Hs.
Qed.

Lemma cd_program_quiet {H : Host} (w : CheckDelay.World) (results : list CheckDelay.DelayInfo) :
  CheckDelay.check_all w = Returned results ->
  CheckDelay.hasDelays results = false ->
  posted (fst (run (CheckDelay.program w))) = [].
Proof.
  intros Hr Hd. destruct (cd_check_all_inv w Hr) as [a [b [Ha [Hb ->]]]].
  destruct (cd_main_quiet w Ha Hb Hd) as [tr [Hrun Hp]].
  unfold run, CheckDelay.program, catch. unfold run in Hrun. now rewrite Hrun.
Qed.

(* ================================================================= *)
(** ** Precedence of the keyword rules *)

(** C2 (as stated, refuted): a text that contains the disruption keyword
    遅延 and the normal keyword 平常運転 is classified normal by
    [checkJRKeiyo] of check-delay.ts, whose test is [hasDelay && !isNormal]. *)
Lemma normal_keyword_masks_disruption :
  existsb (includes (js "京葉線は平常運転です。遅延証明書はこちら"))
          CheckDelay.jr_delay_words = true
  /\ fst (CheckDelay.jr_classify (js "京葉線は平常運転です。遅延証明書はこちら")) = normal.
Proof. split; vm_compute; reflexivity. Qed.

(** C2 (amended): for every text that contains a disruption keyword, the
    classifiers of index.ts return the severity of the first keyword of the
    configured list that occurs in the text, which is delayed or suspended
    and never normal, whatever normal keywords the text contains, and
    [checkMetroHibiya] returns delayed.  In [checkJRKeiyo] and in both
    versions of [checkYahooTransit] the normal keywords win instead: such a
    text is delayed when it contains no normal keyword and normal when it
    contains one. *)
Theorem disruption_keyword_precedence :
  (forall text info : jsstring,
      existsb (includes text) Index.keiyo_delayKeywords = true ->
      exists kw, find (includes text) Index.keiyo_delayKeywords = Some kw
                 /\ fst (Index.keiyo_classify text info) = Index.severity kw
                 /\ (Index.severity kw = delayed \/ Index.severity kw = suspended))
  /\ (forall text : jsstring,
      existsb (includes text) Index.hibiya_delayKeywords = true ->
      exists kw, find (includes text) Index.hibiya_delayKeywords = Some kw
                 /\ fst (Index.hibiya_classify text) = Index.severity kw
                 /\ (Index.severity kw = delayed \/ Index.severity kw = suspended))
  /\ (forall text : jsstring,
      existsb (includes text) CheckDelay.metro_delay_words = true ->
      fst (CheckDelay.metro_classify text) = delayed)
  /\ (forall text : jsstring,
      existsb (includes text) CheckDelay.jr_delay_words = true ->
      fst (CheckDelay.jr_classify text)
      = if existsb (includes text) CheckDelay.jr_normal_words then normal else delayed)
  /\ (forall area : jsstring,
      existsb (includes area) CheckDelay.yahoo_delay_words = true ->
      fst (CheckDelay.yahoo_classify area)
      = if CheckDelay.yahoo_isNormal area then normal else delayed)
  /\ (forall content : jsstring,
      existsb (includes content) Worker.yahoo_delay_words = true ->
      fst (Worker.yahoo_classify content)
      = if Worker.yahoo_isNormal content then normal else delayed).
Proof.
  repeat split.
  - intros text info Hhit.
    destruct (find_of_existsb _ _ Hhit) as [kw [F _]].
    exists kw. rewrite (keiyo_classify_hit _ _ F).
    repeat split; [exact F | apply severity_cases].
  - intros text Hhit.
    destruct (find_of_existsb _ _ Hhit) as [kw [F _]].
    exists kw. rewrite (hibiya_classify_hit _ F).
    repeat split; [exact F | apply severity_cases].
  - intros text Hhit. now rewrite metro_classify_status, Hhit.
  - intros text Hhit. rewrite jr_classify_status, Hhit.
    destruct (existsb _ CheckDelay.jr_normal_words); reflexivity.
  - intros area Hhit. rewrite yahoo_classify_status, Hhit.
    destruct (CheckDelay.yahoo_isNormal area); reflexivity.
  - intros content Hhit. rewrite worker_classify_status, Hhit.
    destruct (Worker.yahoo_isNormal content); reflexivity.
Qed.

Lemma disruption_keyword_precedence_witness :
  existsb (includes (js "本日は平常運転の予定でしたが遅延しています"))
          Index.keiyo_delayKeywords = true
  /\ exists kw,
      find (includes (js "本日は平常運転の予定でしたが遅延しています"))
           Index.keiyo_delayKeywords = Some kw
      /\ fst (Index.keiyo_classify (js "本日は平常運転の予定でしたが遅延しています") [])
         = Index.severity kw
      /\ (Index.severity kw = delayed \/ Index.severity kw = suspended).
Proof.
  split.
  - vm_compute. reflexivity.
  - apply (proj1 disruption_keyword_precedence). vm_compute. reflexivity.
Defined.

(** C3 (as stated, refuted): a text that contains 運転見合わせ and, as
    such notices usually do, also 遅れ is classified delayed by
    [checkKeiyoLine]: 遅れ comes before 運転見合 in the keyword list and
    the first match decides. *)
Lemma suspension_text_classified_delayed :
  includes (js "強風のため運転見合わせ。一部列車に遅れが出ています") (js "運転見合わせ") = true
  /\ fst (Index.keiyo_classify (js "強風のため運転見合わせ。一部列車に遅れが出ています") [])
     = delayed.
Proof. split; vm_compute; reflexivity. Qed.

(** C3 (amended): for every text that contains 運転見合わせ (or 運転見合,
    or 運休) and contains neither 遅延 nor 遅れ, the keywords listed before
    them, both checkers of index.ts return suspended.  The checkers of
    check-delay.ts and of the worker never return suspended; for a text
    that contains 運転見合わせ, [checkMetroHibiya] returns delayed. *)
Theorem suspension_keyword_status :
  (forall text info : jsstring,
      includes text (js "運転見合わせ") = true
      \/ includes text (js "運転見合") = true
      \/ includes text (js "運休") = true ->
      includes text (js "遅延") = false ->
      includes text (js "遅れ") = false ->
      fst (Index.keiyo_classify text info) = suspended
      /\ fst (Index.hibiya_classify text) = suspended)
  /\ (forall text : jsstring,
      fst (CheckDelay.metro_classify text) <> suspended
      /\ fst (CheckDelay.jr_classify text) <> suspended
      /\ fst (CheckDelay.yahoo_classify text) <> suspended
      /\ fst (Worker.yahoo_classify text) <> suspended)
  /\ (forall text : jsstring,
      includes text (js "運転見合わせ") = true ->
      fst (CheckDelay.metro_classify text) = delayed).
Proof.
  assert (Hpre : forall text, includes text (js "運転見合わせ") = true ->
                              includes text (js "運転見合") = true).
  { intros text Hc. apply (includes_app_l text (js "運転見合") (js "わせ")).
    exact Hc. }
  assert (Hfind : forall txt kws,
             (includes txt (js "運転見合わせ") = true
              \/ includes txt (js "運転見合") = true
              \/ includes txt (js "運休") = true) ->
             includes txt (js "遅延") = false ->
             includes txt (js "遅れ") = false ->
             exists kw, find (includes txt)
                          (js "遅延" :: js "遅れ" :: js "運転見合" :: js "運休" :: kws)
                        = Some kw /\ Index.severity kw = suspended).
  { intros txt kws Hc H0 H1. cbn [find]. rewrite H0, H1.
    destruct (includes txt (js "運転見合")) eqn:Hm.
    - exists (js "運転見合"). split; reflexivity.
    - destruct Hc as [Hc | [Hc | Hc]].
      + rewrite (Hpre _ Hc) in Hm. discriminate.
      + discriminate.
      + rewrite Hc. exists (js "運休"). split; reflexivity. }
  split; [| split].
  - intros txt info Hc H0 H1. split.
    + destruct (Hfind txt [js "運転取りやめ"; js "折返し運転"] Hc H0 H1) as [kw [F S]].
      change (find (includes txt) Index.keiyo_delayKeywords = Some kw) in F.
      rewrite (keiyo_classify_hit _ _ F). exact S.
    + destruct (Hfind txt [js "折返し運転"; js "直通運転中止"] Hc H0 H1) as [kw [F S]].
      change (find (includes txt) Index.hibiya_delayKeywords = Some kw) in F.
      rewrite (hibiya_classify_hit _ F). exact S.
  - intros txt. repeat split.
    + rewrite metro_classify_status. destruct (existsb _ _); discriminate.
    + rewrite jr_classify_status. destruct (_ && _); discriminate.
    + rewrite yahoo_classify_status. destruct (_ && _); discriminate.
    + rewrite worker_classify_status. destruct (_ && _); discriminate.
  - intros txt Hc. rewrite metro_classify_status.
    unfold CheckDelay.metro_delay_words. cbn [existsb].
    rewrite (Hpre _ Hc). now rewrite !orb_true_r.
Qed.

Lemma suspension_keyword_status_witness :
  fst (Index.keiyo_classify (js "運転見合わせ") []) = suspended
  /\ fst (Index.hibiya_classify (js "運転見合わせ")) = suspended.
Proof.
  apply (proj1 suspension_keyword_status).
  - left. vm_compute. reflexivity.
  - vm_compute. reflexivity.
  - vm_compute. reflexivity.
Defined.

(** C4: for every text that contains no disruption keyword and no normal
    keyword of its source, the empty text included, the JR Keiyo checker of
    index.ts returns unknown with the message that the page structure may
    have changed, and the Tokyo Metro Hibiya checker returns normal with
    the message that no disruption information is published. *)
Theorem unmatched_text_default :
  (forall text info : jsstring,
      existsb (includes text) Index.keiyo_delayKeywords = false ->
      existsb (includes text) Index.keiyo_normalKeywords = false ->
      Index.keiyo_classify text info
      = (unknown, js "ステータス不明（ページ構造が変更された可能性）"))
  /\ (forall text : jsstring,
      existsb (includes text) Index.hibiya_delayKeywords = false ->
      existsb (includes text) Index.hibiya_normalKeywords = false ->
      Index.hibiya_classify text
      = (normal, js "運行情報なし（15分以上の遅延なし）"))
  /\ (forall info : jsstring,
      Index.keiyo_classify [] info
      = (unknown, js "ステータス不明（ページ構造が変更された可能性）"))
  /\ Index.hibiya_classify [] = (normal, js "運行情報なし（15分以上の遅延なし）").
Proof.
  split; [| split; [| split]].
  - intros text info Hd Hn. now rewrite (keiyo_classify_miss _ _ Hd), Hn.
  - intros text Hd Hn. now rewrite (hibiya_classify_miss _ Hd), Hn.
  - intros info. now rewrite keiyo_classify_miss.
  - now rewrite hibiya_classify_miss.
Qed.

Lemma unmatched_text_default_witness :
  Index.keiyo_classify (js "お知らせはありません") (js "x")
  = (unknown, js "ステータス不明（ページ構造が変更された可能性）").
Proof.
  apply (proj1 unmatched_text_default); vm_compute; reflexivity.
Defined.

(* ================================================================= *)
(** ** Isolation of retrieval failures and the aggregated flag *)

(** C5: when the retrieval of a line fails (fetch rejects, the response is
    not a success, or reading its body rejects), the checker of index.ts
    returns a LineStatus with status unknown and a message that describes
    the failure; no checker ever throws to its caller; and the aggregate
    holds, for each line, the result of that line's checker on its own
    retrieval, so the failure of one line leaves the other's LineStatus as
    it is. *)
Theorem retrieval_failure_isolated :
  forall (H : Host),
    (forall (now : Index.Date) (o : FetchOutcome) (e : JsThrown),
        RetrievalFails o e ->
        Index.checkKeiyoLine now o
        = Returned {| Index.lineName := js "京葉線";
                      Index.operator := js "JR東日本";
                      Index.status := unknown;
                      Index.message := js "チェック失敗: " ++ error_message_or_unknown e;
                      Index.timestamp := now |}
        /\ Index.checkHibiyaLine now o
           = Returned {| Index.lineName := js "日比谷線";
                         Index.operator := js "東京メトロ";
                         Index.status := unknown;
                         Index.message := js "チェック失敗: " ++ error_message_or_unknown e;
                         Index.timestamp := now |})
    /\ (forall (now : Index.Date) (o : FetchOutcome),
        (exists ls, Index.checkKeiyoLine now o = Returned ls)
        /\ (exists ls, Index.checkHibiyaLine now o = Returned ls))
    /\ (forall w : Index.World,
        exists k h,
          Index.checkKeiyoLine (Index.keiyo_time w) (Index.keiyo_fetch w) = Returned k
          /\ Index.checkHibiyaLine (Index.hibiya_time w) (Index.hibiya_fetch w) = Returned h
          /\ exists result,
              snd (run (Index.checkAllLines w)) = Returned result
              /\ Index.lines result = [k; h])
    /\ (forall (w w' : Index.World) (result result' : Index.CheckResult),
        snd (run (Index.checkAllLines w)) = Returned result ->
        snd (run (Index.checkAllLines w')) = Returned result' ->
        (Index.hibiya_fetch w = Index.hibiya_fetch w' ->
         Index.hibiya_time w = Index.hibiya_time w' ->
         nth_error (Index.lines result) 1 = nth_error (Index.lines result') 1)
        /\ (Index.keiyo_fetch w = Index.keiyo_fetch w' ->
            Index.keiyo_time w = Index.keiyo_time w' ->
            nth_error (Index.lines result) 0 = nth_error (Index.lines result') 0)).
Proof.
  intros H. split; [| split; [| split]].
  - intros now o e F. split.
    + exact (checkKeiyoLine_fails now F).
    + exact (checkHibiyaLine_fails now F).
  - intros now o. split.
    + apply checkKeiyoLine_returns.
    + apply checkHibiyaLine_returns.
  - intros w.
    destruct (checkKeiyoLine_returns (Index.keiyo_time w) (Index.keiyo_fetch w)) as [k Hk].
    destruct (checkHibiyaLine_returns (Index.hibiya_time w) (Index.hibiya_fetch w)) as [h Hh].
    exists k, h. repeat split; try assumption.
    eexists. unfold run. rewrite (checkAllLines_run w [] Hk Hh). split; reflexivity.
  - intros w w' result result' Hr Hr'.
    destruct (checkKeiyoLine_returns (Index.keiyo_time w) (Index.keiyo_fetch w)) as [k Hk].
    destruct (checkHibiyaLine_returns (Index.hibiya_time w) (Index.hibiya_fetch w)) as [h Hh].
    destruct (checkKeiyoLine_returns (Index.keiyo_time w') (Index.keiyo_fetch w')) as [k' Hk'].
    destruct (checkHibiyaLine_returns (Index.hibiya_time w') (Index.hibiya_fetch w'))
      as [h' Hh'].
    unfold run in Hr, Hr'.
    rewrite (checkAllLines_run w [] Hk Hh) in Hr.
    rewrite (checkAllLines_run w' [] Hk' Hh') in Hr'.
    cbn [snd] in Hr, Hr'. injection Hr as <-. injection Hr' as <-.
    cbn [Index.lines nth_error]. split.
    + intros Ef Et. rewrite Ef, Et in Hh. congruence.
    + intros Ef Et. rewrite Ef, Et in Hk. congruence.
Qed.

Lemma retrieval_failure_isolated_witness :
  RetrievalFails (Returned {| ok := false; http_status := 503; text := Returned [] |})
                 (mkError (js "HTTP " ++ decimal 503))
  /\ @Index.checkKeiyoLine plain_host 0%Z
       (Returned {| ok := false; http_status := 503; text := Returned [] |})
     = Returned {| Index.lineName := js "京葉線";
                   Index.operator := js "JR東日本";
                   Index.status := unknown;
                   Index.message := js "チェック失敗: HTTP 503";
                   Index.timestamp := 0%Z |}.
Proof.
  assert (F : RetrievalFails
                (Returned {| ok := false; http_status := 503; text := Returned [] |})
                (mkError (js "HTTP " ++ decimal 503))).
  { exact (@fails_http {| ok := false; http_status := 503; text := Returned [] |} eq_refl). }
  split; [exact F|].
  exact (proj1 (proj1 (retrieval_failure_isolated plain_host) 0%Z _ _ F)).
Defined.

(* ================================================================= *)
(** ** Dispatch *)

(** C6 (as stated, refuted): a run of index.ts that detects a delay, and
    whose flag is therefore true, hands nothing to the mail transport when
    the mail variables of the environment are not set. *)
Lemma delay_without_mail_settings_sends_nothing :
  exists result,
    snd (run (@Index.checkAllLines plain_host (delay_run empty_env (Returned tt))))
    = Returned result
    /\ Index.hasDelay result = true
    /\ sent_mails (fst (run (@Index.program plain_host (delay_run empty_env (Returned tt)))))
       = [].
Proof. eexists. repeat split; vm_compute; reflexivity. Qed.

(** C6 (amended): in every run whose flag is false nothing is sent.  In
    every run whose flag is true and whose mail settings are complete,
    exactly one message is sent, and it is the formatted payload of the
    aggregated result; with incomplete mail settings nothing is sent.  This
    holds for index.ts, for check-delay.ts and for the worker. *)
Theorem dispatch_zero_or_once :
  (forall (H : Host) (w : Index.World) (result : Index.CheckResult),
      snd (run (Index.checkAllLines w)) = Returned result ->
      (Index.hasDelay result = false ->
       sent_mails (fst (run (Index.program w))) = [])
      /\ (Index.hasDelay result = true -> incomplete (Index.env w) = false ->
          sent_mails (fst (run (Index.program w)))
          = [(Index.transporter (Index.CONFIG_email (Index.env w)),
              Index.mail_of w (Index.CONFIG_email (Index.env w)) result)])
      /\ (Index.hasDelay result = true -> incomplete (Index.env w) = true ->
          sent_mails (fst (run (Index.program w))) = []))
  /\ (forall (H : Host) (w : CheckDelay.World) (results : list CheckDelay.DelayInfo),
      CheckDelay.check_all w = Returned results ->
      (CheckDelay.hasDelays results = false ->
       posted (fst (run (CheckDelay.program w))) = [])
      /\ (CheckDelay.hasDelays results = true ->
          falsy (CheckDelay.RESEND_API_KEY (CheckDelay.env w))
          || falsy (CheckDelay.TO_EMAIL (CheckDelay.env w)) = false ->
          posted (fst (run (CheckDelay.program w))) = [CheckDelay.request_of w results])
      /\ (CheckDelay.hasDelays results = true ->
          falsy (CheckDelay.RESEND_API_KEY (CheckDelay.env w))
          || falsy (CheckDelay.TO_EMAIL (CheckDelay.env w)) = true ->
          posted (fst (run (CheckDelay.program w))) = []))
  /\ (forall (w : Worker.World) (env : Worker.Env) (results : list Worker.DelayInfo),
      Worker.check_all w = Returned results ->
      (Worker.hasDelays results = false ->
       worker_posted (fst (run (Worker.checkTrainDelays w env))) = [])
      /\ (Worker.hasDelays results = true ->
          falsy (Worker.RESEND_API_KEY env) || falsy (Worker.TO_EMAIL env) = false ->
          worker_posted (fst (run (Worker.checkTrainDelays w env)))
          = [Worker.request_of w env results])
      /\ (Worker.hasDelays results = true ->
          falsy (Worker.RESEND_API_KEY env) || falsy (Worker.TO_EMAIL env) = true ->
          worker_posted (fst (run (Worker.checkTrainDelays w env))) = [])).
Proof.
  split; [| split].
  - intros H w result Hr. split; [| split].
    + intros Hd. destruct (index_quiet_run w Hr Hd) as [tr [Hrun Hs]].
      now rewrite program_run, Hrun.
    + intros Hd Hc. destruct (index_alert_run w Hr Hd) as [pre [Hpre Hrun]].
      rewrite program_run, Hrun, (sendEmail_complete w result pre Hc). cbv zeta.
      destruct (Index.sendMail_outcome w _ _) as [[] | e]; cbn [fst];
        rewrite !sent_mails_app, Hpre; reflexivity.
    + intros Hd Hi. exact (proj1 (index_unconfigured_run w Hr Hd Hi)).
  - intros H w results Hr. split; [| split].
    + intros Hd. exact (cd_program_quiet w Hr Hd).
    + intros Hd Hc. destruct (cd_program_alert w Hr Hd) as [pre [Hpre [_ Hprog]]].
      rewrite (Hprog _ (cd_sendEmail_posts w results pre Hc Hd)).
      cbn [fst]. rewrite posted_app, Hpre.
      unfold post_report. cbn [app posted].
      destruct (CheckDelay.post_outcome w _ _) as [r | e]; [| reflexivity].
      destruct (ok r); [reflexivity|]. destruct (text r); reflexivity.
    + intros Hd Hm. destruct (cd_program_alert w Hr Hd) as [pre [Hpre [_ Hprog]]].
      rewrite (Hprog _ (cd_sendEmail_missing w results pre Hm)).
      cbn [fst]. now rewrite posted_app, Hpre.
  - intros w env results Hr.
    destruct (wk_check_all_inv w Hr) as [a [b [Ha [Hb ->]]]].
    split; [| split].
    + intros Hd. destruct (wk_main_quiet w env Ha Hb Hd) as [tr [Hrun Hp]].
      now rewrite Hrun.
    + intros Hd Hc. destruct (wk_main_alert w env Ha Hb Hd) as [pre [Hpre Hrun]].
      rewrite Hrun, (wk_sendEmail_posts w env [a; b] pre Hc Hd).
      cbn [fst]. rewrite worker_posted_app, Hpre.
      unfold worker_post_report. cbn [app worker_posted].
      destruct (Worker.post_outcome w _ _) as [r | e]; [| reflexivity].
      destruct (ok r); [reflexivity|]. destruct (text r); reflexivity.
    + intros Hd Hm. destruct (wk_main_alert w env Ha Hb Hd) as [pre [Hpre Hrun]].
      rewrite Hrun, (wk_sendEmail_missing w env [a; b] pre Hm).
      cbn [fst]. now rewrite worker_posted_app, Hpre.
Qed.

Lemma dispatch_zero_or_once_witness :
  exists result,
    snd (run (@Index.checkAllLines plain_host (delay_run complete_env (Returned tt))))
    = Returned result
    /\ Index.hasDelay result = true
    /\ incomplete complete_env = false
    /\ sent_mails (fst (run (@Index.program plain_host
                               (delay_run complete_env (Returned tt)))))
       = [(Index.transporter (@Index.CONFIG_email plain_host complete_env),
           Index.mail_of (delay_run complete_env (Returned tt))
             (@Index.CONFIG_email plain_host complete_env) result)].
Proof.
  eexists. split; [vm_compute; reflexivity|].
  split; [vm_compute; reflexivity|].
  split; [vm_compute; reflexivity|].
  refine (proj1 (proj2 (proj1 dispatch_zero_or_once plain_host
                          (delay_run complete_env (Returned tt)) _ _)) _ _);
    vm_compute; reflexivity.
Defined.

(** C7 (as stated, refuted): in index.ts a rejection of the mail transport
    is not caught inside [sendEmail]: it is the completion of [sendEmail]
    and of [main], whose closing lines are not printed. *)
Lemma send_failure_leaves_sendEmail :
  exists result,
    snd (run (@Index.checkAllLines plain_host (delay_run complete_env (Thrown boom))))
    = Returned result
    /\ snd (run (@Index.sendEmail plain_host (delay_run complete_env (Thrown boom)) result))
       = Thrown boom
    /\ snd (run (@Index.main plain_host (delay_run complete_env (Thrown boom))))
       = Thrown boom.
Proof. eexists. repeat split; vm_compute; reflexivity. Qed.

(** C7 (amended): a failure of the send is never retried and always
    printed.  In check-delay.ts and in the worker, [sendEmail] makes one
    POST, prints what the outcome was (an error line when the POST rejects
    or the response is not a success) and returns normally.  In index.ts
    [sendEmail] has no handler: a rejection of the transport, after one
    call, is the completion of [sendEmail] and of [main]; the handler at top
    level prints it and the program ends normally. *)
Theorem send_failure_logged_once :
  (forall (w : CheckDelay.World) (delays : list CheckDelay.DelayInfo)
          (tr : list CheckDelay.Event),
      falsy (CheckDelay.RESEND_API_KEY (CheckDelay.env w))
      || falsy (CheckDelay.TO_EMAIL (CheckDelay.env w)) = false ->
      existsb CheckDelay.is_delayed delays = true ->
      CheckDelay.sendEmail w delays tr
      = (tr ++ [CheckDelay.HttpPost (CheckDelay.request_of w delays);
                post_report (CheckDelay.post_outcome w (CheckDelay.sends tr)
                               (CheckDelay.request_of w delays))],
         Returned tt)
      /\ (post_fails (CheckDelay.post_outcome w (CheckDelay.sends tr)
                        (CheckDelay.request_of w delays)) ->
          exists line arg,
            post_report (CheckDelay.post_outcome w (CheckDelay.sends tr)
                           (CheckDelay.request_of w delays))
            = CheckDelay.ConsoleError line arg))
  /\ (forall (w : Worker.World) (env : Worker.Env) (delays : list Worker.DelayInfo)
             (tr : list Worker.Event),
      falsy (Worker.RESEND_API_KEY env) || falsy (Worker.TO_EMAIL env) = false ->
      existsb Worker.is_delayed delays = true ->
      Worker.sendEmail w env delays tr
      = (tr ++ [Worker.HttpPost (Worker.request_of w env delays);
                worker_post_report (Worker.post_outcome w (Worker.sends tr)
                                      (Worker.request_of w env delays))],
         Returned tt)
      /\ (post_fails (Worker.post_outcome w (Worker.sends tr)
                        (Worker.request_of w env delays)) ->
          exists line arg,
            worker_post_report (Worker.post_outcome w (Worker.sends tr)
                                  (Worker.request_of w env delays))
            = Worker.ConsoleError line arg))
  /\ (forall (H : Host) (w : Index.World) (result : Index.CheckResult) (e : JsThrown),
      snd (run (Index.checkAllLines w)) = Returned result ->
      Index.hasDelay result = true ->
      incomplete (Index.env w) = false ->
      Index.sendMail_outcome w 0
        (Index.mail_of w (Index.CONFIG_email (Index.env w)) result) = Thrown e ->
      exists pre,
        sent_mails pre = []
        /\ Index.sendEmail w result pre
           = (pre ++ [Index.SendMail (Index.transporter (Index.CONFIG_email (Index.env w)))
                        (Index.mail_of w (Index.CONFIG_email (Index.env w)) result)],
              Thrown e)
        /\ snd (run (Index.main w)) = Thrown e
        /\ run (Index.program w)
           = (pre ++ [Index.SendMail (Index.transporter (Index.CONFIG_email (Index.env w)))
                        (Index.mail_of w (Index.CONFIG_email (Index.env w)) result);
                      Index.ConsoleError e],
              Returned tt)).
Proof.
  split; [| split].
  - intros w delays tr Hc Hd. split; [exact (cd_sendEmail_posts w delays tr Hc Hd)|].
    unfold post_fails, post_report.
    destruct (CheckDelay.post_outcome w _ _) as [r | e].
    + intros ->. destruct (text r); eexists; eexists; reflexivity.
    + intros _. eexists; eexists; reflexivity.
  - intros w env delays tr Hc Hd.
    split; [exact (wk_sendEmail_posts w env delays tr Hc Hd)|].
    unfold post_fails, worker_post_report.
    destruct (Worker.post_outcome w _ _) as [r | e].
    + intros ->. destruct (text r); eexists; eexists; reflexivity.
    + intros _. eexists; eexists; reflexivity.
  - intros H w result e Hr Hd Hc He.
    destruct (index_alert_run w Hr Hd) as [pre [Hpre Hrun]].
    exists pre.
    assert (Hs : Index.sendEmail w result pre
                 = (pre ++ [Index.SendMail
                              (Index.transporter (Index.CONFIG_email (Index.env w)))
                              (Index.mail_of w (Index.CONFIG_email (Index.env w)) result)],
                    Thrown e)).
    { rewrite (sendEmail_complete w result pre Hc). cbv zeta.
      rewrite sends_sent_mails, Hpre. cbn [List.length]. now rewrite He. }
    repeat split; try assumption.
    + now rewrite Hrun, Hs.
    + rewrite program_run, Hrun, Hs. now rewrite <- app_assoc.
Qed.

Lemma send_failure_logged_once_witness :
  CheckDelay.sendEmail (cd_delay_run cd_env (Thrown boom))
    [{| CheckDelay.line := js "京葉線"; CheckDelay.operator := js "JR東日本";
        CheckDelay.status := delayed; CheckDelay.message := js "遅れ";
        CheckDelay.timestamp := [] |}] []
  = ([CheckDelay.HttpPost
        (CheckDelay.request_of (cd_delay_run cd_env (Thrown boom))
           [{| CheckDelay.line := js "京葉線"; CheckDelay.operator := js "JR東日本";
               CheckDelay.status := delayed; CheckDelay.message := js "遅れ";
               CheckDelay.timestamp := [] |}]);
      CheckDelay.ConsoleError (js "Error sending email:")
        (Some (CheckDelay.ArgThrown boom))],
     Returned tt).
Proof.
  refine (proj1 (proj1 send_failure_logged_once
                   (cd_delay_run cd_env (Thrown boom)) _ [] _ _));
    vm_compute; reflexivity.
Defined.

(** C10: when the mail settings are incomplete (the recipient, the SMTP
    user or the SMTP password of index.ts, the API key or the recipient of
    check-delay.ts and of the worker, unset or empty), [sendEmail] prints a
    line and returns without a call of the transport or a POST; so a run of
    index.ts that detects a delay then sends nothing, and ends normally. *)
Theorem incomplete_settings_send_nothing :
  (forall (H : Host) (w : Index.World) (result : Index.CheckResult)
          (tr : list Index.Event),
      incomplete (Index.env w) = true ->
      Index.sendEmail w result tr
      = (tr ++ [Index.ConsoleLog
                  (js "⚠️ メール設定が不完全です。環境変数を確認してください。")],
         Returned tt)
      /\ sent_mails (fst (Index.sendEmail w result tr)) = sent_mails tr)
  /\ (forall (H : Host) (w : Index.World) (result : Index.CheckResult),
      snd (run (Index.checkAllLines w)) = Returned result ->
      Index.hasDelay result = true ->
      incomplete (Index.env w) = true ->
      sent_mails (fst (run (Index.program w))) = []
      /\ snd (run (Index.program w)) = Returned tt)
  /\ (forall (w : CheckDelay.World) (delays : list CheckDelay.DelayInfo)
             (tr : list CheckDelay.Event),
      falsy (CheckDelay.RESEND_API_KEY (CheckDelay.env w))
      || falsy (CheckDelay.TO_EMAIL (CheckDelay.env w)) = true ->
      CheckDelay.sendEmail w delays tr
      = (tr ++ [CheckDelay.ConsoleError (js "Missing RESEND_API_KEY or TO_EMAIL") None],
         Returned tt)
      /\ posted (fst (CheckDelay.sendEmail w delays tr)) = posted tr)
  /\ (forall (w : Worker.World) (env : Worker.Env) (delays : list Worker.DelayInfo)
             (tr : list Worker.Event),
      falsy (Worker.RESEND_API_KEY env) || falsy (Worker.TO_EMAIL env) = true ->
      Worker.sendEmail w env delays tr
      = (tr ++ [Worker.ConsoleError (js "Missing RESEND_API_KEY or TO_EMAIL") None],
         Returned tt)
      /\ worker_posted (fst (Worker.sendEmail w env delays tr)) = worker_posted tr).
Proof.
  split; [| split; [| split]].
  - intros H w result tr Hi. rewrite (sendEmail_incomplete w result tr Hi).
    split; [reflexivity|]. cbn [fst]. rewrite sent_mails_app. apply app_nil_r.
  - intros H w result Hr Hd Hi. exact (index_unconfigured_run w Hr Hd Hi).
  - intros w delays tr Hm. rewrite (cd_sendEmail_missing w delays tr Hm).
    split; [reflexivity|]. cbn [fst]. rewrite posted_app. apply app_nil_r.
  - intros w env delays tr Hm. rewrite (wk_sendEmail_missing w env delays tr Hm).
    split; [reflexivity|]. cbn [fst]. rewrite worker_posted_app. apply app_nil_r.
Qed.

Lemma incomplete_settings_send_nothing_witness :
  exists result,
    snd (run (@Index.checkAllLines plain_host (delay_run empty_env (Returned tt))))
    = Returned result
    /\ Index.hasDelay result = true
    /\ incomplete empty_env = true
    /\ sent_mails (fst (run (@Index.program plain_host (delay_run empty_env (Returned tt)))))
       = []
    /\ snd (run (@Index.program plain_host (delay_run empty_env (Returned tt))))
       = Returned tt.
Proof.
  eexists. split; [vm_compute; reflexivity|].
  split; [vm_compute; reflexivity|].
  split; [vm_compute; reflexivity|].
  refine (proj1 (proj2 incomplete_settings_send_nothing) plain_host
            (delay_run empty_env (Returned tt)) _ _ _ _);
    vm_compute; reflexivity.
Defined.

(* ================================================================= *)
(** ** The subject of the notification *)

Lemma selected_filter {A : Type} (p : A -> bool) (keep : A -> Prop) (name : A -> jsstring) :
  (forall a, p a = true <-> keep a) ->
  forall ls, Selected keep name ls (map name (filter p ls)).
Proof.
  intros Hp ls. induction ls as [|l ls IH]; cbn [filter map].
  - constructor.
  - destruct (p l) eqn:E; cbn [map].
    + apply selected_keep; [now apply Hp | exact IH].
    + apply selected_skip; [| exact IH].
      intros K. apply Hp in K. congruence.
Qed.

Lemma checker_line_names {H : Host} (now1 now2 : Index.Date) (o1 o2 : FetchOutcome)
      (k h : Index.LineStatus) :
  Index.checkKeiyoLine now1 o1 = Returned k ->
  Index.checkHibiyaLine now2 o2 = Returned h ->
  Index.lineName k = js "京葉線" /\ Index.lineName h = js "日比谷線".
Proof.
  intros Hk Hh. split.
  - destruct (retrieval_cases o1) as [[e F] | [r [html [-> [Hok Ht]]]]].
    + rewrite (checkKeiyoLine_fails now1 F) in Hk. now injection Hk as <-.
    + rewrite (checkKeiyoLine_page now1 r Hok Ht) in Hk. now injection Hk as <-.
  - destruct (retrieval_cases o2) as [[e F] | [r [html [-> [Hok Ht]]]]].
    + rewrite (checkHibiyaLine_fails now2 F) in Hh. now injection Hh as <-.
    + rewrite (checkHibiyaLine_page now2 r Hok Ht) in Hh. now injection Hh as <-.
Qed.

Lemma is_delayed_spec (d : CheckDelay.DelayInfo) :
  CheckDelay.status d <> suspended ->
  CheckDelay.is_delayed d = true
  <-> CheckDelay.status d = delayed \/ CheckDelay.status d = suspended.
Proof.
  intros Hn. unfold CheckDelay.is_delayed.
  destruct (CheckDelay.status d); cbn; split; intros; try discriminate; auto;
    try contradiction; destruct H as [H | H]; discriminate.
Qed.

Lemma selected_delayed (ds : list CheckDelay.DelayInfo) :
  (forall d, In d ds -> CheckDelay.status d <> suspended) ->
  Selected (fun d => CheckDelay.status d = delayed \/ CheckDelay.status d = suspended)
           CheckDelay.line ds
           (map CheckDelay.line (filter CheckDelay.is_delayed ds)).
Proof.
  induction ds as [|d ds IH]; intros Hn; cbn [filter map].
  - constructor.
  - assert (Hd : CheckDelay.status d <> suspended) by (apply Hn; now left).
    assert (Hds : forall x, In x ds -> CheckDelay.status x <> suspended)
      by (intros x I; apply Hn; now right).
    destruct (CheckDelay.is_delayed d) eqn:E; cbn [map].
    + apply selected_keep; [now apply is_delayed_spec | now apply IH].
    + apply selected_skip; [| now apply IH].
      intros K. apply (is_delayed_spec d Hd) in K. congruence.
Qed.

Lemma worker_is_delayed_spec (d : Worker.DelayInfo) :
  Worker.status d <> suspended ->
  Worker.is_delayed d = true
  <-> Worker.status d = delayed \/ Worker.status d = suspended.
Proof.
  intros Hn. unfold Worker.is_delayed.
  destruct (Worker.status d); cbn; split; intros; try discriminate; auto;
    try contradiction; destruct H as [H | H]; discriminate.
Qed.

Lemma worker_selected_delayed (ds : list Worker.DelayInfo) :
  (forall d, In d ds -> Worker.status d <> suspended) ->
  Selected (fun d => Worker.status d = delayed \/ Worker.status d = suspended)
           Worker.line ds
           (map Worker.line (filter Worker.is_delayed ds)).
Proof.
  induction ds as [|d ds IH]; intros Hn; cbn [filter map].
  - constructor.
  - assert (Hd : Worker.status d <> suspended) by (apply Hn; now left).
    assert (Hds : forall x, In x ds -> Worker.status x <> suspended)
      by (intros x I; apply Hn; now right).
    destruct (Worker.is_delayed d) eqn:E; cbn [map].
    + apply selected_keep; [now apply worker_is_delayed_spec | now apply IH].
    + apply selected_skip; [| now apply IH].
      intros K. apply (worker_is_delayed_spec d Hd) in K. congruence.
Qed.

Lemma is_delayed_iff (d : CheckDelay.DelayInfo) :
  CheckDelay.is_delayed d = true <-> CheckDelay.status d = delayed.
Proof.
  unfold CheckDelay.is_delayed.
  destruct (CheckDelay.status d); cbn; split; intros; try discriminate; auto.
Qed.

Lemma worker_is_delayed_iff (d : Worker.DelayInfo) :
  Worker.is_delayed d = true <-> Worker.status d = delayed.
Proof.
  unfold Worker.is_delayed.
  destruct (Worker.status d); cbn; split; intros; try discriminate; auto.
Qed.

(** What [checkYahooTransit] returns: never suspended, and named after the
    configured line. *)
Lemma yahoo_result {H : Host} (key : CheckDelay.LineKey) (now : jsstring)
      (o : FetchOutcome) :
  exists d, CheckDelay.checkYahooTransit key now o = Returned d
            /\ CheckDelay.status d <> suspended
            /\ CheckDelay.line d = CheckDelay.yahoo_lineName key.
Proof.
  destruct (yahoo_status_not_suspended key now o) as [d [Hd Nd]].
  exists d. split; [exact Hd|]. split; [exact Nd|].
  unfold CheckDelay.checkYahooTransit in Hd.
  destruct o as [r | e]; cbn [cbind try_catch] in Hd.
  - destruct (text r) as [html | e]; cbn [cbind try_catch] in Hd.
    + destruct (CheckDelay.yahoo_classify _) as [st msg].
      now injection Hd as <-.
    + now injection Hd as <-.
  - now injection Hd as <-.
Qed.

Lemma worker_result (key : Worker.LineKey) (now : jsstring) (o : FetchOutcome) :
  exists d, Worker.checkYahooTransit key now o = Returned d
            /\ Worker.status d <> suspended
            /\ Worker.line d = Worker.yahoo_lineName key.
Proof.
  destruct (worker_status_not_suspended key now o) as [d [Hd Nd]].
  exists d. split; [exact Hd|]. split; [exact Nd|].
  unfold Worker.checkYahooTransit in Hd.
  destruct o as [r | e]; cbn [cbind try_catch] in Hd.
  - destruct (text r) as [html | e]; cbn [cbind try_catch] in Hd.
    + destruct (Worker.yahoo_classify _) as [st msg].
      now injection Hd as <-.
    + now injection Hd as <-.
  - now injection Hd as <-.
Qed.

(** C8 (as stated, refuted): [sendEmail] of check-delay.ts, handed a
    suspended Hibiya line and a delayed Keiyo line, builds a subject that
    names the Keiyo line only: its filter keeps the lines whose status is
    delayed, so the subject is not the list of the names of the lines that
    are delayed or suspended. *)
Lemma suspended_line_left_out_of_subject :
  CheckDelay.status hibiya_suspended = suspended
  /\ CheckDelay.mail_subject
       (CheckDelay.req_body
          (CheckDelay.request_of (cd_delay_run cd_env (Thrown boom))
             [hibiya_suspended; keiyo_delayed]))
     = js "🚃 電車遅延通知: 京葉線"
  /\ includes
       (CheckDelay.mail_subject
          (CheckDelay.req_body
             (CheckDelay.request_of (cd_delay_run cd_env (Thrown boom))
                [hibiya_suspended; keiyo_delayed])))
       (CheckDelay.line hibiya_suspended) = false
  /\ ~ (exists names,
          Selected (fun d => CheckDelay.status d = delayed
                             \/ CheckDelay.status d = suspended)
                   CheckDelay.line [hibiya_suspended; keiyo_delayed] names
          /\ CheckDelay.mail_subject
               (CheckDelay.req_body
                  (CheckDelay.request_of (cd_delay_run cd_env (Thrown boom))
                     [hibiya_suspended; keiyo_delayed]))
             = js "🚃 電車遅延通知: " ++ join (js ", ") names).
Proof.
  split; [reflexivity|]. split; [vm_compute; reflexivity|].
  split; [vm_compute; reflexivity|].
  intros [names [S E]].
  inversion S as [| l ls ns K S' | l ls ns K S']; subst.
  - inversion S' as [| l2 ls2 ns2 K2 S2 | l2 ls2 ns2 K2 S2]; subst.
    + inversion S2; subst. vm_compute in E. discriminate E.
    + apply K2. left. reflexivity.
  - apply K. right. reflexivity.
Qed.

(** C8 (amended): the subject of the notification is the fixed heading
    followed by names of lines, in the order of the result and joined by a
    comma and a space.  In index.ts the names are those of the lines whose
    status is delayed or suspended, and only those, for every CheckResult;
    in a run the name of each of the two configured lines occurs in the
    subject exactly when that line is delayed or suspended.  In
    check-delay.ts and in the worker the names are those of the lines whose
    status is delayed, and only those, for every list of results: a
    suspended line is not named.  In a run of these two programs the
    results are those of 日比谷線 and 京葉線, in this order, none is
    suspended, and the subject names exactly the lines that are delayed or
    suspended. *)
Theorem subject_names_delayed_lines :
  (forall result : Index.CheckResult,
      exists names,
        Selected (fun l => Index.status l = delayed \/ Index.status l = suspended)
                 Index.lineName (Index.lines result) names
        /\ Index.subject_of result = js "🚃 電車遅延アラート: " ++ join (js ", ") names)
  /\ (forall (H : Host) (w : Index.World),
      exists k h result,
        snd (run (Index.checkAllLines w)) = Returned result
        /\ Index.lines result = [k; h]
        /\ (includes (Index.subject_of result) (js "京葉線") = true
            <-> Index.status k = delayed \/ Index.status k = suspended)
        /\ (includes (Index.subject_of result) (js "日比谷線") = true
            <-> Index.status h = delayed \/ Index.status h = suspended)
        /\ (Index.notifiable k = true -> Index.notifiable h = true ->
            Index.subject_of result = js "🚃 電車遅延アラート: 京葉線, 日比谷線"))
  /\ (forall (w : CheckDelay.World) (delays : list CheckDelay.DelayInfo),
      exists names,
        Selected (fun d => CheckDelay.status d = delayed) CheckDelay.line delays names
        /\ CheckDelay.mail_subject (CheckDelay.req_body (CheckDelay.request_of w delays))
           = js "🚃 電車遅延通知: " ++ join (js ", ") names)
  /\ (forall (w : Worker.World) (env : Worker.Env) (delays : list Worker.DelayInfo),
      exists names,
        Selected (fun d => Worker.status d = delayed) Worker.line delays names
        /\ Worker.mail_subject (Worker.req_body (Worker.request_of w env delays))
           = js "🚃 電車遅延通知: " ++ join (js ", ") names)
  /\ (forall (H : Host) (w : CheckDelay.World),
      exists a b names,
        CheckDelay.check_all w = Returned [a; b]
        /\ CheckDelay.line a = js "日比谷線" /\ CheckDelay.line b = js "京葉線"
        /\ CheckDelay.status a <> suspended /\ CheckDelay.status b <> suspended
        /\ Selected (fun d => CheckDelay.status d = delayed
                              \/ CheckDelay.status d = suspended)
                    CheckDelay.line [a; b] names
        /\ CheckDelay.mail_subject (CheckDelay.req_body (CheckDelay.request_of w [a; b]))
           = js "🚃 電車遅延通知: " ++ join (js ", ") names)
  /\ (forall (w : Worker.World) (env : Worker.Env),
      exists a b names,
        Worker.check_all w = Returned [a; b]
        /\ Worker.line a = js "日比谷線" /\ Worker.line b = js "京葉線"
        /\ Worker.status a <> suspended /\ Worker.status b <> suspended
        /\ Selected (fun d => Worker.status d = delayed \/ Worker.status d = suspended)
                    Worker.line [a; b] names
        /\ Worker.mail_subject (Worker.req_body (Worker.request_of w env [a; b]))
           = js "🚃 電車遅延通知: " ++ join (js ", ") names).
Proof.
  split; [| split; [| split; [| split; [| split]]]].
  - intros result. eexists. split; [| reflexivity].
    apply selected_filter. exact notifiable_spec.
  - intros H w.
    destruct (checkKeiyoLine_returns (Index.keiyo_time w) (Index.keiyo_fetch w)) as [k Hk].
    destruct (checkHibiyaLine_returns (Index.hibiya_time w) (Index.hibiya_fetch w)) as [h Hh].
    destruct (checker_line_names _ _ _ _ Hk Hh) as [Nk Nh].
    exists k, h. eexists. rewrite (checkAllLines_result w Hk Hh).
    split; [reflexivity|]. split; [reflexivity|].
    rewrite <- !notifiable_spec.
    unfold Index.subject_of, Index.delayedLines. cbn [Index.lines filter].
    destruct (Index.notifiable k), (Index.notifiable h); cbn [map]; rewrite ?Nk, ?Nh;
      (split; [| split]);
      try (split; [intros _; reflexivity | intros _; vm_compute; reflexivity]);
      try (split; [vm_compute; intros D; discriminate D | intros D; discriminate D]);
      try (intros D; discriminate D);
      try (intros _ D; discriminate D).
    intros _ _. vm_compute. reflexivity.
  - intros w delays. eexists. split; [| reflexivity].
    apply selected_filter. exact is_delayed_iff.
  - intros w env delays. eexists. split; [| reflexivity].
    apply selected_filter. exact worker_is_delayed_iff.
  - intros H w.
    destruct (yahoo_result CheckDelay.key_hibiya
                (CheckDelay.hibiya_time w) (CheckDelay.hibiya_fetch w)) as [a [Ha [Na La]]].
    destruct (yahoo_result CheckDelay.key_keiyo
                (CheckDelay.keiyo_time w) (CheckDelay.keiyo_fetch w)) as [b [Hb [Nb Lb]]].
    exists a, b. eexists.
    split; [unfold CheckDelay.check_all; now rewrite Ha, Hb|].
    split; [exact La|]. split; [exact Lb|]. split; [exact Na|]. split; [exact Nb|].
    split; [| reflexivity].
    apply selected_delayed. intros d [<- | [<- | []]]; assumption.
  - intros w env.
    destruct (worker_result Worker.key_hibiya
                (Worker.hibiya_time w) (Worker.hibiya_fetch w)) as [a [Ha [Na La]]].
    destruct (worker_result Worker.key_keiyo
                (Worker.keiyo_time w) (Worker.keiyo_fetch w)) as [b [Hb [Nb Lb]]].
    exists a, b. eexists.
    split; [unfold Worker.check_all; now rewrite Ha, Hb|].
    split; [exact La|]. split; [exact Lb|]. split; [exact Na|]. split; [exact Nb|].
    split; [| reflexivity].
    apply worker_selected_delayed. intros d [<- | [<- | []]]; assumption.
Qed.

(** The subject that [sendEmail] of check-delay.ts builds for a suspended
    Hibiya line and a delayed Keiyo line. *)
Lemma subject_names_delayed_lines_witness :
  exists names,
    Selected (fun d => CheckDelay.status d = delayed) CheckDelay.line
             [hibiya_suspended; keiyo_delayed] names
    /\ CheckDelay.mail_subject
         (CheckDelay.req_body
            (CheckDelay.request_of (cd_delay_run cd_env (Thrown boom))
               [hibiya_suspended; keiyo_delayed]))
       = js "🚃 電車遅延通知: " ++ join (js ", ") names.
Proof.
  exact (proj1 (proj2 (proj2 subject_names_delayed_lines))
           (cd_delay_run cd_env (Thrown boom)) [hibiya_suspended; keiyo_delayed]).
Defined.

(* ================================================================= *)
(** ** The length of messages *)

Lemma find_in {A} (p : A -> bool) (l : list A) (x : A) :
  find p l = Some x -> In x l.
Proof. intros F. exact (proj1 (find_some _ _ F)). Qed.

Lemma keiyo_template_length (kw : jsstring) :
  In kw Index.keiyo_delayKeywords ->
  List.length (kw ++ js "が発生しています") <= 23.
Proof.
  intros I. unfold Index.keiyo_delayKeywords in I. cbn [In] in I.
  repeat (destruct I as [<- | I]; [vm_compute; lia|]). contradiction.
Qed.

Lemma hibiya_template_length (kw : jsstring) :
  In kw Index.hibiya_delayKeywords ->
  List.length (kw ++ js "が発生しています") <= 18.
Proof.
  intros I. unfold Index.hibiya_delayKeywords in I. cbn [In] in I.
  repeat (destruct I as [<- | I]; [vm_compute; lia|]). contradiction.
Qed.

Lemma trim_letters (n : nat) :
  trim (repeat 97%N (S n)) = repeat 97%N (S n).
Proof.
  assert (R : forall m, rev (repeat 97%N m) = repeat 97%N m).
  { induction m as [|m IH]; [reflexivity|].
    cbn [repeat rev]. rewrite IH. clear IH.
    induction m as [|m IH]; [reflexivity|]. cbn [repeat app]. now rewrite IH. }
  unfold trim, trimEnd. cbn [repeat trimStart].
  change (is_space 97%N) with false. cbv iota.
  change (97%N :: repeat 97%N n) with (repeat 97%N (S n)).
  rewrite R. cbn [repeat trimStart]. change (is_space 97%N) with false. cbv iota.
  change (97%N :: repeat 97%N n) with (repeat 97%N (S n)). apply R.
Qed.

(** C9 (as stated, refuted): for a page that mentions 遅延 and whose info
    element holds a text of 1000 characters, [checkKeiyoLine] of index.ts
    returns that text, untruncated, as the message. *)
Lemma info_element_message_unbounded :
  exists ls,
    @Index.checkKeiyoLine (info_host (repeat 97%N 1000)) 0%Z
      (page (js "遅延" ++ repeat 97%N 1000))
    = Returned ls
    /\ Index.status ls = delayed
    /\ List.length (Index.message ls) = 1000.
Proof. eexists. repeat split; vm_compute; reflexivity. Qed.

(** C9 (amended): for every input text, the message that
    [checkYahooTransit] (both versions) derives from the page has at most
    300 code units, that of [checkJRKeiyo] at most 200, that of
    [checkHibiyaLine] of index.ts at most 18, and that of [checkKeiyoLine]
    of index.ts at most 23 or the length of the trimmed text of the page's
    info element, which it copies whole: an info text of any length n+1
    on a page that mentions 遅延 is returned unchanged. *)
Theorem message_length_bounds :
  (forall area : jsstring, List.length (snd (CheckDelay.yahoo_classify area)) <= 300)
  /\ (forall content : jsstring, List.length (snd (Worker.yahoo_classify content)) <= 300)
  /\ (forall txt : jsstring, List.length (snd (CheckDelay.jr_classify txt)) <= 200)
  /\ (forall txt : jsstring, List.length (snd (Index.hibiya_classify txt)) <= 18)
  /\ (forall txt info : jsstring,
      List.length (snd (Index.keiyo_classify txt info))
      <= Nat.max 23 (List.length (trim info)))
  /\ (forall n : nat,
      snd (Index.keiyo_classify (js "遅延" ++ repeat 97%N (S n)) (repeat 97%N (S n)))
      = repeat 97%N (S n)).
Proof.
  split; [| split; [| split; [| split; [| split]]]].
  - intros area. unfold CheckDelay.yahoo_classify.
    destruct (_ && _); cbn [snd].
    + apply substring0_length.
    + vm_compute. lia.
  - intros content. unfold Worker.yahoo_classify.
    destruct (_ && _); cbn [snd].
    + destruct (re_search _ _); [apply substring0_length | vm_compute; lia].
    + vm_compute. lia.
  - intros txt. unfold CheckDelay.jr_classify.
    destruct (_ && _); cbn [snd].
    + destruct (re_search _ _); [apply substring0_length | vm_compute; lia].
    + vm_compute. lia.
  - intros txt. destruct (existsb (includes txt) Index.hibiya_delayKeywords) eqn:E.
    + destruct (find_of_existsb _ _ E) as [kw [F [I _]]].
      rewrite (hibiya_classify_hit _ F). cbn [snd]. now apply hibiya_template_length.
    + rewrite (hibiya_classify_miss _ E).
      destruct (existsb _ Index.hibiya_normalKeywords); vm_compute; lia.
  - intros txt info. destruct (existsb (includes txt) Index.keiyo_delayKeywords) eqn:E.
    + destruct (find_of_existsb _ _ E) as [kw [F [I _]]].
      rewrite (keiyo_classify_hit _ _ F). cbn [snd].
      pose proof (keiyo_template_length I) as L.
      destruct (trim info) as [|c s]; cbn [or_else]; [change (List.length (@nil char16)) with 0|]; lia.
    + rewrite (keiyo_classify_miss _ _ E).
      destruct (existsb _ Index.keiyo_normalKeywords); cbn [snd];
        [change (List.length (js "平常運転")) with 4; lia|].
      change (List.length (js "ステータス不明（ページ構造が変更された可能性）")) with 23. lia.
  - intros n.
    assert (F : find (includes (js "遅延" ++ repeat 97%N (S n))) Index.keiyo_delayKeywords
                = Some (js "遅延")).
    { unfold Index.keiyo_delayKeywords. cbn [find].
      change (js "遅延" ++ repeat 97%N (S n))
        with ([] ++ js "遅延" ++ repeat 97%N (S n)).
      now rewrite includes_self_app. }
    rewrite (keiyo_classify_hit _ _ F).
    cbn [snd]. rewrite trim_letters. reflexivity.
Qed.

(* ================================================================= *)
(** ** The text extraction of the worker *)

Lemma space_not_angle (c : char16) :
  is_space c = true -> (c =? Worker.lt_sign)%N = false /\ (c =? Worker.gt_sign)%N = false.
Proof.
  intros Hs. split.
  - destruct (N.eqb_spec c Worker.lt_sign) as [-> | _]; [discriminate Hs | reflexivity].
  - destruct (N.eqb_spec c Worker.gt_sign) as [-> | _]; [discriminate Hs | reflexivity].
Qed.

Lemma collapse_head (s : jsstring) :
  match Worker.collapse_spaces true s with
  | c :: _ => is_space c = false
  | [] => True
  end.
Proof.
  induction s as [|c s IH]; [exact I|].
  cbn [Worker.collapse_spaces]. destruct (is_space c) eqn:E; [exact IH | exact E].
Qed.

Lemma single_spaced_cons2 (a b : char16) (r : jsstring) :
  single_spaced (a :: b :: r)
  = negb (is_space a && is_space b) && single_spaced (b :: r).
Proof. reflexivity. Qed.

Lemma collapse_single_spaced (b : bool) (s : jsstring) :
  single_spaced (Worker.collapse_spaces b s) = true.
Proof.
  revert b. induction s as [|c s IH]; intros b; [reflexivity|].
  cbn [Worker.collapse_spaces]. destruct (is_space c) eqn:E.
  - destruct b; [apply IH|].
    pose proof (collapse_head s) as Hh. specialize (IH true).
    destruct (Worker.collapse_spaces true s) as [|d r]; [reflexivity|].
    rewrite single_spaced_cons2, Hh, andb_false_r. exact IH.
  - specialize (IH false).
    destruct (Worker.collapse_spaces false s) as [|d r]; [reflexivity|].
    rewrite single_spaced_cons2, E. exact IH.
Qed.

Lemma collapse_plain_spaces (b : bool) (s : jsstring) :
  plain_spaces (Worker.collapse_spaces b s) = true.
Proof.
  unfold plain_spaces. revert b. induction s as [|c s IH]; intros b; [reflexivity|].
  cbn [Worker.collapse_spaces]. destruct (is_space c) eqn:E.
  - destruct b; [apply IH|]. cbn [forallb]. rewrite IH. reflexivity.
  - cbn [forallb]. rewrite E, IH. reflexivity.
Qed.

Lemma collapse_length (b : bool) (s : jsstring) :
  List.length (Worker.collapse_spaces b s) <= List.length s.
Proof.
  revert b. induction s as [|c s IH]; intros b; [reflexivity|].
  cbn [Worker.collapse_spaces]. destruct (is_space c).
  - destruct b; cbn [List.length].
    + specialize (IH true). lia.
    + specialize (IH true). lia.
  - cbn [List.length]. specialize (IH false). lia.
Qed.

Lemma collapse_keeps_gt (b : bool) (s : jsstring) :
  existsb (N.eqb Worker.gt_sign) (Worker.collapse_spaces b s)
  = existsb (N.eqb Worker.gt_sign) s.
Proof.
  revert b. induction s as [|c s IH]; intros b; [reflexivity|].
  cbn [Worker.collapse_spaces existsb]. destruct (is_space c) eqn:E.
  - destruct (space_not_angle c E) as [_ Hg]. rewrite N.eqb_sym, Hg.
    destruct b; cbn [existsb orb]; [apply IH|]. apply IH.
  - cbn [existsb]. now rewrite IH.
Qed.

Lemma collapse_tag_free (b : bool) (s : jsstring) :
  tag_free s = true -> tag_free (Worker.collapse_spaces b s) = true.
Proof.
  revert b. induction s as [|c s IH]; intros b; [reflexivity|].
  cbn [tag_free Worker.collapse_spaces]. rewrite andb_true_iff. intros [Hc Hs].
  destruct (is_space c) eqn:E.
  - destruct b; [now apply IH|]. cbn [tag_free]. now rewrite IH.
  - cbn [tag_free]. rewrite collapse_keeps_gt, Hc. now rewrite IH.
Qed.

Lemma strip_keeps_no_gt (b : bool) (s : jsstring) :
  existsb (N.eqb Worker.gt_sign) s = false ->
  existsb (N.eqb Worker.gt_sign) (Worker.strip_tags b s) = false.
Proof.
  revert b. induction s as [|c s IH]; intros b; [reflexivity|].
  cbn [existsb Worker.strip_tags]. rewrite orb_false_iff. intros [Hc Hs].
  rewrite N.eqb_sym in Hc. rewrite Hc, Hs, andb_false_r.
  destruct b; [now apply IH|]. cbn [existsb]. rewrite N.eqb_sym, Hc. now apply IH.
Qed.

Lemma strip_tag_free (b : bool) (s : jsstring) :
  tag_free (Worker.strip_tags b s) = true.
Proof.
  revert b. induction s as [|c s IH]; intros b; [reflexivity|].
  cbn [Worker.strip_tags]. destruct b.
  - destruct (c =? Worker.gt_sign)%N; [| apply IH]. cbn [tag_free]. now rewrite IH.
  - destruct (c =? Worker.lt_sign)%N eqn:El; cbn [andb].
    + destruct (existsb (N.eqb Worker.gt_sign) s) eqn:Eg; [apply IH|].
      cbn [tag_free]. rewrite (strip_keeps_no_gt false s Eg), andb_false_r. apply IH.
    + cbn [tag_free]. rewrite El. apply IH.
Qed.

Lemma strip_length (b : bool) (s : jsstring) :
  List.length (Worker.strip_tags b s) <= List.length s.
Proof.
  revert b. induction s as [|c s IH]; intros b; [reflexivity|].
  cbn [Worker.strip_tags]. destruct b.
  - destruct (c =? Worker.gt_sign)%N; cbn [List.length].
    + specialize (IH false). lia.
    + specialize (IH true). lia.
  - destruct ((c =? Worker.lt_sign)%N && _); cbn [List.length].
    + specialize (IH true). lia.
    + specialize (IH false). lia.
Qed.

Lemma single_spaced_split (s pre post : jsstring) (a b : char16) :
  single_spaced s = true -> s = pre ++ a :: b :: post ->
  is_space a = true -> is_space b = false.
Proof.
  revert s. induction pre as [|p pre IH]; intros s Hs -> Ha.
  - cbn [app] in Hs. rewrite single_spaced_cons2, Ha in Hs.
    destruct (is_space b); [discriminate Hs | reflexivity].
  - cbn [app] in Hs. apply (IH (pre ++ a :: b :: post)); [| reflexivity | exact Ha].
    destruct pre as [|q pre]; cbn [app] in Hs |- *;
      rewrite single_spaced_cons2 in Hs;
      apply andb_true_iff in Hs; exact (proj2 Hs).
Qed.

Lemma tag_free_split (s pre post : jsstring) :
  tag_free s = true -> s = pre ++ Worker.lt_sign :: post -> ~ In Worker.gt_sign post.
Proof.
  revert s. induction pre as [|p pre IH]; intros s Hs ->.
  - cbn [app tag_free] in Hs. rewrite N.eqb_refl in Hs.
    destruct (existsb (N.eqb Worker.gt_sign) post) eqn:E; [discriminate Hs|].
    intros I. assert (existsb (N.eqb Worker.gt_sign) post = true).
    { apply existsb_exists. exists Worker.gt_sign. split; [exact I | apply N.eqb_refl]. }
    congruence.
  - cbn [app tag_free] in Hs. apply andb_true_iff in Hs.
    exact (IH _ (proj2 Hs) eq_refl).
Qed.

(** X1: the text that the worker extracts from a page is in normal form:
    white space occurs only as single plain spaces (so the text is one
    line), no [<] is followed later by a [>] (no tag is left), and the text
    is not longer than the page. *)
Theorem textContent_normal_form :
  forall html : jsstring,
    (forall pre post a b,
        Worker.textContent_of html = pre ++ a :: b :: post ->
        is_space a = true -> is_space b = false)
    /\ (forall c, In c (Worker.textContent_of html) -> is_space c = true ->
                  c = Worker.space)
    /\ (forall pre post,
        Worker.textContent_of html = pre ++ Worker.lt_sign :: post ->
        ~ In Worker.gt_sign post)
    /\ List.length (Worker.textContent_of html) <= List.length html.
Proof.
  intros html. unfold Worker.textContent_of. split; [| split; [| split]].
  - intros pre post a b E. exact (@single_spaced_split _ pre post a b (collapse_single_spaced _ _) E).
  - intros c I Hs.
    pose proof (collapse_plain_spaces false (Worker.strip_tags false html)) as P.
    unfold plain_spaces in P. rewrite forallb_forall in P. specialize (P c I).
    rewrite Hs in P. cbn [negb orb] in P. now apply N.eqb_eq.
  - intros pre post E.
    exact (@tag_free_split _ pre post (collapse_tag_free _ _ (strip_tag_free _ _)) E).
  - pose proof (collapse_length false (Worker.strip_tags false html)).
    pose proof (strip_length false html). lia.
Qed.

Lemma strip_fixed (s : jsstring) :
  tag_free s = true -> Worker.strip_tags false s = s.
Proof.
  induction s as [|c s IH]; [reflexivity|].
  cbn [tag_free Worker.strip_tags]. rewrite andb_true_iff. intros [Hc Hs].
  apply negb_true_iff in Hc. rewrite Hc. now rewrite IH.
Qed.

Lemma collapse_fixed (s : jsstring) :
  single_spaced s = true -> plain_spaces s = true ->
  Worker.collapse_spaces false s = s.
Proof.
  unfold plain_spaces. induction s as [|c s IH]; [reflexivity|].
  intros Hs Hp. cbn [forallb] in Hp. apply andb_true_iff in Hp. destruct Hp as [Hc Hp].
  assert (Hs' : single_spaced s = true).
  { destruct s as [|d r]; [reflexivity|]. rewrite single_spaced_cons2 in Hs.
    apply andb_true_iff in Hs. exact (proj2 Hs). }
  specialize (IH Hs' Hp). cbn [Worker.collapse_spaces].
  destruct (is_space c) eqn:E.
  - cbn [negb orb] in Hc. apply N.eqb_eq in Hc. subst c. f_equal.
    destruct s as [|d r]; [reflexivity|].
    rewrite single_spaced_cons2, E in Hs. cbn [andb] in Hs.
    apply andb_true_iff in Hs. destruct Hs as [Hd _]. apply negb_true_iff in Hd.
    cbn [Worker.collapse_spaces] in IH |- *. rewrite Hd in IH |- *. exact IH.
  - now rewrite IH.
Qed.

(** X2: the text extraction of the worker is idempotent: applied to its
    own output it changes nothing. *)
Theorem textContent_idempotent :
  forall html : jsstring,
    Worker.textContent_of (Worker.textContent_of html) = Worker.textContent_of html.
Proof.
  intros html. unfold Worker.textContent_of at 1.
  rewrite strip_fixed.
  - apply collapse_fixed; unfold Worker.textContent_of.
    + apply collapse_single_spaced.
    + apply collapse_plain_spaces.
  - unfold Worker.textContent_of. apply collapse_tag_free, strip_tag_free.
Qed.

(* ================================================================= *)
(** ** What the regular expressions match *)

Lemma skipn_prefix (p s : jsstring) :
  is_prefix p s = true -> s = p ++ skipn (List.length p) s.
Proof.
  intros Hp. apply is_prefix_spec in Hp. destruct Hp as [post ->].
  rewrite skipn_app, skipn_all, Nat.sub_diag. reflexivity.
Qed.

Lemma re_lazy_star_inv (p : char16 -> bool) (k : Matcher) (s r : jsstring) :
  re_lazy_star p k s = Some r ->
  exists pre s', s = pre ++ s' /\ forallb p pre = true /\ k s' = Some r.
Proof.
  induction s as [|c s IH]; cbn [re_lazy_star].
  - destruct (k []) eqn:E; [| discriminate].
    intros [= <-]. now exists [], [].
  - destruct (k (c :: s)) eqn:E.
    + intros [= <-]. now exists [], (c :: s).
    + destruct (p c) eqn:Ep; [| discriminate]. intros Hr.
      destruct (IH Hr) as [pre [s' [-> [Hp Hk]]]].
      exists (c :: pre), s'. cbn [app forallb]. now rewrite Ep.
Qed.

Lemma re_alt_inv (kws : list jsstring) (k : Matcher) (s r : jsstring) :
  re_alt kws k s = Some r ->
  exists kw s', In kw kws /\ s = kw ++ s' /\ k s' = Some r.
Proof.
  induction kws as [|kw kws IH]; cbn [re_alt]; [discriminate|].
  unfold re_lit at 1. destruct (is_prefix kw s) eqn:Ep.
  - destruct (k (skipn (List.length kw) s)) eqn:Ek.
    + intros [= <-]. exists kw, (skipn (List.length kw) s).
      repeat split; [now left | now apply skipn_prefix | exact Ek].
    + intros Hr. destruct (IH Hr) as [kw' [s' [I [E K]]]].
      exists kw', s'. repeat split; [now right | exact E | exact K].
  - intros Hr. destruct (IH Hr) as [kw' [s' [I [E K]]]].
    exists kw', s'. repeat split; [now right | exact E | exact K].
Qed.

Lemma re_search_inv (m : Matcher) (s s0 r : jsstring) :
  re_search m s = Some (s0, r) ->
  exists before, s = before ++ s0 /\ m s0 = Some r.
Proof.
  induction s as [|c s IH]; cbn [re_search].
  - destruct (m []) eqn:E; [| discriminate]. intros [= <- <-]. now exists [].
  - destruct (m (c :: s)) eqn:E.
    + intros [= <- <-]. now exists [].
    + intros Hr. destruct (IH Hr) as [before [-> Hm]]. now exists (c :: before).
Qed.

Lemma re_lazy_star_complete (p : char16 -> bool) (k : Matcher) (pre s' : jsstring) :
  forallb p pre = true -> (exists r, k s' = Some r) ->
  exists r, re_lazy_star p k (pre ++ s') = Some r.
Proof.
  intros Hp [r Hk]. induction pre as [|c pre IH]; cbn [app].
  - destruct s' as [|d s']; cbn [re_lazy_star]; rewrite Hk; now exists r.
  - cbn [forallb] in Hp. apply andb_true_iff in Hp. destruct Hp as [Hc Hp].
    cbn [re_lazy_star]. destruct (k (c :: pre ++ s')) as [r'|]; [now exists r'|].
    rewrite Hc. exact (IH Hp).
Qed.

Lemma re_alt_complete (kws : list jsstring) (k : Matcher) (kw s' : jsstring) :
  In kw kws -> (exists r, k s' = Some r) ->
  exists r, re_alt kws k (kw ++ s') = Some r.
Proof.
  intros I [r Hk]. induction kws as [|kw0 kws IH]; [contradiction|].
  cbn [re_alt]. destruct (re_lit kw0 k (kw ++ s')) as [r'|] eqn:E; [now exists r'|].
  destruct I as [-> | I]; [| exact (IH I)].
  unfold re_lit in E.
  assert (Hp : is_prefix kw (kw ++ s') = true) by (apply is_prefix_spec; now exists s').
  rewrite Hp, skipn_app, skipn_all, Nat.sub_diag in E. cbn [skipn app] in E.
  congruence.
Qed.

Lemma FailsOn_suffix (k : Matcher) (s pre t : jsstring) :
  FailsOn k s -> s = pre ++ t -> FailsOn k t.
Proof.
  intros F -> pre' t' ->. apply (F (pre ++ pre') t'). now rewrite app_assoc.
Qed.

Lemma re_lazy_star_fails (p : char16 -> bool) (k : Matcher) (s : jsstring) :
  FailsOn k s -> FailsOn (re_lazy_star p k) s.
Proof.
  intros F pre t ->. pose proof (@FailsOn_suffix k _ pre t F eq_refl) as Ft.
  clear F. induction t as [|c t IH]; cbn [re_lazy_star].
  - now rewrite (Ft [] [] eq_refl).
  - rewrite (Ft [] (c :: t) eq_refl). destruct (p c); [| reflexivity].
    apply IH. exact (@FailsOn_suffix k _ [c] t Ft eq_refl).
Qed.

Lemma re_lit_fails (kw : jsstring) (k : Matcher) (s : jsstring) :
  FailsOn k s -> FailsOn (re_lit kw k) s.
Proof.
  intros F pre t ->. unfold re_lit. destruct (is_prefix kw t) eqn:Ep; [| reflexivity].
  apply (F (pre ++ kw) (skipn (List.length kw) t)).
  rewrite <- app_assoc. f_equal. now apply skipn_prefix.
Qed.

Lemma re_alt_fails (kws : list jsstring) (k : Matcher) (s : jsstring) :
  FailsOn k s -> FailsOn (re_alt kws k) s.
Proof.
  intros F pre t E. induction kws as [|kw kws IH]; [reflexivity|].
  cbn [re_alt]. now rewrite (re_lit_fails kw F pre t E).
Qed.

Lemma re_search_fails (m : Matcher) (s : jsstring) :
  FailsOn m s -> re_search m s = None.
Proof.
  induction s as [|c s IH]; intros F; cbn [re_search].
  - now rewrite (F [] [] eq_refl).
  - rewrite (F [] (c :: s) eq_refl). apply IH.
    exact (@FailsOn_suffix m _ [c] s F eq_refl).
Qed.

Lemma group1_spec (frag r : jsstring) :
  group1 (frag ++ r, r) = frag.
Proof.
  unfold group1. cbn [fst snd]. rewrite length_app, Nat.add_sub.
  rewrite firstn_app, firstn_all, Nat.sub_diag. cbn [firstn]. apply app_nil_r.
Qed.

Lemma existsb_includes_occurs (kws : list jsstring) (s : jsstring) :
  existsb (includes s) kws = true <-> exists kw, In kw kws /\ Occurs kw s.
Proof.
  rewrite existsb_exists. split; intros [kw [I O]]; exists kw; split; try exact I;
    now apply includes_spec.
Qed.

(* ================================================================= *)
(** ** The message of a delayed line *)

Lemma re_search_here (m : Matcher) (s r : jsstring) :
  m s = Some r -> re_search m s = Some (s, r).
Proof. intros Hm. destruct s; cbn [re_search]; now rewrite Hm. Qed.

Lemma close_spaces_or_end_inv (s r : jsstring) :
  close_spaces_or_end s = Some r ->
  r = s /\ (s = [] \/ exists a b rest,
                       s = a :: b :: rest /\ is_space a = true /\ is_space b = true).
Proof.
  unfold close_spaces_or_end. destruct s as [|a [|b rest]].
  - intros [= <-]. split; [reflexivity | now left].
  - discriminate.
  - destruct (is_space a) eqn:Ea; [| discriminate].
    destruct (is_space b) eqn:Eb; [| discriminate].
    intros [= <-]. split; [reflexivity|]. right. now exists a, b, rest.
Qed.

Lemma close_newline_or_period_inv (s r : jsstring) :
  close_newline_or_period s = Some r ->
  r = s /\ exists c rest, s = c :: rest /\ (c = 10%N \/ c = 12290%N).
Proof.
  unfold close_newline_or_period. destruct s as [|c rest]; [discriminate|].
  destruct (c =? 10)%N eqn:E1; cbn [orb].
  - intros [= <-]. split; [reflexivity|]. exists c, rest.
    split; [reflexivity | left; now apply N.eqb_eq].
  - destruct (c =? 12290)%N eqn:E2; [| discriminate].
    intros [= <-]. split; [reflexivity|]. exists c, rest.
    split; [reflexivity | right; now apply N.eqb_eq].
Qed.

Lemma plain_spaces_dots (t : jsstring) :
  plain_spaces t = true -> forallb re_dot t = true.
Proof.
  unfold plain_spaces. rewrite !forallb_forall. intros P c I. specialize (P c I).
  unfold re_dot. destruct (is_line_terminator c) eqn:E; [| reflexivity].
  unfold is_line_terminator in E.
  repeat (apply orb_true_iff in E; destruct E as [E | E]);
    apply N.eqb_eq in E; subst c; discriminate P.
Qed.

(** On a text in normal form that contains a delay word, the pattern of
    the worker matches from the start of the text to its end. *)
Lemma worker_search_whole (t : jsstring) :
  single_spaced t = true -> plain_spaces t = true ->
  existsb (includes t) Worker.yahoo_delay_words = true ->
  re_search Worker.yahoo_delay_re t = Some (t, []).
Proof.
  intros Hss Hps Hd.
  apply existsb_includes_occurs in Hd. destruct Hd as [kw [I [pre [post E]]]].
  pose proof (plain_spaces_dots t Hps) as Hdots.
  rewrite E, !forallb_app in Hdots.
  apply andb_true_iff in Hdots. destruct Hdots as [Dpre Dtail].
  apply andb_true_iff in Dtail. destruct Dtail as [_ Dpost].
  assert (Hm : exists r, Worker.yahoo_delay_re t = Some r).
  { rewrite E. unfold Worker.yahoo_delay_re.
    apply re_lazy_star_complete; [exact Dpre|].
    apply re_alt_complete; [exact I|].
    rewrite <- (app_nil_r post).
    apply re_lazy_star_complete; [exact Dpost | now exists []]. }
  destruct Hm as [r Hm]. rewrite (re_search_here _ _ Hm). do 2 f_equal.
  unfold Worker.yahoo_delay_re in Hm.
  apply re_lazy_star_inv in Hm. destruct Hm as [p1 [s1 [E1 [_ Hm]]]].
  apply re_alt_inv in Hm. destruct Hm as [kw' [s2 [_ [E2 Hm]]]].
  apply re_lazy_star_inv in Hm. destruct Hm as [p3 [s3 [E3 [_ Hm]]]].
  apply close_spaces_or_end_inv in Hm.
  destruct Hm as [-> [-> | [a [b [rest [-> [Ha Hb]]]]]]]; [reflexivity|].
  assert (Et : t = (p1 ++ kw' ++ p3) ++ a :: b :: rest).
  { rewrite E1, E2, E3. now rewrite <- !app_assoc. }
  pose proof (@single_spaced_split t _ _ a b Hss Et Ha). congruence.
Qed.

(** X3: in the worker, a line is delayed exactly when the extracted text
    contains a delay word and no normal notice, and its message is then
    the first 300 code units of the whole extracted text: on such a text
    the pattern always matches from the start to the end, and the fixed
    fallback message is never used. *)
Theorem worker_delay_message_is_text_prefix :
  forall html : jsstring,
    Worker.yahoo_classify (Worker.textContent_of html)
    = if existsb (includes (Worker.textContent_of html)) Worker.yahoo_delay_words
         && negb (Worker.yahoo_isNormal (Worker.textContent_of html))
      then (delayed, substring0 300 (Worker.textContent_of html))
      else (normal, js "平常運転").
Proof.
  intros html. set (t := Worker.textContent_of html).
  assert (Hss : single_spaced t = true) by apply collapse_single_spaced.
  assert (Hps : plain_spaces t = true) by apply collapse_plain_spaces.
  unfold Worker.yahoo_classify. rewrite re_test_any_includes.
  destruct (existsb (includes t) Worker.yahoo_delay_words) eqn:Hd; [| reflexivity].
  destruct (Worker.yahoo_isNormal t); [reflexivity|]. cbn [negb andb]. f_equal.
  rewrite (worker_search_whole t Hss Hps Hd).
  unfold group1. cbn [fst snd List.length].
  now rewrite Nat.sub_0_r, firstn_all.
Qed.

Lemma jr_words_dots (kw : jsstring) :
  In kw CheckDelay.jr_delay_words -> forallb re_dot kw = true.
Proof.
  intros I. unfold CheckDelay.jr_delay_words in I. cbn [In] in I.
  repeat (destruct I as [<- | I]; [reflexivity|]). contradiction.
Qed.

(** X4: when [checkJRKeiyo] classifies a page as delayed, its message is
    either the fixed fallback, or the first 200 code units of a fragment of
    the page text that contains a delay word, lies on one line, and is
    followed in the page by a line feed or a full stop. *)
Theorem jr_message_fragment :
  forall txt m : jsstring,
    CheckDelay.jr_classify txt = (delayed, m) ->
    m = js "延误详情请查看官网"
    \/ exists before frag after,
        txt = before ++ frag ++ after
        /\ m = substring0 200 frag
        /\ (exists kw, In kw CheckDelay.jr_delay_words /\ Occurs kw frag)
        /\ forallb re_dot frag = true
        /\ (exists c rest, after = c :: rest /\ (c = 10%N \/ c = 12290%N)).
Proof.
  intros txt m. unfold CheckDelay.jr_classify.
  destruct (_ && _); [| discriminate].
  destruct (re_search CheckDelay.jr_delay_re txt) as [[s0 r]|] eqn:Hs.
  - intros [= <-]. right.
    apply re_search_inv in Hs. destruct Hs as [before [-> Hm]].
    unfold CheckDelay.jr_delay_re in Hm.
    apply re_lazy_star_inv in Hm. destruct Hm as [p1 [s1 [-> [D1 Hm]]]].
    apply re_alt_inv in Hm. destruct Hm as [kw [s2 [I [-> Hm]]]].
    apply re_lazy_star_inv in Hm. destruct Hm as [p3 [s3 [-> [D3 Hm]]]].
    apply close_newline_or_period_inv in Hm. destruct Hm as [-> Hc].
    exists before, (p1 ++ kw ++ p3), s3.
    replace (p1 ++ kw ++ p3 ++ s3) with ((p1 ++ kw ++ p3) ++ s3)
      by now rewrite <- !app_assoc.
    rewrite group1_spec. repeat split.
    + exists kw. split; [exact I | now exists p1, p3].
    + rewrite !forallb_app, D1, D3, (jr_words_dots I). reflexivity.
    + exact Hc.
  - intros [= <-]. now left.
Qed.

Lemma jr_message_fragment_witness :
  js "強風の影響で、一部列車に遅れが出ています" = js "延误详情请查看官网"
  \/ exists before frag after,
      js "京葉線
強風の影響で、一部列車に遅れが出ています。詳細は駅係員まで。" = before ++ frag ++ after
      /\ js "強風の影響で、一部列車に遅れが出ています" = substring0 200 frag
      /\ (exists kw, In kw CheckDelay.jr_delay_words /\ Occurs kw frag)
      /\ forallb re_dot frag = true
      /\ (exists c rest, after = c :: rest /\ (c = 10%N \/ c = 12290%N)).
Proof.
  apply (@jr_message_fragment (js "京葉線
強風の影響で、一部列車に遅れが出ています。詳細は駅係員まで。")).
  vm_compute. reflexivity.
Defined.

(** X5: [checkJRKeiyo] reports the fixed fallback message, and no detail
    of the page, for every delayed page whose text has neither a line feed
    nor a full stop: the pattern needs one of them after the delay word. *)
Theorem jr_message_needs_terminator :
  forall txt : jsstring,
    (forall c, In c txt -> c <> 10%N /\ c <> 12290%N) ->
    existsb (includes txt) CheckDelay.jr_delay_words = true ->
    existsb (includes txt) CheckDelay.jr_normal_words = false ->
    CheckDelay.jr_classify txt = (delayed, js "延误详情请查看官网").
Proof.
  intros txt Hno Hd Hn. unfold CheckDelay.jr_classify.
  rewrite !re_test_any_includes, Hd, Hn. cbn [negb andb].
  assert (F : FailsOn close_newline_or_period txt).
  { intros pre t ->. unfold close_newline_or_period. destruct t as [|c t]; [reflexivity|].
    destruct (Hno c) as [H1 H2]; [apply in_or_app; right; now left|].
    apply N.eqb_neq in H1, H2. now rewrite H1, H2. }
  rewrite re_search_fails; [reflexivity|].
  unfold CheckDelay.jr_delay_re.
  now apply re_lazy_star_fails, re_alt_fails, re_lazy_star_fails.
Qed.

Lemma jr_message_needs_terminator_witness :
  CheckDelay.jr_classify (js "京葉線は強風の影響で遅れが出ています")
  = (delayed, js "延误详情请查看官网").
Proof.
  apply jr_message_needs_terminator.
  - intros c I. vm_compute in I.
    repeat (destruct I as [<- | I]; [split; discriminate|]). contradiction.
  - vm_compute. reflexivity.
  - vm_compute. reflexivity.
Defined.

Lemma re_star_inv (p : char16 -> bool) (k : Matcher) (s r : jsstring) :
  re_star p k s = Some r ->
  exists pre s', s = pre ++ s' /\ forallb p pre = true /\ k s' = Some r.
Proof.
  induction s as [|c s IH]; cbn [re_star].
  - intros Hk. now exists [], [].
  - destruct (p c) eqn:Ep.
    + destruct (re_star p k s) as [r'|] eqn:Es.
      * intros [= <-]. destruct (IH eq_refl) as [pre [s' [-> [Hp Hk]]]].
        exists (c :: pre), s'. cbn [app forallb]. now rewrite Ep.
      * intros Hk. now exists [], (c :: s).
    + intros Hk. now exists [], (c :: s).
Qed.

Lemma re_plus_inv (p : char16 -> bool) (k : Matcher) (s r : jsstring) :
  re_plus p k s = Some r ->
  exists ds s', s = ds ++ s' /\ ds <> [] /\ forallb p ds = true /\ k s' = Some r.
Proof.
  unfold re_plus. destruct s as [|c s]; [discriminate|].
  destruct (p c) eqn:Ep; [| discriminate]. intros Hs.
  apply re_star_inv in Hs. destruct Hs as [pre [s' [-> [Hp Hk]]]].
  exists (c :: pre), s'. cbn [app forallb]. rewrite Ep.
  repeat split; [discriminate | exact Hp | exact Hk].
Qed.

Lemma re_lit_inv (kw : jsstring) (k : Matcher) (s r : jsstring) :
  re_lit kw k s = Some r -> exists s', s = kw ++ s' /\ k s' = Some r.
Proof.
  unfold re_lit. destruct (is_prefix kw s) eqn:Ep; [| discriminate].
  intros Hk. exists (skipn (List.length kw) s). split; [now apply skipn_prefix | exact Hk].
Qed.





(** X6: when [checkMetroHibiya] classifies a page as delayed, its message
    is either the fixed fallback, or a fragment of the page text, not
    truncated, that starts with a time written as digits, 時, digits, 分頃,
    contains after it one of the four words of the extraction pattern, and
    is followed in the page by a line feed or a full stop. *)
Theorem metro_message_fragment :
  forall txt m : jsstring,
    CheckDelay.metro_classify txt = (delayed, m) ->
    m = js "延误详情请查看官网"
    \/ exists before hours minutes mid kw tail after,
        txt = before ++ m ++ after
        /\ m = hours ++ js "時" ++ minutes ++ js "分頃" ++ mid ++ kw ++ tail
        /\ hours <> [] /\ forallb is_digit hours = true
        /\ minutes <> [] /\ forallb is_digit minutes = true
        /\ In kw [js "遅延"; js "運転見合"; js "折返し"; js "運休"]
        /\ (exists c rest, after = c :: rest /\ (c = 10%N \/ c = 12290%N)).
Proof.
  intros txt m. unfold CheckDelay.metro_classify.
  destruct (re_test_any CheckDelay.metro_delay_words txt); [| discriminate].
  destruct (re_search CheckDelay.metro_delay_re txt) as [[s0 r]|] eqn:Hs.
  - intros [= <-]. right.
    apply re_search_inv in Hs. destruct Hs as [before [-> Hm]].
    unfold CheckDelay.metro_delay_re in Hm.
    apply re_plus_inv in Hm. destruct Hm as [hours [s1 [-> [Nh [Dh Hm]]]]].
    apply re_lit_inv in Hm. destruct Hm as [s2 [-> Hm]].
    apply re_plus_inv in Hm. destruct Hm as [minutes [s3 [-> [Nm [Dm Hm]]]]].
    apply re_lit_inv in Hm. destruct Hm as [s4 [-> Hm]].
    apply re_lazy_star_inv in Hm. destruct Hm as [mid [s5 [-> [_ Hm]]]].
    apply re_alt_inv in Hm. destruct Hm as [kw [s6 [I [-> Hm]]]].
    apply re_lazy_star_inv in Hm. destruct Hm as [tail [s7 [-> [_ Hm]]]].
    apply close_newline_or_period_inv in Hm. destruct Hm as [-> Hc].
    assert (E : hours ++ js "時" ++ minutes ++ js "分頃" ++ mid ++ kw ++ tail ++ s7
                = (hours ++ js "時" ++ minutes ++ js "分頃" ++ mid ++ kw ++ tail) ++ s7).
    { now rewrite <- !app_assoc. }
    rewrite E, group1_spec.
    exists before, hours, minutes, mid, kw, tail, s7. repeat split; assumption.
  - intros [= <-]. now left.
Qed.

Lemma metro_message_fragment_witness :
  js "18時05分頃、人身事故のため運転見合わせ" = js "延误详情请查看官网"
  \/ exists before hours minutes mid kw tail after,
      js "日比谷線 18時05分頃、人身事故のため運転見合わせ。"
      = before ++ js "18時05分頃、人身事故のため運転見合わせ" ++ after
      /\ js "18時05分頃、人身事故のため運転見合わせ"
         = hours ++ js "時" ++ minutes ++ js "分頃" ++ mid ++ kw ++ tail
      /\ hours <> [] /\ forallb is_digit hours = true
      /\ minutes <> [] /\ forallb is_digit minutes = true
      /\ In kw [js "遅延"; js "運転見合"; js "折返し"; js "運休"]
      /\ (exists c rest, after = c :: rest /\ (c = 10%N \/ c = 12290%N)).
Proof.
  apply (@metro_message_fragment (js "日比谷線 18時05分頃、人身事故のため運転見合わせ。")).
  vm_compute. reflexivity.
Defined.



(* ================================================================= *)
(** ** When a status is unknown *)

Lemma hibiya_status_known (txt : jsstring) :
  fst (Index.hibiya_classify txt) <> unknown.
Proof.
  destruct (existsb (includes txt) Index.hibiya_delayKeywords) eqn:E.
  - destruct (find_of_existsb _ _ E) as [kw [F _]]. rewrite (hibiya_classify_hit _ F).
    cbn [fst]. destruct (severity_cases kw) as [-> | ->]; discriminate.
  - rewrite (hibiya_classify_miss _ E). destruct (existsb _ Index.hibiya_normalKeywords);
      discriminate.
Qed.

Lemma keiyo_status_unknown (txt info : jsstring) :
  fst (Index.keiyo_classify txt info) = unknown
  <-> existsb (includes txt) Index.keiyo_delayKeywords = false
      /\ existsb (includes txt) Index.keiyo_normalKeywords = false.
Proof.
  destruct (existsb (includes txt) Index.keiyo_delayKeywords) eqn:E.
  - destruct (find_of_existsb _ _ E) as [kw [F _]]. rewrite (keiyo_classify_hit _ _ F).
    cbn [fst]. split; [| intros [D _]; discriminate D].
    destruct (severity_cases kw) as [-> | ->]; discriminate.
  - rewrite (keiyo_classify_miss _ _ E).
    destruct (existsb _ Index.keiyo_normalKeywords); cbn [fst]; split;
      try discriminate; auto. intros [_ D]. discriminate D.
Qed.

Lemma page_not_failing (r : Response) (html : jsstring) (e : JsThrown) :
  ok r = true -> text r = Returned html -> ~ RetrievalFails (Returned r) e.
Proof. intros Hok Ht F. inversion F; congruence. Qed.

(** X8: the Hibiya checker of index.ts returns unknown exactly when the
    retrieval fails; the Keiyo checker returns unknown exactly when the
    retrieval fails or the page is retrieved and its text has no keyword of
    either list. *)
Theorem index_unknown_iff :
  forall (H : Host) (now : Index.Date) (o : FetchOutcome),
    (exists ls,
        Index.checkHibiyaLine now o = Returned ls
        /\ (Index.status ls = unknown <-> exists e, RetrievalFails o e))
    /\ (exists ls,
        Index.checkKeiyoLine now o = Returned ls
        /\ (Index.status ls = unknown
            <-> (exists e, RetrievalFails o e)
                \/ (exists r html,
                       o = Returned r /\ ok r = true /\ text r = Returned html
                       /\ existsb (includes (select_text (js "body") html))
                                  Index.keiyo_delayKeywords = false
                       /\ existsb (includes (select_text (js "body") html))
                                  Index.keiyo_normalKeywords = false))).
Proof.
  intros H now o.
  destruct (retrieval_cases o) as [[e F] | [r [html [-> [Hok Ht]]]]].
  - split; eexists.
    + rewrite (checkHibiyaLine_fails now F). split; [reflexivity|].
      cbn. split; [intros _; now exists e | reflexivity].
    + rewrite (checkKeiyoLine_fails now F). split; [reflexivity|].
      cbn. split; [intros _; left; now exists e | reflexivity].
  - split; eexists.
    + rewrite (checkHibiyaLine_page now r Hok Ht). split; [reflexivity|].
      cbn [Index.status]. split.
      * intros U. now apply hibiya_status_known in U.
      * intros [e F]. now apply (page_not_failing Hok Ht) in F.
    + rewrite (checkKeiyoLine_page now r Hok Ht). split; [reflexivity|].
      cbn [Index.status]. rewrite keiyo_status_unknown. split.
      * intros [D N]. right. now exists r, html.
      * intros [[e F] | [r' [html' [Er [_ [Ht' [D N]]]]]]].
        -- now apply (page_not_failing Hok Ht) in F.
        -- injection Er as <-. rewrite Ht in Ht'. injection Ht' as <-. now split.
Qed.

Lemma rejects_cases (o : FetchOutcome) :
  (exists e, Rejects o e) \/ (exists r html, o = Returned r /\ text r = Returned html).
Proof.
  destruct o as [r | e].
  - destruct (text r) as [html | e] eqn:Ht.
    + right. now exists r, html.
    + left. exists e. now constructor.
  - left. exists e. constructor.
Qed.

Lemma checkYahooTransit_rejects {H : Host} (key : CheckDelay.LineKey) (now : jsstring)
      (o : FetchOutcome) (e : JsThrown) :
  Rejects o e ->
  CheckDelay.checkYahooTransit key now o
  = Returned (CheckDelay.check_failed (CheckDelay.yahoo_lineName key)
                (CheckDelay.yahoo_operator key) now e).
Proof.
  intros R. unfold CheckDelay.checkYahooTransit.
  destruct R as [e | r e Ht]; cbn [cbind try_catch]; [reflexivity|].
  rewrite Ht. reflexivity.
Qed.

Lemma checkYahooTransit_page {H : Host} (key : CheckDelay.LineKey) (now : jsstring)
      (r : Response) (html : jsstring) :
  text r = Returned html ->
  CheckDelay.checkYahooTransit key now (Returned r)
  = Returned {|
        CheckDelay.line := CheckDelay.yahoo_lineName key;
        CheckDelay.operator := CheckDelay.yahoo_operator key;
        CheckDelay.status :=
          fst (CheckDelay.yahoo_classify
                 (or_else (select_text (js ".trouble") html)
                          (select_text (js "body") html)));
        CheckDelay.message :=
          snd (CheckDelay.yahoo_classify
                 (or_else (select_text (js ".trouble") html)
                          (select_text (js "body") html)));
        CheckDelay.timestamp := now |}.
Proof.
  intros Ht. unfold CheckDelay.checkYahooTransit. cbn [cbind try_catch].
  rewrite Ht. cbn [cbind]. destruct (CheckDelay.yahoo_classify _). reflexivity.
Qed.

Lemma worker_checkYahooTransit_rejects (key : Worker.LineKey) (now : jsstring)
      (o : FetchOutcome) (e : JsThrown) :
  Rejects o e ->
  Worker.checkYahooTransit key now o
  = Returned (Worker.check_failed (Worker.yahoo_lineName key)
                (Worker.yahoo_operator key) now e).
Proof.
  intros R. unfold Worker.checkYahooTransit.
  destruct R as [e | r e Ht]; cbn [cbind try_catch]; [reflexivity|].
  rewrite Ht. reflexivity.
Qed.

Lemma worker_checkYahooTransit_page (key : Worker.LineKey) (now : jsstring)
      (r : Response) (html : jsstring) :
  text r = Returned html ->
  Worker.checkYahooTransit key now (Returned r)
  = Returned {|
        Worker.line := Worker.yahoo_lineName key;
        Worker.operator := Worker.yahoo_operator key;
        Worker.status := fst (Worker.yahoo_classify (Worker.textContent_of html));
        Worker.message := snd (Worker.yahoo_classify (Worker.textContent_of html));
        Worker.timestamp := now |}.
Proof.
  intros Ht. unfold Worker.checkYahooTransit. cbn [cbind try_catch].
  rewrite Ht. cbn [cbind]. destruct (Worker.yahoo_classify _). reflexivity.
Qed.

Lemma page_not_rejecting (r : Response) (html : jsstring) (e : JsThrown) :
  text r = Returned html -> ~ Rejects (Returned r) e.
Proof. intros Ht R. inversion R; congruence. Qed.

(** X9: [checkYahooTransit], in check-delay.ts and in the worker, returns
    unknown exactly when [fetch] or the reading of the body rejects; it
    never looks at the status of the response, so a response that is not a
    success is classified by its body like any page. *)
Theorem yahoo_unknown_iff :
  (forall (H : Host) (key : CheckDelay.LineKey) (now : jsstring) (o : FetchOutcome),
      exists d,
        CheckDelay.checkYahooTransit key now o = Returned d
        /\ (CheckDelay.status d = unknown <-> exists e, Rejects o e))
  /\ (forall (key : Worker.LineKey) (now : jsstring) (o : FetchOutcome),
      exists d,
        Worker.checkYahooTransit key now o = Returned d
        /\ (Worker.status d = unknown <-> exists e, Rejects o e))
  /\ (forall (H : Host) (key : CheckDelay.LineKey) (now : jsstring) (r r' : Response),
      text r = text r' ->
      CheckDelay.checkYahooTransit key now (Returned r)
      = CheckDelay.checkYahooTransit key now (Returned r'))
  /\ (forall (key : Worker.LineKey) (now : jsstring) (r r' : Response),
      text r = text r' ->
      Worker.checkYahooTransit key now (Returned r)
      = Worker.checkYahooTransit key now (Returned r')).
Proof.
  split; [| split; [| split]].
  - intros H key now o.
    destruct (rejects_cases o) as [[e R] | [r [html [-> Ht]]]]; eexists.
    + rewrite (checkYahooTransit_rejects key now R). split; [reflexivity|].
      cbn. split; [intros _; now exists e | reflexivity].
    + rewrite (checkYahooTransit_page key now r Ht). split; [reflexivity|].
      cbn [CheckDelay.status]. rewrite yahoo_classify_status. split.
      * destruct (_ && _); discriminate.
      * intros [e R]. now apply (page_not_rejecting Ht) in R.
  - intros key now o.
    destruct (rejects_cases o) as [[e R] | [r [html [-> Ht]]]]; eexists.
    + rewrite (worker_checkYahooTransit_rejects key now R). split; [reflexivity|].
      cbn. split; [intros _; now exists e | reflexivity].
    + rewrite (worker_checkYahooTransit_page key now r Ht). split; [reflexivity|].
      cbn [Worker.status]. rewrite worker_classify_status. split.
      * destruct (_ && _); discriminate.
      * intros [e R]. now apply (page_not_rejecting Ht) in R.
  - intros H key now r r' E. unfold CheckDelay.checkYahooTransit.
    cbn [cbind try_catch]. now rewrite E.
  - intros key now r r' E. unfold Worker.checkYahooTransit.
    cbn [cbind try_catch]. now rewrite E.
Qed.

Lemma yahoo_unknown_iff_witness :
  @CheckDelay.checkYahooTransit plain_host CheckDelay.key_keiyo []
    (Returned {| ok := false; http_status := 503; text := Returned (js "Service Unavailable") |})
  = @CheckDelay.checkYahooTransit plain_host CheckDelay.key_keiyo []
      (Returned {| ok := true; http_status := 200; text := Returned (js "Service Unavailable") |}).
Proof.
  apply (proj1 (proj2 (proj2 yahoo_unknown_iff)) plain_host). reflexivity.
Defined.

(* ================================================================= *)
(** ** The checkers that log their failures *)

(** X10: [checkMetroHibiya] and [checkJRKeiyo] never reject.  When [fetch]
    or the reading of the body rejects, they print one error line that
    names the line and return status unknown with a message that shows the
    thrown value; on a retrieved page they print nothing and return delayed
    or normal. *)
Theorem direct_checkers_catch_failures :
  forall (H : Host) (now : jsstring) (o : FetchOutcome) (tr : list CheckDelay.Event),
    (forall e, Rejects o e ->
       CheckDelay.checkMetroHibiya now o tr
       = (tr ++ [CheckDelay.ConsoleError (js "Error checking 日比谷線:")
                   (Some (CheckDelay.ArgThrown e))],
          Returned {| CheckDelay.line := js "日比谷線";
                      CheckDelay.operator := js "東京メトロ";
                      CheckDelay.status := unknown;
                      CheckDelay.message := js "检查失败: " ++ to_display e;
                      CheckDelay.timestamp := now |})
       /\ CheckDelay.checkJRKeiyo now o tr
          = (tr ++ [CheckDelay.ConsoleError (js "Error checking 京葉線:")
                      (Some (CheckDelay.ArgThrown e))],
             Returned {| CheckDelay.line := js "京葉線";
                         CheckDelay.operator := js "JR東日本";
                         CheckDelay.status := unknown;
                         CheckDelay.message := js "检查失败: " ++ to_display e;
                         CheckDelay.timestamp := now |}))
    /\ (forall r html, o = Returned r -> text r = Returned html ->
        exists d d',
          CheckDelay.checkMetroHibiya now o tr = (tr, Returned d)
          /\ CheckDelay.checkJRKeiyo now o tr = (tr, Returned d')
          /\ (CheckDelay.status d = delayed \/ CheckDelay.status d = normal)
          /\ (CheckDelay.status d' = delayed \/ CheckDelay.status d' = normal)).
Proof.
  intros H now o tr. split.
  - intros e R. unfold CheckDelay.checkMetroHibiya, CheckDelay.checkJRKeiyo,
      catch, bind, lift, CheckDelay.console_error, emit, ret.
    destruct R as [e | r e Ht]; [split; reflexivity|].
    rewrite Ht. split; reflexivity.
  - intros r html -> Ht.
    unfold CheckDelay.checkMetroHibiya, CheckDelay.checkJRKeiyo,
      catch, bind, lift, ret. rewrite Ht.
    pose proof (metro_classify_status (select_text (js "body") html)) as Sm.
    pose proof (jr_classify_status (select_text (js "body") html)) as Sj.
    destruct (CheckDelay.metro_classify _) as [sm mm].
    destruct (CheckDelay.jr_classify _) as [sj mj].
    cbn [fst] in Sm, Sj. do 2 eexists.
    split; [reflexivity|]. split; [reflexivity|]. cbn [CheckDelay.status]. split.
    + rewrite Sm. destruct (existsb _ CheckDelay.metro_delay_words); auto.
    + rewrite Sj. destruct (_ && _); auto.
Qed.

Lemma direct_checkers_catch_failures_witness :
  @CheckDelay.checkJRKeiyo plain_host (js "2024-01-15T09:20:00.000Z") (Thrown boom) []
  = ([CheckDelay.ConsoleError (js "Error checking 京葉線:")
        (Some (CheckDelay.ArgThrown boom))],
     Returned {| CheckDelay.line := js "京葉線";
                 CheckDelay.operator := js "JR東日本";
                 CheckDelay.status := unknown;
                 CheckDelay.message := js "检查失败: " ++ to_display boom;
                 CheckDelay.timestamp := js "2024-01-15T09:20:00.000Z" |}).
Proof.
  exact (proj2 (proj1 (direct_checkers_catch_failures plain_host
                         (js "2024-01-15T09:20:00.000Z") (Thrown boom) [])
                 boom (rejects_fetch boom))).
Defined.

(* ================================================================= *)
(** ** Messages are never empty *)

Lemma app_nonempty_l {A} (a b : list A) : a <> [] -> a ++ b <> [].
Proof. destruct a; [congruence | discriminate]. Qed.

Lemma app_nonempty_r {A} (a b : list A) : b <> [] -> a ++ b <> [].
Proof. destruct a; [easy | discriminate]. Qed.

Lemma substring0_nonempty (n : nat) (s : jsstring) :
  s <> [] -> substring0 (S n) s <> [].
Proof. destruct s; [congruence | discriminate]. Qed.

Lemma includes_nonempty (kws : list jsstring) (s : jsstring) :
  existsb (includes s) kws = true -> forallb (fun kw => negb (Index.is_empty kw)) kws = true ->
  s <> [].
Proof.
  intros Hi Hk ->. apply existsb_exists in Hi. destruct Hi as [kw [I C]].
  rewrite forallb_forall in Hk. specialize (Hk kw I).
  destruct kw; [discriminate Hk | discriminate C].
Qed.

Lemma keiyo_message_nonempty (txt info : jsstring) :
  snd (Index.keiyo_classify txt info) <> [].
Proof.
  destruct (existsb (includes txt) Index.keiyo_delayKeywords) eqn:E.
  - destruct (find_of_existsb _ _ E) as [kw [F _]]. rewrite (keiyo_classify_hit _ _ F).
    cbn [snd]. destruct (trim info); cbn [or_else]; [| discriminate].
    apply app_nonempty_r. vm_compute. discriminate.
  - rewrite (keiyo_classify_miss _ _ E).
    destruct (existsb _ Index.keiyo_normalKeywords); vm_compute; discriminate.
Qed.

Lemma hibiya_message_nonempty (txt : jsstring) :
  snd (Index.hibiya_classify txt) <> [].
Proof.
  destruct (existsb (includes txt) Index.hibiya_delayKeywords) eqn:E.
  - destruct (find_of_existsb _ _ E) as [kw [F _]]. rewrite (hibiya_classify_hit _ F).
    cbn [snd]. apply app_nonempty_r. vm_compute. discriminate.
  - rewrite (hibiya_classify_miss _ E).
    destruct (existsb _ Index.hibiya_normalKeywords); vm_compute; discriminate.
Qed.

Lemma yahoo_message_nonempty (area : jsstring) :
  snd (CheckDelay.yahoo_classify area) <> [].
Proof.
  unfold CheckDelay.yahoo_classify. rewrite re_test_any_includes.
  destruct (existsb (includes area) CheckDelay.yahoo_delay_words) eqn:E; cbn [andb].
  - destruct (negb _); cbn [snd]; [| vm_compute; discriminate].
    apply substring0_nonempty. exact (@includes_nonempty _ _ E eq_refl).
  - vm_compute. discriminate.
Qed.

Lemma worker_message_nonempty (html : jsstring) :
  snd (Worker.yahoo_classify (Worker.textContent_of html)) <> [].
Proof.
  set (t := Worker.textContent_of html).
  assert (Hss : single_spaced t = true) by apply collapse_single_spaced.
  assert (Hps : plain_spaces t = true) by apply collapse_plain_spaces.
  unfold Worker.yahoo_classify. rewrite re_test_any_includes.
  destruct (existsb _ Worker.yahoo_delay_words) eqn:E; cbn [andb].
  - destruct (negb _); cbn [snd]; [| vm_compute; discriminate].
    rewrite (worker_search_whole t Hss Hps E).
    unfold group1. cbn [fst snd List.length]. rewrite Nat.sub_0_r, firstn_all.
    apply substring0_nonempty. exact (@includes_nonempty _ _ E eq_refl).
  - vm_compute. discriminate.
Qed.

(** X11: every status that a checker run by the three programs returns,
    whatever the retrieval does, carries the name and the operator of its
    line and a message that is not empty. *)
Theorem statuses_are_labelled :
  (forall (H : Host) (now : Index.Date) (o : FetchOutcome),
      (exists ls, Index.checkKeiyoLine now o = Returned ls
                  /\ Index.lineName ls = js "京葉線"
                  /\ Index.operator ls = js "JR東日本"
                  /\ Index.message ls <> [])
      /\ (exists ls, Index.checkHibiyaLine now o = Returned ls
                     /\ Index.lineName ls = js "日比谷線"
                     /\ Index.operator ls = js "東京メトロ"
                     /\ Index.message ls <> []))
  /\ (forall (H : Host) (key : CheckDelay.LineKey) (now : jsstring) (o : FetchOutcome),
      exists d, CheckDelay.checkYahooTransit key now o = Returned d
                /\ CheckDelay.line d = CheckDelay.yahoo_lineName key
                /\ CheckDelay.operator d = CheckDelay.yahoo_operator key
                /\ CheckDelay.message d <> [])
  /\ (forall (key : Worker.LineKey) (now : jsstring) (o : FetchOutcome),
      exists d, Worker.checkYahooTransit key now o = Returned d
                /\ Worker.line d = Worker.yahoo_lineName key
                /\ Worker.operator d = Worker.yahoo_operator key
                /\ Worker.message d <> []).
Proof.
  split; [| split].
  - intros H now o.
    destruct (retrieval_cases o) as [[e F] | [r [html [-> [Hok Ht]]]]]; split; eexists.
    + rewrite (checkKeiyoLine_fails now F). repeat split.
      cbn [Index.message Index.check_failed]. apply app_nonempty_l. vm_compute. discriminate.
    + rewrite (checkHibiyaLine_fails now F). repeat split.
      cbn [Index.message Index.check_failed]. apply app_nonempty_l. vm_compute. discriminate.
    + rewrite (checkKeiyoLine_page now r Hok Ht). repeat split.
      apply keiyo_message_nonempty.
    + rewrite (checkHibiyaLine_page now r Hok Ht). repeat split.
      apply hibiya_message_nonempty.
  - intros H key now o.
    destruct (rejects_cases o) as [[e R] | [r [html [-> Ht]]]]; eexists.
    + rewrite (checkYahooTransit_rejects key now R). repeat split.
      cbn [CheckDelay.message CheckDelay.check_failed].
      apply app_nonempty_l. vm_compute. discriminate.
    + rewrite (checkYahooTransit_page key now r Ht). repeat split.
      apply yahoo_message_nonempty.
  - intros key now o.
    destruct (rejects_cases o) as [[e R] | [r [html [-> Ht]]]]; eexists.
    + rewrite (worker_checkYahooTransit_rejects key now R). repeat split.
      cbn [Worker.message Worker.check_failed].
      apply app_nonempty_l. vm_compute. discriminate.
    + rewrite (worker_checkYahooTransit_page key now r Ht). repeat split.
      apply worker_message_nonempty.
Qed.

(* ================================================================= *)
(** ** Every run *)

(** A run of index.ts, whatever its inputs. *)
Lemma index_program_cases {H : Host} (w : Index.World) :
  exists k h tr,
    Index.checkKeiyoLine (Index.keiyo_time w) (Index.keiyo_fetch w) = Returned k
    /\ Index.checkHibiyaLine (Index.hibiya_time w) (Index.hibiya_fetch w) = Returned h
    /\ run (Index.program w) = (tr, Returned tt)
    /\ (sent_mails tr = []
        \/ (existsb Index.notifiable [k; h] = true
            /\ sent_mails tr
               = [(Index.transporter (Index.CONFIG_email (Index.env w)),
                   Index.mail_of w (Index.CONFIG_email (Index.env w))
                     {| Index.hasDelay := existsb Index.notifiable [k; h];
                        Index.lines := [k; h] |})])).
Proof.
  destruct (checkKeiyoLine_returns (Index.keiyo_time w) (Index.keiyo_fetch w)) as [k Hk].
  destruct (checkHibiyaLine_returns (Index.hibiya_time w) (Index.hibiya_fetch w)) as [h Hh].
  exists k, h.
  set (result := {| Index.hasDelay := existsb Index.notifiable [k; h];
                    Index.lines := [k; h] |}).
  destruct (existsb Index.notifiable [k; h]) eqn:Hd.
  - destruct (main_alert w Hk Hh) as [pre [Hpre Hrun]]; [exact Hd|].
    fold result in Hrun. rewrite Hd in Hrun. fold result.
    destruct (incomplete (Index.env w)) eqn:Hi.
    + rewrite (sendEmail_incomplete w _ pre Hi) in Hrun.
      eexists. rewrite program_run, Hrun. repeat split; try assumption.
      left. now rewrite !sent_mails_app, Hpre.
    + rewrite (sendEmail_complete w _ pre Hi) in Hrun. cbv zeta in Hrun.
      destruct (Index.sendMail_outcome w _ _) as [[] | e];
        eexists; rewrite program_run, Hrun; (repeat split; try assumption);
        right; (split; [reflexivity|]); rewrite !sent_mails_app, Hpre; reflexivity.
  - destruct (main_quiet w Hk Hh) as [tr [Hrun Hs]]; [exact Hd|].
    exists tr. rewrite program_run, Hrun. repeat split; try assumption. now left.
Qed.

Lemma yahoo_returns_named {H : Host} (key : CheckDelay.LineKey) (now : jsstring)
      (o : FetchOutcome) :
  exists d, CheckDelay.checkYahooTransit key now o = Returned d
            /\ CheckDelay.line d = CheckDelay.yahoo_lineName key.
Proof.
  destruct (rejects_cases o) as [[e R] | [r [html [-> Ht]]]]; eexists.
  - rewrite (checkYahooTransit_rejects key now R). split; reflexivity.
  - rewrite (checkYahooTransit_page key now r Ht). split; reflexivity.
Qed.

Lemma worker_returns_named (key : Worker.LineKey) (now : jsstring) (o : FetchOutcome) :
  exists d, Worker.checkYahooTransit key now o = Returned d
            /\ Worker.line d = Worker.yahoo_lineName key.
Proof.
  destruct (rejects_cases o) as [[e R] | [r [html [-> Ht]]]]; eexists.
  - rewrite (worker_checkYahooTransit_rejects key now R). split; reflexivity.
  - rewrite (worker_checkYahooTransit_page key now r Ht). split; reflexivity.
Qed.

(** A run of check-delay.ts, whatever its inputs. *)
Lemma cd_program_cases {H : Host} (w : CheckDelay.World) :
  exists a b tr,
    CheckDelay.check_all w = Returned [a; b]
    /\ CheckDelay.line a = js "日比谷線" /\ CheckDelay.line b = js "京葉線"
    /\ run (CheckDelay.main w) = (tr, Returned tt)
    /\ run (CheckDelay.program w) = (tr, Returned tt)
    /\ (posted tr = []
        \/ (CheckDelay.hasDelays [a; b] = true
            /\ posted tr = [CheckDelay.request_of w [a; b]])).
Proof.
  destruct (yahoo_returns_named CheckDelay.key_hibiya
              (CheckDelay.hibiya_time w) (CheckDelay.hibiya_fetch w)) as [a [Ha La]].
  destruct (yahoo_returns_named CheckDelay.key_keiyo
              (CheckDelay.keiyo_time w) (CheckDelay.keiyo_fetch w)) as [b [Hb Lb]].
  exists a, b.
  assert (Hprog : forall tr, run (CheckDelay.main w) = (tr, Returned tt) ->
                             run (CheckDelay.program w) = (tr, Returned tt)).
  { intros tr Hm. unfold run, CheckDelay.program, catch. unfold run in Hm. now rewrite Hm. }
  destruct (CheckDelay.hasDelays [a; b]) eqn:Hd.
  - destruct (cd_main_alert w Ha Hb Hd) as [pre [Hpre Hrun]].
    destruct (falsy (CheckDelay.RESEND_API_KEY (CheckDelay.env w))
              || falsy (CheckDelay.TO_EMAIL (CheckDelay.env w))) eqn:Hm.
    + rewrite (cd_sendEmail_missing w [a; b] pre Hm) in Hrun.
      eexists. repeat split; try eassumption; try (apply Hprog; eassumption).
      * exact (cd_check_all w Ha Hb).
      * left. now rewrite posted_app, Hpre.
    + rewrite (cd_sendEmail_posts w [a; b] pre Hm Hd) in Hrun.
      eexists. repeat split; try eassumption; try (apply Hprog; eassumption).
      * exact (cd_check_all w Ha Hb).
      * right. split; [reflexivity|]. rewrite posted_app, Hpre.
        unfold post_report. cbn [app posted].
        destruct (CheckDelay.post_outcome w _ _) as [r | e]; [| reflexivity].
        destruct (ok r); [reflexivity|]. destruct (text r); reflexivity.
  - destruct (cd_main_quiet w Ha Hb Hd) as [tr [Hrun Hp]].
    exists tr. repeat split; try assumption; try (now apply Hprog).
    + exact (cd_check_all w Ha Hb).
    + now left.
Qed.

(** A run of the worker, whatever its inputs. *)
Lemma wk_run_cases (w : Worker.World) (env : Worker.Env) :
  exists a b tr,
    Worker.check_all w = Returned [a; b]
    /\ Worker.line a = js "日比谷線" /\ Worker.line b = js "京葉線"
    /\ run (Worker.checkTrainDelays w env)
       = (tr, Returned (if Worker.hasDelays [a; b]
                        then js "Delays detected: "
                             ++ join (js ", ")
                                  (map Worker.line (filter Worker.is_delayed [a; b]))
                        else js "All lines running normally"))
    /\ (worker_posted tr = []
        \/ (Worker.hasDelays [a; b] = true
            /\ worker_posted tr = [Worker.request_of w env [a; b]])).
Proof.
  destruct (worker_returns_named Worker.key_hibiya
              (Worker.hibiya_time w) (Worker.hibiya_fetch w)) as [a [Ha La]].
  destruct (worker_returns_named Worker.key_keiyo
              (Worker.keiyo_time w) (Worker.keiyo_fetch w)) as [b [Hb Lb]].
  exists a, b.
  destruct (Worker.hasDelays [a; b]) eqn:Hd.
  - destruct (wk_main_alert w env Ha Hb Hd) as [pre [Hpre Hrun]].
    destruct (falsy (Worker.RESEND_API_KEY env) || falsy (Worker.TO_EMAIL env)) eqn:Hm.
    + rewrite (wk_sendEmail_missing w env [a; b] pre Hm) in Hrun.
      eexists. repeat split; try eassumption.
      * exact (wk_check_all w Ha Hb).
      * left. now rewrite worker_posted_app, Hpre.
    + rewrite (wk_sendEmail_posts w env [a; b] pre Hm Hd) in Hrun.
      eexists. repeat split; try eassumption.
      * exact (wk_check_all w Ha Hb).
      * right. split; [reflexivity|]. rewrite worker_posted_app, Hpre.
        unfold worker_post_report. cbn [app worker_posted].
        destruct (Worker.post_outcome w _ _) as [r | e]; [| reflexivity].
        destruct (ok r); [reflexivity|]. destruct (text r); reflexivity.
  - destruct (wk_main_quiet w env Ha Hb Hd) as [tr [Hrun Hp]].
    exists tr. repeat split; try assumption.
    + exact (wk_check_all w Ha Hb).
    + now left.
Qed.

(** X12: every run ends normally, whatever the pages, the environment and
    the mail service do, and sends at most one message: the program of
    index.ts and of check-delay.ts complete without a thrown value (in
    check-delay.ts already [main] does), and [checkTrainDelays] of the
    worker returns its summary. *)
Theorem every_run_ends_normally :
  (forall (H : Host) (w : Index.World),
      snd (run (Index.program w)) = Returned tt
      /\ List.length (sent_mails (fst (run (Index.program w)))) <= 1)
  /\ (forall (H : Host) (w : CheckDelay.World),
      snd (run (CheckDelay.main w)) = Returned tt
      /\ snd (run (CheckDelay.program w)) = Returned tt
      /\ List.length (posted (fst (run (CheckDelay.program w)))) <= 1)
  /\ (forall (w : Worker.World) (env : Worker.Env),
      (exists summary, snd (run (Worker.checkTrainDelays w env)) = Returned summary)
      /\ List.length (worker_posted (fst (run (Worker.checkTrainDelays w env)))) <= 1).
Proof.
  split; [| split].
  - intros H w. destruct (index_program_cases w) as [k [h [tr [_ [_ [Hrun Hs]]]]]].
    rewrite Hrun. cbn [fst snd]. split; [reflexivity|].
    destruct Hs as [-> | [_ ->]]; cbn [List.length]; lia.
  - intros H w.
    destruct (cd_program_cases w) as [a [b [tr [_ [_ [_ [Hmain [Hrun Hs]]]]]]]].
    rewrite Hmain, Hrun. cbn [fst snd]. repeat split.
    destruct Hs as [-> | [_ ->]]; cbn [List.length]; lia.
  - intros w env. destruct (wk_run_cases w env) as [a [b [tr [_ [_ [_ [Hrun Hs]]]]]]].
    rewrite Hrun. cbn [fst snd]. split; [eexists; reflexivity|].
    destruct Hs as [-> | [_ ->]]; cbn [List.length]; lia.
Qed.

Lemma single_mail {A} (x y : A) : In x [y] -> x = y.
Proof. intros [E | []]. now symmetry. Qed.

(** X13: whatever the pages say, the subject of a message sent by a run is
    the heading followed by one line name or by both: 京葉線 before 日比谷線
    in index.ts, 日比谷線 before 京葉線 in check-delay.ts and in the worker.
    No message is sent with an empty list of lines. *)
Theorem subjects_of_a_run :
  (forall (H : Host) (w : Index.World) (t : Index.Transport) (m : Index.MailOptions),
      In (t, m) (sent_mails (fst (run (Index.program w)))) ->
      Index.mail_subject m = js "🚃 電車遅延アラート: 京葉線"
      \/ Index.mail_subject m = js "🚃 電車遅延アラート: 日比谷線"
      \/ Index.mail_subject m = js "🚃 電車遅延アラート: 京葉線, 日比谷線")
  /\ (forall (H : Host) (w : CheckDelay.World) (r : CheckDelay.Request),
      In r (posted (fst (run (CheckDelay.program w)))) ->
      CheckDelay.mail_subject (CheckDelay.req_body r) = js "🚃 電車遅延通知: 日比谷線"
      \/ CheckDelay.mail_subject (CheckDelay.req_body r) = js "🚃 電車遅延通知: 京葉線"
      \/ CheckDelay.mail_subject (CheckDelay.req_body r)
         = js "🚃 電車遅延通知: 日比谷線, 京葉線")
  /\ (forall (w : Worker.World) (env : Worker.Env) (r : Worker.Request),
      In r (worker_posted (fst (run (Worker.checkTrainDelays w env)))) ->
      Worker.mail_subject (Worker.req_body r) = js "🚃 電車遅延通知: 日比谷線"
      \/ Worker.mail_subject (Worker.req_body r) = js "🚃 電車遅延通知: 京葉線"
      \/ Worker.mail_subject (Worker.req_body r) = js "🚃 電車遅延通知: 日比谷線, 京葉線").
Proof.
  split; [| split].
  - intros H w t m I.
    destruct (index_program_cases w) as [k [h [tr [Hk [Hh [Hrun Hs]]]]]].
    rewrite Hrun in I. cbn [fst] in I.
    destruct Hs as [Hs | [Hd Hs]]; rewrite Hs in I; [contradiction|].
    apply single_mail in I. injection I as _ ->.
    destruct (checker_line_names _ _ _ _ Hk Hh) as [Nk Nh].
    cbn [Index.mail_subject Index.mail_of].
    unfold Index.subject_of, Index.delayedLines. cbn [Index.lines filter].
    cbn [existsb] in Hd.
    destruct (Index.notifiable k), (Index.notifiable h); cbn [map]; rewrite ?Nk, ?Nh.
    + right. right. reflexivity.
    + left. reflexivity.
    + right. left. reflexivity.
    + discriminate Hd.
  - intros H w r I.
    destruct (cd_program_cases w) as [a [b [tr [_ [La [Lb [_ [Hrun Hs]]]]]]]].
    rewrite Hrun in I. cbn [fst] in I.
    destruct Hs as [Hs | [Hd Hs]]; rewrite Hs in I; [contradiction|].
    apply single_mail in I. subst r.
    cbn [CheckDelay.mail_subject CheckDelay.req_body CheckDelay.request_of].
    unfold CheckDelay.subject_of. cbn [filter].
    unfold CheckDelay.hasDelays in Hd. cbn [existsb] in Hd.
    destruct (CheckDelay.is_delayed a), (CheckDelay.is_delayed b);
      cbn [map]; rewrite ?La, ?Lb.
    + right. right. reflexivity.
    + left. reflexivity.
    + right. left. reflexivity.
    + discriminate Hd.
  - intros w env r I.
    destruct (wk_run_cases w env) as [a [b [tr [_ [La [Lb [Hrun Hs]]]]]]].
    rewrite Hrun in I. cbn [fst] in I.
    destruct Hs as [Hs | [Hd Hs]]; rewrite Hs in I; [contradiction|].
    apply single_mail in I. subst r.
    cbn [Worker.mail_subject Worker.req_body Worker.request_of].
    unfold Worker.subject_of. cbn [filter].
    unfold Worker.hasDelays in Hd. cbn [existsb] in Hd.
    destruct (Worker.is_delayed a), (Worker.is_delayed b); cbn [map]; rewrite ?La, ?Lb.
    + right. right. reflexivity.
    + left. reflexivity.
    + right. left. reflexivity.
    + discriminate Hd.
Qed.

Lemma subjects_of_a_run_witness :
  exists r,
    In r (posted (fst (run (@CheckDelay.program plain_host
                             (cd_delay_run cd_env (Thrown boom))))))
    /\ (CheckDelay.mail_subject (CheckDelay.req_body r) = js "🚃 電車遅延通知: 日比谷線"
        \/ CheckDelay.mail_subject (CheckDelay.req_body r) = js "🚃 電車遅延通知: 京葉線"
        \/ CheckDelay.mail_subject (CheckDelay.req_body r)
           = js "🚃 電車遅延通知: 日比谷線, 京葉線").
Proof.
  assert (I : In (CheckDelay.request_of (cd_delay_run cd_env (Thrown boom))
                    [{| CheckDelay.line := js "日比谷線";
                        CheckDelay.operator := js "東京メトロ";
                        CheckDelay.status := normal;
                        CheckDelay.message := js "平常運転";
                        CheckDelay.timestamp := js "2024-01-15T09:20:00.000Z" |};
                     {| CheckDelay.line := js "京葉線";
                        CheckDelay.operator := js "JR東日本";
                        CheckDelay.status := delayed;
                        CheckDelay.message := js "京葉線は強風の影響で、一部列車に遅れが出ています";
                        CheckDelay.timestamp := js "2024-01-15T09:20:00.000Z" |}])
                (posted (fst (run (@CheckDelay.program plain_host
                                     (cd_delay_run cd_env (Thrown boom))))))).
  { vm_compute. left. reflexivity. }
  eexists. split; [exact I|].
  exact (proj1 (proj2 subjects_of_a_run) plain_host _ _ I).
Defined.

(** X14: the summary that [checkTrainDelays] returns depends only on the
    statuses of the two lines: it names the delayed lines, 日比谷線 first,
    or says that all lines run normally, which it also does when a line is
    unknown.  The mail settings and the outcome of the POST do not change
    it. *)
Theorem worker_summary :
  forall (w : Worker.World) (env : Worker.Env),
    exists a b,
      Worker.check_all w = Returned [a; b]
      /\ snd (run (Worker.checkTrainDelays w env))
         = Returned (if Worker.is_delayed a
                     then if Worker.is_delayed b
                          then js "Delays detected: 日比谷線, 京葉線"
                          else js "Delays detected: 日比谷線"
                     else if Worker.is_delayed b
                          then js "Delays detected: 京葉線"
                          else js "All lines running normally").
Proof.
  intros w env. destruct (wk_run_cases w env) as [a [b [tr [Hc [La [Lb [Hrun _]]]]]]].
  exists a, b. split; [exact Hc|]. rewrite Hrun. cbn [snd]. f_equal.
  unfold Worker.hasDelays. cbn [existsb filter].
  destruct (Worker.is_delayed a), (Worker.is_delayed b); cbn [map orb];
    rewrite ?La, ?Lb; reflexivity.
Qed.

Lemma filter_none {A} (p : A -> bool) (l : list A) :
  (forall x, In x l -> p x = false) -> filter p l = [].
Proof.
  induction l as [|a l IH]; intros Hn; [reflexivity|].
  cbn [filter]. rewrite (Hn a (or_introl eq_refl)). apply IH.
  intros x I. apply Hn. now right.
Qed.

Lemma not_delayed (s : Status) : s <> delayed -> status_eqb s delayed = false.
Proof. destruct s; intros N; try reflexivity. contradiction. Qed.

(** X15: [sendEmail] of check-delay.ts and of the worker, called with
    complete mail settings and a list in which no line is delayed (empty,
    or with normal, unknown or suspended lines only), prints that it skips
    the mail and posts nothing: a suspended line alone is never mailed. *)
Theorem sendEmail_skips_without_delayed :
  (forall (w : CheckDelay.World) (delays : list CheckDelay.DelayInfo)
          (tr : list CheckDelay.Event),
      falsy (CheckDelay.RESEND_API_KEY (CheckDelay.env w))
      || falsy (CheckDelay.TO_EMAIL (CheckDelay.env w)) = false ->
      (forall d, In d delays -> CheckDelay.status d <> delayed) ->
      CheckDelay.sendEmail w delays tr
      = (tr ++ [CheckDelay.ConsoleLog (js "No delays detected, skipping email")],
         Returned tt))
  /\ (forall (w : Worker.World) (env : Worker.Env) (delays : list Worker.DelayInfo)
             (tr : list Worker.Event),
      falsy (Worker.RESEND_API_KEY env) || falsy (Worker.TO_EMAIL env) = false ->
      (forall d, In d delays -> Worker.status d <> delayed) ->
      Worker.sendEmail w env delays tr
      = (tr ++ [Worker.ConsoleLog (js "No delays detected, skipping email")],
         Returned tt)).
Proof.
  split.
  - intros w delays tr Hc Hn. unfold CheckDelay.sendEmail. rewrite Hc. cbv zeta.
    rewrite filter_none; [reflexivity|].
    intros d I. apply not_delayed. now apply Hn.
  - intros w env delays tr Hc Hn. unfold Worker.sendEmail. rewrite Hc. cbv zeta.
    rewrite filter_none; [reflexivity|].
    intros d I. apply not_delayed. now apply Hn.
Qed.

Lemma sendEmail_skips_without_delayed_witness :
  CheckDelay.sendEmail (cd_delay_run cd_env (Thrown boom))
    [{| CheckDelay.line := js "京葉線"; CheckDelay.operator := js "JR東日本";
        CheckDelay.status := suspended; CheckDelay.message := js "運休";
        CheckDelay.timestamp := [] |}] []
  = ([CheckDelay.ConsoleLog (js "No delays detected, skipping email")], Returned tt).
Proof.
  apply (proj1 sendEmail_skips_without_delayed (cd_delay_run cd_env (Thrown boom)) _ []).
  - vm_compute. reflexivity.
  - intros d [<- | []]. discriminate.
Defined.

(* ================================================================= *)
(** ** What the mail bodies contain *)

Unset Implicit Arguments.

Lemma Occurs_here (x post : jsstring) : Occurs x (x ++ post).
Proof. now exists [], post. Qed.

Lemma Occurs_self (x : jsstring) : Occurs x x.
Proof. exists [], []. now rewrite app_nil_r. Qed.

Lemma Occurs_app_r (x a b : jsstring) : Occurs x b -> Occurs x (a ++ b).
Proof.
  intros [pre [post ->]]. exists (a ++ pre), post. now rewrite <- app_assoc.
Qed.

Lemma Occurs_app_l (x a b : jsstring) : Occurs x a -> Occurs x (a ++ b).
Proof.
  intros [pre [post ->]]. exists pre, (post ++ b). now rewrite <- !app_assoc.
Qed.

Lemma Occurs_cons (x : jsstring) (c : char16) (b : jsstring) :
  Occurs x b -> Occurs x (c :: b).
Proof. intros O. exact (Occurs_app_r x [c] b O). Qed.

Lemma Occurs_trans (x y z : jsstring) : Occurs x y -> Occurs y z -> Occurs x z.
Proof.
  intros [p1 [q1 ->]] [p2 [q2 ->]]. exists (p2 ++ p1), (q1 ++ q2).
  now rewrite <- !app_assoc.
Qed.

Lemma Occurs_join {A} (f : A -> jsstring) (sep : jsstring) (l : list A) (x : A) :
  In x l -> Occurs (f x) (join sep (map f l)).
Proof.
  induction l as [|a l IH]; [contradiction|].
  intros I. cbn [map]. destruct l as [|b l].
  - destruct I as [-> | []]. apply Occurs_self.
  - change (join sep (f a :: map f (b :: l)))
      with (f a ++ sep ++ join sep (map f (b :: l))).
    destruct I as [-> | I]; [apply Occurs_here|].
    now apply Occurs_app_r, Occurs_app_r, IH.
Qed.

Lemma trimStart_spaces (a rest : jsstring) (x : char16) :
  forallb is_space a = true -> is_space x = false ->
  trimStart (a ++ x :: rest) = x :: rest.
Proof.
  intros Ha Hx. induction a as [|c a IH]; cbn [app trimStart].
  - now rewrite Hx.
  - cbn [forallb] in Ha. apply andb_true_iff in Ha. destruct Ha as [Hc Ha].
    rewrite Hc. now apply IH.
Qed.

(** [trim] of a text that is wrapped in white space. *)
Lemma trim_wrapped (a b mid : jsstring) (x y : char16) :
  forallb is_space a = true -> forallb is_space b = true ->
  is_space x = false -> is_space y = false ->
  trim (a ++ x :: mid ++ y :: b) = x :: mid ++ [y].
Proof.
  intros Ha Hb Hx Hy. unfold trim, trimEnd.
  rewrite (trimStart_spaces a _ x Ha Hx).
  change (x :: mid ++ y :: b) with ((x :: mid) ++ y :: b).
  rewrite rev_app_distr. cbn [rev]. rewrite <- app_assoc. cbn [app].
  rewrite trimStart_spaces; [| | exact Hy].
  - change (y :: rev mid ++ [x]) with ([y] ++ rev (x :: mid)).
    rewrite rev_app_distr, rev_involutive. reflexivity.
  - rewrite forallb_forall in Hb |- *. intros c I. apply Hb. now apply in_rev.
Qed.

Lemma trim_wrapped_parts (a b hd r1 r2 r3 tl : jsstring) (x y : char16) :
  forallb is_space a = true -> forallb is_space b = true ->
  is_space x = false -> is_space y = false ->
  trim ((a ++ x :: hd) ++ r1 ++ r2 ++ r3 ++ tl ++ y :: b)
  = (x :: hd) ++ r1 ++ r2 ++ r3 ++ tl ++ [y].
Proof.
  intros Ha Hb Hx Hy.
  assert (E : (a ++ x :: hd) ++ r1 ++ r2 ++ r3 ++ tl ++ y :: b
              = a ++ x :: (hd ++ r1 ++ r2 ++ r3 ++ tl) ++ y :: b).
  { rewrite <- !app_assoc. reflexivity. }
  rewrite E, (trim_wrapped a b _ x y Ha Hb Hx Hy).
  cbn [app]. now rewrite <- ?app_assoc.
Qed.

Lemma trim_parts (a b hd r1 r2 r3 tl : jsstring) (x y : char16) (h t : jsstring) :
  h = a ++ x :: hd -> t = tl ++ y :: b ->
  forallb is_space a = true -> forallb is_space b = true ->
  is_space x = false -> is_space y = false ->
  trim (h ++ r1 ++ r2 ++ r3 ++ t)
  = (x :: hd) ++ r1 ++ r2 ++ r3 ++ tl ++ [y].
Proof.
  intros -> -> Ha Hb Hx Hy. now apply trim_wrapped_parts.
Qed.

(** The HTML body of index.ts without the white space that [trim] removes. *)
Lemma htmlBody_shape (w : Index.World) (result : Index.CheckResult) :
  exists head middle tail,
    Index.htmlBody w result
    = (js "<!DOCTYPE html>" ++ head)
      ++ join [] (map Index.html_row (Index.lines result))
      ++ middle ++ Index.mail_time_text w ++ tail ++ js "</html>".
Proof.
  unfold Index.htmlBody.
  match goal with
  | |- context [trim (?h ++ ?rows ++ ?t0 ++ ?time ++ ?t1)] =>
      exists (skipn 16 h), t0, (firstn (List.length t1 - 10) t1);
      refine (eq_trans
                (trim_parts [10%N] [10%N; 32%N; 32%N]
                   (js "!DOCTYPE html>" ++ skipn 16 h) rows t0 time
                   (firstn (List.length t1 - 10) t1 ++ js "</html")
                   60%N 62%N h t1 _ _ eq_refl eq_refl eq_refl eq_refl) _)
  end.
  - vm_compute; reflexivity.
  - vm_compute; reflexivity.
  - assert (E1 : js "<!DOCTYPE html>" = 60%N :: js "!DOCTYPE html>")
      by (vm_compute; reflexivity).
    assert (E2 : js "</html>" = js "</html" ++ [62%N])
      by (vm_compute; reflexivity).
    rewrite E1, E2. cbn [app]. rewrite <- ?app_assoc. reflexivity.
Qed.

Ltac occurs_in_parts :=
  repeat first [ apply Occurs_here | apply Occurs_self | apply Occurs_app_r ].

Lemma index_row_quotes (l : Index.LineStatus) :
  Occurs (Index.message l) (Index.html_row l)
  /\ Occurs (Index.lineName l) (Index.html_row l)
  /\ Occurs (Index.operator l) (Index.html_row l).
Proof. unfold Index.html_row. repeat split; occurs_in_parts. Qed.

Lemma cd_row_quotes (d : CheckDelay.DelayInfo) :
  Occurs (CheckDelay.message d) (CheckDelay.html_row d)
  /\ Occurs (CheckDelay.line d) (CheckDelay.html_row d)
  /\ Occurs (CheckDelay.operator d) (CheckDelay.html_row d).
Proof. unfold CheckDelay.html_row. repeat split; occurs_in_parts. Qed.

Lemma wk_row_quotes (d : Worker.DelayInfo) :
  Occurs (Worker.message d) (Worker.html_row d)
  /\ Occurs (Worker.line d) (Worker.html_row d)
  /\ Occurs (Worker.operator d) (Worker.html_row d).
Proof. unfold Worker.html_row. repeat split; occurs_in_parts. Qed.

(** X16: the mail bodies quote the checkers' results as they are, with no
    escaping.  In index.ts the HTML body starts with the doctype and ends
    with the closing html tag, and it and the text body contain the
    message, the name and the operator of every line of the result; in
    check-delay.ts and in the worker the HTML body contains the message,
    the name and the operator of every line whose status is delayed. *)
Theorem mail_bodies_quote_results :
  (forall (w : Index.World) (result : Index.CheckResult),
      is_prefix (js "<!DOCTYPE html>") (Index.htmlBody w result) = true
      /\ (exists before, Index.htmlBody w result = before ++ js "</html>")
      /\ (forall l, In l (Index.lines result) ->
            Occurs (Index.message l) (Index.htmlBody w result)
            /\ Occurs (Index.lineName l) (Index.htmlBody w result)
            /\ Occurs (Index.operator l) (Index.htmlBody w result)
            /\ Occurs (Index.message l) (Index.textBody result)
            /\ Occurs (Index.lineName l) (Index.textBody result)))
  /\ (forall (w : CheckDelay.World) (delays : list CheckDelay.DelayInfo)
             (d : CheckDelay.DelayInfo),
      In d delays -> CheckDelay.status d = delayed ->
      Occurs (CheckDelay.message d)
             (CheckDelay.mail_html (CheckDelay.req_body (CheckDelay.request_of w delays)))
      /\ Occurs (CheckDelay.line d)
                (CheckDelay.mail_html (CheckDelay.req_body (CheckDelay.request_of w delays)))
      /\ Occurs (CheckDelay.operator d)
                (CheckDelay.mail_html (CheckDelay.req_body (CheckDelay.request_of w delays))))
  /\ (forall (w : Worker.World) (env : Worker.Env) (delays : list Worker.DelayInfo)
             (d : Worker.DelayInfo),
      In d delays -> Worker.status d = delayed ->
      Occurs (Worker.message d)
             (Worker.mail_html (Worker.req_body (Worker.request_of w env delays)))
      /\ Occurs (Worker.line d)
                (Worker.mail_html (Worker.req_body (Worker.request_of w env delays)))
      /\ Occurs (Worker.operator d)
                (Worker.mail_html (Worker.req_body (Worker.request_of w env delays)))).
Proof.
  split; [| split].
  - intros w result. destruct (htmlBody_shape w result) as [head [middle [tail E]]].
    split; [| split].
    + rewrite E, <- app_assoc. apply is_prefix_spec. eexists. reflexivity.
    + rewrite E. eexists. rewrite !app_assoc. reflexivity.
    + intros l I.
      assert (R : forall x, Occurs x (Index.html_row l) ->
                            Occurs x (Index.htmlBody w result)).
      { intros x O. rewrite E. apply Occurs_app_r, Occurs_app_l.
        exact (Occurs_trans _ _ _ O (Occurs_join Index.html_row [] _ l I)). }
      assert (T : forall x, Occurs x (Index.text_row l) ->
                            Occurs x (Index.textBody result)).
      { intros x O. unfold Index.textBody.
        exact (Occurs_trans _ _ _ O (Occurs_join Index.text_row nl _ l I)). }
      destruct (index_row_quotes l) as [Rm [Rn Ro]].
      repeat split; [now apply R | now apply R | now apply R | |];
        apply T; unfold Index.text_row; occurs_in_parts.
  - intros w delays d I Hd.
    assert (F : In d (filter CheckDelay.is_delayed delays)).
    { apply filter_In. split; [exact I|]. unfold CheckDelay.is_delayed. now rewrite Hd. }
    assert (R : forall x, Occurs x (CheckDelay.html_row d) ->
                          Occurs x (CheckDelay.mail_html
                                      (CheckDelay.req_body (CheckDelay.request_of w delays)))).
    { intros x O. cbn [CheckDelay.mail_html CheckDelay.req_body CheckDelay.request_of].
      unfold CheckDelay.html_of. do 3 apply Occurs_app_r. apply Occurs_app_l.
      exact (Occurs_trans _ _ _ O (Occurs_join CheckDelay.html_row [] _ d F)). }
    destruct (cd_row_quotes d) as [Rm [Rn Ro]]. repeat split; now apply R.
  - intros w env delays d I Hd.
    assert (F : In d (filter Worker.is_delayed delays)).
    { apply filter_In. split; [exact I|]. unfold Worker.is_delayed. now rewrite Hd. }
    assert (R : forall x, Occurs x (Worker.html_row d) ->
                          Occurs x (Worker.mail_html
                                      (Worker.req_body (Worker.request_of w env delays)))).
    { intros x O. cbn [Worker.mail_html Worker.req_body Worker.request_of].
      unfold Worker.html_of. do 3 apply Occurs_app_r. apply Occurs_app_l.
      exact (Occurs_trans _ _ _ O (Occurs_join Worker.html_row [] _ d F)). }
    destruct (wk_row_quotes d) as [Rm [Rn Ro]]. repeat split; now apply R.
Qed.

Lemma mail_bodies_quote_results_witness :
  Occurs (CheckDelay.message script_delay)
         (CheckDelay.mail_html
            (CheckDelay.req_body
               (CheckDelay.request_of (cd_delay_run cd_env (Thrown boom))
                  [script_delay]))).
Proof.
  refine (proj1 (proj1 (proj2 mail_bodies_quote_results)
                   (cd_delay_run cd_env (Thrown boom)) [script_delay]
                   script_delay _ _)).
  - left. reflexivity.
  - reflexivity.
Defined.
(* ================================================================= *)
(** ** The flag of a run *)

(** [main] of check-delay.ts up to its branch on [hasDelays]: the lines
    printed before the branch are neither of the two branch lines. *)
Lemma cd_main_branch {H : Host} (w : CheckDelay.World) (a b : CheckDelay.DelayInfo) :
  CheckDelay.checkYahooTransit CheckDelay.key_hibiya (CheckDelay.hibiya_time w)
    (CheckDelay.hibiya_fetch w) = Returned a ->
  CheckDelay.checkYahooTransit CheckDelay.key_keiyo (CheckDelay.keiyo_time w)
    (CheckDelay.keiyo_fetch w) = Returned b ->
  exists head,
    ~ In cd_sending_line head /\ ~ In cd_all_normal_line head
    /\ run (CheckDelay.main w)
       = if CheckDelay.hasDelays [a; b]
         then CheckDelay.sendEmail w [a; b] (head ++ [cd_sending_line])
         else (head ++ [cd_all_normal_line], Returned tt).
Proof.
  intros Ha Hb. unfold run, CheckDelay.main.
  unfold bind at 1 2 3. unfold CheckDelay.console_log at 1 2. unfold emit, lift.
  unfold CheckDelay.check_all. rewrite Ha, Hb. cbn [promise_all2].
  unfold bind at 1 2. unfold CheckDelay.console_log at 1. unfold emit.
  cbn [app for_of].
  unfold CheckDelay.print_result, bind, CheckDelay.console_log, emit, ret. cbn [app].
  match goal with
  | |- context [(if _ then _ else _) [?e1; ?e2; ?e3; ?e4; ?e5]] =>
      exists [e1; e2; e3; e4; e5]
  end.
  split; [| split].
  - unfold cd_sending_line. intros I. cbn [In] in I.
    destruct I as [E | [E | [E | [E | [E | []]]]]]; injection E as E;
      try (vm_compute in E; discriminate E).
    + destruct (CheckDelay.status a); vm_compute in E; discriminate E.
    + destruct (CheckDelay.status b); vm_compute in E; discriminate E.
  - unfold cd_all_normal_line. intros I. cbn [In] in I.
    destruct I as [E | [E | [E | [E | [E | []]]]]]; injection E as E;
      try (vm_compute in E; discriminate E).
    + destruct (CheckDelay.status a); vm_compute in E; discriminate E.
    + destruct (CheckDelay.status b); vm_compute in E; discriminate E.
  - destruct (CheckDelay.hasDelays [a; b]); reflexivity.
Qed.

(** [sendEmail] of check-delay.ts, called by [main], returns, keeps the
    trace it was given and prints neither of the two branch lines. *)
Lemma cd_sendEmail_tail {H : Host} (w : CheckDelay.World)
      (delays : list CheckDelay.DelayInfo) (tr : list CheckDelay.Event) :
  CheckDelay.hasDelays delays = true ->
  exists tail,
    CheckDelay.sendEmail w delays tr = (tr ++ tail, Returned tt)
    /\ ~ In cd_sending_line tail /\ ~ In cd_all_normal_line tail.
Proof.
  intros Hd.
  destruct (falsy (CheckDelay.RESEND_API_KEY (CheckDelay.env w))
            || falsy (CheckDelay.TO_EMAIL (CheckDelay.env w))) eqn:Hm.
  - eexists. split; [exact (cd_sendEmail_missing w delays tr Hm)|].
    split; intros [E | []]; discriminate E.
  - eexists. split; [exact (cd_sendEmail_posts w delays tr Hm Hd)|].
    unfold post_report, cd_sending_line, cd_all_normal_line.
    split; intros [E | [E | []]]; try discriminate E;
      destruct (CheckDelay.post_outcome w _ _) as [r | e]; try discriminate E;
      destruct (ok r); try (destruct (text r)); try discriminate E;
      injection E as E; vm_compute in E; discriminate E.
Qed.

(** C1: in every run the aggregated flag is true exactly when one of the
    two statuses that the checkers of the run produced is delayed or
    suspended, and statuses that are all normal or unknown leave it false.
    In index.ts the result of [checkAllLines] holds the statuses returned
    by [checkKeiyoLine] and [checkHibiyaLine], in this order, and [hasDelay]
    is computed from them.  In check-delay.ts and in the worker the results
    are the statuses returned by the two calls of [checkYahooTransit] and
    [hasDelays] is computed from them, and the run shows the flag: [main]
    prints its line about sending exactly when the flag is true and its
    line about all lines running normally exactly when it is false, and
    [checkTrainDelays] returns the summary of a run without delay exactly
    when the flag is false.  On any list [hasDelays] tests for delayed
    only, which makes no difference in a run, since [checkYahooTransit]
    never produces suspended. *)
Theorem notification_flag_iff :
  (forall (H : Host) (w : Index.World),
      exists k h result,
        Index.checkKeiyoLine (Index.keiyo_time w) (Index.keiyo_fetch w) = Returned k
        /\ Index.checkHibiyaLine (Index.hibiya_time w) (Index.hibiya_fetch w) = Returned h
        /\ snd (run (Index.checkAllLines w)) = Returned result
        /\ Index.lines result = [k; h]
        /\ (Index.hasDelay result = true
            <-> (Index.status k = delayed \/ Index.status k = suspended)
                \/ (Index.status h = delayed \/ Index.status h = suspended))
        /\ ((Index.status k = normal \/ Index.status k = unknown) ->
            (Index.status h = normal \/ Index.status h = unknown) ->
            Index.hasDelay result = false))
  /\ (forall (H : Host) (w : CheckDelay.World),
      exists a b,
        CheckDelay.checkYahooTransit CheckDelay.key_hibiya (CheckDelay.hibiya_time w)
          (CheckDelay.hibiya_fetch w) = Returned a
        /\ CheckDelay.checkYahooTransit CheckDelay.key_keiyo (CheckDelay.keiyo_time w)
             (CheckDelay.keiyo_fetch w) = Returned b
        /\ CheckDelay.check_all w = Returned [a; b]
        /\ (CheckDelay.hasDelays [a; b] = true
            <-> (CheckDelay.status a = delayed \/ CheckDelay.status a = suspended)
                \/ (CheckDelay.status b = delayed \/ CheckDelay.status b = suspended))
        /\ ((CheckDelay.status a = normal \/ CheckDelay.status a = unknown) ->
            (CheckDelay.status b = normal \/ CheckDelay.status b = unknown) ->
            CheckDelay.hasDelays [a; b] = false)
        /\ (In cd_sending_line (fst (run (CheckDelay.main w)))
            <-> CheckDelay.hasDelays [a; b] = true)
        /\ (In cd_all_normal_line (fst (run (CheckDelay.main w)))
            <-> CheckDelay.hasDelays [a; b] = false))
  /\ (forall w : Worker.World,
      exists a b,
        Worker.checkYahooTransit Worker.key_hibiya (Worker.hibiya_time w)
          (Worker.hibiya_fetch w) = Returned a
        /\ Worker.checkYahooTransit Worker.key_keiyo (Worker.keiyo_time w)
             (Worker.keiyo_fetch w) = Returned b
        /\ Worker.check_all w = Returned [a; b]
        /\ (Worker.hasDelays [a; b] = true
            <-> (Worker.status a = delayed \/ Worker.status a = suspended)
                \/ (Worker.status b = delayed \/ Worker.status b = suspended))
        /\ ((Worker.status a = normal \/ Worker.status a = unknown) ->
            (Worker.status b = normal \/ Worker.status b = unknown) ->
            Worker.hasDelays [a; b] = false)
        /\ (forall env : Worker.Env,
              exists tr summary,
                run (Worker.checkTrainDelays w env) = (tr, Returned summary)
                /\ (summary = js "All lines running normally"
                    <-> Worker.hasDelays [a; b] = false)))
  /\ (forall results : list CheckDelay.DelayInfo,
      CheckDelay.hasDelays results = true
      <-> exists r, In r results /\ CheckDelay.status r = delayed)
  /\ (forall results : list Worker.DelayInfo,
      Worker.hasDelays results = true
      <-> exists r, In r results /\ Worker.status r = delayed).
Proof.
  split; [| split; [| split; [| split]]].
  - intros H w.
    destruct (checkKeiyoLine_returns (Index.keiyo_time w) (Index.keiyo_fetch w)) as [k Hk].
    destruct (checkHibiyaLine_returns (Index.hibiya_time w) (Index.hibiya_fetch w)) as [h Hh].
    exists k, h. eexists. unfold run. rewrite (checkAllLines_run w [] Hk Hh).
    split; [exact Hk|]. split; [exact Hh|]. split; [reflexivity|].
    split; [reflexivity|].
    cbn [snd Index.hasDelay Index.lines existsb]. rewrite orb_false_r.
    split.
    + rewrite orb_true_iff, !notifiable_spec. reflexivity.
    + intros Sk Sh. unfold Index.notifiable.
      destruct Sk as [-> | ->], Sh as [-> | ->]; reflexivity.
  - intros H w.
    destruct (yahoo_status_not_suspended CheckDelay.key_hibiya
                (CheckDelay.hibiya_time w) (CheckDelay.hibiya_fetch w)) as [a [Ha Na]].
    destruct (yahoo_status_not_suspended CheckDelay.key_keiyo
                (CheckDelay.keiyo_time w) (CheckDelay.keiyo_fetch w)) as [b [Hb Nb]].
    exists a, b. split; [exact Ha|]. split; [exact Hb|].
    split; [unfold CheckDelay.check_all; now rewrite Ha, Hb|].
    split; [| split].
    + unfold CheckDelay.hasDelays, CheckDelay.is_delayed. cbn [existsb].
      rewrite orb_false_r.
      destruct (CheckDelay.status a), (CheckDelay.status b); cbn;
        try contradiction; (split; [auto; discriminate | intros _; reflexivity])
        || (split; [discriminate | intros [[D | D] | [D | D]]; discriminate D]).
    + unfold CheckDelay.hasDelays, CheckDelay.is_delayed. cbn [existsb].
      intros [-> | ->] [-> | ->]; reflexivity.
    + destruct (cd_main_branch w a b Ha Hb) as [head [Hs [Hn Hrun]]].
      rewrite Hrun. destruct (CheckDelay.hasDelays [a; b]) eqn:Hd.
      * destruct (cd_sendEmail_tail w [a; b] (head ++ [cd_sending_line]) Hd)
          as [tail [-> [Ts Tn]]].
        cbn [fst]. split; split.
        -- intros _. reflexivity.
        -- intros _. apply in_or_app. left. apply in_or_app. right. now left.
        -- intros I. exfalso. apply in_app_or in I.
           destruct I as [I | I]; [| exact (Tn I)].
           apply in_app_or in I. destruct I as [I | [E | []]]; [exact (Hn I)|].
           unfold cd_sending_line, cd_all_normal_line in E.
           injection E as E. vm_compute in E. discriminate E.
        -- discriminate.
      * cbn [fst]. split; split.
        -- intros I. exfalso. apply in_app_or in I.
           destruct I as [I | [E | []]]; [exact (Hs I)|].
           unfold cd_sending_line, cd_all_normal_line in E.
           injection E as E. vm_compute in E. discriminate E.
        -- discriminate.
        -- intros _. reflexivity.
        -- intros _. apply in_or_app. right. now left.
  - intros w.
    destruct (worker_status_not_suspended Worker.key_hibiya
                (Worker.hibiya_time w) (Worker.hibiya_fetch w)) as [a [Ha Na]].
    destruct (worker_status_not_suspended Worker.key_keiyo
                (Worker.keiyo_time w) (Worker.keiyo_fetch w)) as [b [Hb Nb]].
    exists a, b. split; [exact Ha|]. split; [exact Hb|].
    assert (Hall : Worker.check_all w = Returned [a; b])
      by (unfold Worker.check_all; now rewrite Ha, Hb).
    split; [exact Hall|].
    split; [| split].
    + unfold Worker.hasDelays, Worker.is_delayed. cbn [existsb].
      rewrite orb_false_r.
      destruct (Worker.status a), (Worker.status b); cbn;
        try contradiction; (split; [auto; discriminate | intros _; reflexivity])
        || (split; [discriminate | intros [[D | D] | [D | D]]; discriminate D]).
    + unfold Worker.hasDelays, Worker.is_delayed. cbn [existsb].
      intros [-> | ->] [-> | ->]; reflexivity.
    + intros env.
      destruct (wk_run_cases w env) as [a' [b' [tr [Hc [_ [_ [Hrun _]]]]]]].
      rewrite Hall in Hc. injection Hc as <- <-.
      eexists. eexists. split; [exact Hrun|].
      destruct (Worker.hasDelays [a; b]); split.
      * intros E. vm_compute in E. discriminate E.
      * discriminate.
      * intros _. reflexivity.
      * intros _. reflexivity.
  - intros results. unfold CheckDelay.hasDelays. rewrite existsb_exists.
    split; intros [r [I D]]; exists r; (split; [exact I|]);
      unfold CheckDelay.is_delayed in *.
    + destruct (CheckDelay.status r); try discriminate D; reflexivity.
    + now rewrite D.
  - intros results. unfold Worker.hasDelays. rewrite existsb_exists.
    split; intros [r [I D]]; exists r; (split; [exact I|]);
      unfold Worker.is_delayed in *.
    + destruct (Worker.status r); try discriminate D; reflexivity.
    + now rewrite D.
Qed.

(** A run of index.ts with a delay on the Keiyo line: the checker returns
    delayed and the flag of the aggregate is true. *)
Lemma notification_flag_iff_witness :
  exists k h result,
    @Index.checkKeiyoLine plain_host
       (Index.keiyo_time (delay_run complete_env (Returned tt)))
       (Index.keiyo_fetch (delay_run complete_env (Returned tt))) = Returned k
    /\ Index.status k = delayed
    /\ snd (run (@Index.checkAllLines plain_host (delay_run complete_env (Returned tt))))
       = Returned result
    /\ Index.lines result = [k; h]
    /\ Index.hasDelay result = true.
Proof.
  destruct (proj1 notification_flag_iff plain_host (delay_run complete_env (Returned tt)))
    as [k [h [result [Hk [Hh [Hr [Hl [Hiff _]]]]]]]].
  assert (Sk : Index.status k = delayed).
  { vm_compute in Hk. injection Hk as <-. reflexivity. }
  exists k, h, result.
  split; [exact Hk|]. split; [exact Sk|]. split; [exact Hr|]. split; [exact Hl|].
  apply Hiff. left. left. exact Sk.
Defined.
